(** * container-ops: the metrics sampler and its alerting path

    A shallow embedding of [lib/cron.ts] (limits, container usage, the
    per-process sampler, the threshold check) and of [lib/webhook.ts]
    (one webhook execution), with the properties of the written
    specification stated over it.

    Conventions.
    - What the operating system hands back to a read (a file's text, a
      directory listing, the result of a [/proc] helper) is an input of
      the model, collected in the record [Host].
    - JavaScript integers that are always finite (timestamps, jiffies,
      byte counts) are [Z]; ratios of such numbers are [Q], computed
      exactly, so binary rounding is abstracted away.  The one quantity
      that can leave the finite numbers, the container CPU percentage,
      is a [number], which keeps NaN and the infinities.
    - Strings are byte strings; the white space of [trim], [parseInt]
      and [\s] is the ASCII part of the JavaScript definition. *)

From Stdlib Require Import ZArith QArith Qminmax Qround Lqa Ascii String Bool Lia List Sorting.Sorted Permutation.
From stdpp Require Import gmap strings list pretty.

Local Open Scope string_scope.
Local Open Scope list_scope.
Local Open Scope Z_scope.

(** ** JavaScript strings *)

Module Js.

Definition isWhiteSpace (c : ascii) : bool :=
  let n := nat_of_ascii c in
  ((9 <=? n)%nat && (n <=? 13)%nat) || (n =? 32)%nat.

Definition isDigit (c : ascii) : bool :=
  let n := nat_of_ascii c in (48 <=? n)%nat && (n <=? 57)%nat.

Definition isEmpty (s : string) : bool :=
  match s with EmptyString => true | String _ _ => false end.

(** A string is truthy when it is not empty ([if (s)], [filter(Boolean)],
    [s || d]). *)
Definition truthy (s : string) : bool := negb (isEmpty s).

Definition orElse (s d : string) : string := if truthy s then s else d.

Fixpoint trimStart (s : string) : string :=
  match s with
  | EmptyString => EmptyString
  | String c s' => if isWhiteSpace c then trimStart s' else s
  end.

Fixpoint trimEnd (s : string) : string :=
  match s with
  | EmptyString => EmptyString
  | String c s' =>
      let t := trimEnd s' in
      if isWhiteSpace c && isEmpty t then EmptyString else String c t
  end.

Definition trim (s : string) : string := trimEnd (trimStart s).

Definition lowerChar (c : ascii) : ascii :=
  let n := nat_of_ascii c in
  if (65 <=? n)%nat && (n <=? 90)%nat then ascii_of_nat (n + 32) else c.

Fixpoint toLowerCase (s : string) : string :=
  match s with
  | EmptyString => EmptyString
  | String c s' => String (lowerChar c) (toLowerCase s')
  end.

(** [s.split(sep)] for a separator of one character: never empty, and
    [split sep ""] is the list holding the empty string. *)
Fixpoint split (sep : ascii) (s : string) : list string :=
  match s with
  | EmptyString => [EmptyString]
  | String c s' =>
      if Ascii.eqb c sep then EmptyString :: split sep s'
      else match split sep s' with
           | [] => [String c EmptyString]
           | w :: ws => String c w :: ws
           end
  end.

Fixpoint startsWith (p s : string) : bool :=
  match p, s with
  | EmptyString, _ => true
  | String a p', String b s' => Ascii.eqb a b && startsWith p' s'
  | String _ _, EmptyString => false
  end.

Fixpoint includes (p s : string) : bool :=
  startsWith p s ||
  match s with
  | EmptyString => false
  | String _ s' => includes p s'
  end.

(** Value of a digit in the given radix (10 or 16), if it is one. *)
Definition digitValue (radix : Z) (c : ascii) : option Z :=
  let n := Z.of_nat (nat_of_ascii c) in
  let v := if (48 <=? n) && (n <=? 57) then Some (n - 48)
           else if (97 <=? n) && (n <=? 102) then Some (n - 87)
           else if (65 <=? n) && (n <=? 70) then Some (n - 55)
           else None in
  match v with
  | Some d => if d <? radix then Some d else None
  | None => None
  end.

(** The longest prefix of digits, read left to right; [None] when the
    string does not start with a digit. *)
Fixpoint digitsFrom (radix : Z) (acc : option Z) (s : string) : option Z :=
  match s with
  | EmptyString => acc
  | String c s' =>
      match digitValue radix c with
      | Some d => digitsFrom radix (Some (radix * default 0 acc + d)) s'
      | None => acc
      end
  end.

Definition stripSign (s : string) : Z * string :=
  match s with
  | String "-" s' => (-1, s')
  | String "+" s' => (1, s')
  | _ => (1, s)
  end.

(** [parseInt(s, radix)]; [None] is NaN.  With no radix a [0x] prefix
    selects base 16, with radix 10 it does not. *)
Definition parseInt (s : string) (radix : option Z) : option Z :=
  let '(sign, body) := stripSign (trimStart s) in
  let '(r, body) :=
    match radix, body with
    | None, String "0" (String "x" rest) => (16, rest)
    | None, String "0" (String "X" rest) => (16, rest)
    | None, _ => (10, body)
    | Some r, _ => (r, body)
    end in
  match digitsFrom r None body with
  | Some n => Some (sign * n)
  | None => None
  end.

Definition parseInt10 (s : string) : option Z := parseInt s (Some 10).

End Js.

(** ** The UID allow-list ([buildAllowedUidSet]) *)

(** The environment variables the module reads when it is loaded. *)
Record Env := {
  env_PROC_MAX : option string;
  env_PROC_MODE : option string;
  env_PROC_UIDS : option string;
}.

(** [(process.env.PROC_MODE || "all").toLowerCase().trim()] *)
Definition ENV_PROC_MODE (e : Env) : string :=
  Js.trim (Js.toLowerCase (Js.orElse (default "" (env_PROC_MODE e)) "all")).

(** [process.env.PROC_UIDS?.trim()] *)
Definition ENV_PROC_UIDS (e : Env) : option string :=
  Js.trim <$> env_PROC_UIDS e.

(** [Math.max(1, parseInt(process.env.PROC_MAX || "8192", 10) || 8192)] *)
Definition PROC_MAX (e : Env) : Z :=
  Z.max 1
    (match Js.parseInt10 (Js.orElse (default "" (env_PROC_MAX e)) "8192") with
     | Some n => if n =? 0 then 8192 else n
     | None => 8192
     end).

(** The numbers of an explicit list: the parts between commas, trimmed,
    the empty ones dropped, those that [parseInt] reads kept. *)
Definition parseUidList (uids : string) : list Z :=
  omap Js.parseInt10 (List.filter Js.truthy (Js.trim <$> Js.split "," uids)).

(** [getuid] is [None] where [process.getuid] is not a function; an
    unset [PROC_UIDS] is as falsy as an empty one. *)
Definition buildAllowedUidSet (e : Env) (getuid : option Z) : option (gset Z) :=
  let myUid := default 0 getuid in
  let uids := default "" (ENV_PROC_UIDS e) in
  if Js.truthy uids then
    let set : gset Z := list_to_set (parseUidList uids) in
    Some (if decide (size set = 0%nat) then {[ myUid ]} else set)
  else if String.eqb (ENV_PROC_MODE e) "user" then Some {[ myUid ]}
  else if String.eqb (ENV_PROC_MODE e) "user+root" then Some ({[ myUid ]} ∪ {[ 0 ]})
  else None.

(** The test of the sampling loop: with an allow-list, a process whose
    UID could not be read or is not listed is skipped. *)
Definition uidPasses (allowed : option (gset Z)) (uid : option Z) : bool :=
  match allowed with
  | None => true
  | Some set =>
      match uid with
      | None => false
      | Some u => bool_decide (u ∈ set)
      end
  end.

(** ** JavaScript numbers that may leave the finite range *)

Inductive number :=
  | Finite (q : Q)
  | PosInfinity
  | NegInfinity
  | NaN.

Module Num.

Definition ofZ (z : Z) : number := Finite (inject_Z z).

Definition ofParsed (p : option Z) : number :=
  match p with Some z => ofZ z | None => NaN end.

Definition isFinite (x : number) : bool :=
  match x with Finite _ => true | _ => false end.

(** [if (x)]: zero and NaN are falsy. *)
Definition truthy (x : number) : bool :=
  match x with
  | Finite q => negb (Qeq_bool q 0)
  | PosInfinity | NegInfinity => true
  | NaN => false
  end.

Definition sub (x y : number) : number :=
  match x, y with
  | NaN, _ | _, NaN => NaN
  | Finite a, Finite b => Finite (a - b)
  | Finite _, PosInfinity => NegInfinity
  | Finite _, NegInfinity => PosInfinity
  | PosInfinity, PosInfinity => NaN
  | PosInfinity, _ => PosInfinity
  | NegInfinity, NegInfinity => NaN
  | NegInfinity, _ => NegInfinity
  end.

(** An infinity with the sign of [q]; NaN for zero. *)
Definition infinityTimes (pos : bool) (q : Q) : number :=
  match q ?= 0 with
  | Eq => NaN
  | Gt => if pos then PosInfinity else NegInfinity
  | Lt => if pos then NegInfinity else PosInfinity
  end%Q.

Definition mul (x y : number) : number :=
  match x, y with
  | NaN, _ | _, NaN => NaN
  | Finite a, Finite b => Finite (a * b)
  | Finite a, PosInfinity | PosInfinity, Finite a => infinityTimes true a
  | Finite a, NegInfinity | NegInfinity, Finite a => infinityTimes false a
  | PosInfinity, PosInfinity | NegInfinity, NegInfinity => PosInfinity
  | PosInfinity, NegInfinity | NegInfinity, PosInfinity => NegInfinity
  end.

(** Division; a zero divisor is the positive zero (the only zero the
    sampler divides by is a difference of two equal timestamps). *)
Definition div (x y : number) : number :=
  match x, y with
  | NaN, _ | _, NaN => NaN
  | Finite a, Finite b =>
      if Qeq_bool b 0 then infinityTimes true a else Finite (a / b)
  | Finite _, _ => Finite 0
  | PosInfinity, Finite b => if Qle_bool 0 b then PosInfinity else NegInfinity
  | NegInfinity, Finite b => if Qle_bool 0 b then NegInfinity else PosInfinity
  | _, _ => NaN
  end.

(** [Math.max] and [Math.min]: NaN as soon as one argument is. *)
Definition max (x y : number) : number :=
  match x, y with
  | NaN, _ | _, NaN => NaN
  | PosInfinity, _ | _, PosInfinity => PosInfinity
  | NegInfinity, z | z, NegInfinity => z
  | Finite a, Finite b => Finite (Qmax a b)
  end.

Definition min (x y : number) : number :=
  match x, y with
  | NaN, _ | _, NaN => NaN
  | NegInfinity, _ | _, NegInfinity => NegInfinity
  | PosInfinity, z | z, PosInfinity => z
  | Finite a, Finite b => Finite (Qmin a b)
  end.

(** [x >= y]; false when either is NaN. *)
Definition geb (x y : number) : bool :=
  match x, y with
  | NaN, _ | _, NaN => false
  | PosInfinity, _ => true
  | _, NegInfinity => true
  | NegInfinity, _ => false
  | _, PosInfinity => false
  | Finite a, Finite b => Qle_bool b a
  end.

Definition twoDigits (n : Z) : string :=
  if n <? 10 then "0" +:+ pretty n else pretty n.

(** [x.toFixed(2)] of a non-negative rational: the nearest multiple of
    1/100, the larger one on a tie. *)
Definition fixed2 (q : Q) : string :=
  let n := Qfloor (q * 100 + (1 # 2))%Q in
  pretty (n / 100) +:+ "." +:+ twoDigits (n mod 100).

(** [x.toFixed(2)] (below 1e21, where JavaScript still prints digits). *)
Definition toFixed2 (x : number) : string :=
  match x with
  | Finite q => if Qle_bool 0 q then fixed2 q else "-" +:+ fixed2 (- q)
  | PosInfinity => "Infinity"
  | NegInfinity => "-Infinity"
  | NaN => "NaN"
  end.

End Num.

(** ** What the host answers *)

Record Dirent := { d_name : string; d_isDirectory : bool }.

Record ThresholdSettings := {
  th_cpu : Q;
  th_memory : Q;
  th_storage : Q;
  th_enabled : bool;
}.

(** Everything one collection cycle reads from outside the module. *)
Record Host := {
  (** [fs.readFile(path, "utf8")]; [None] when the promise rejects *)
  readFile : string -> option string;
  (** [os.cpus().length] *)
  cpus : Z;
  (** standard output of [getconf NAME || echo default]; [None] when
      [exec] rejects *)
  getconf : string -> option string;
  (** the value [getDf(path)] resolves to: total and used bytes *)
  getDf : string -> option (Z * Z);
  (** [fs.readdir("/proc", {withFileTypes: true})] *)
  readdirProc : option (list Dirent);
  (** the values the per-process readers resolve to *)
  getPidUid : Z -> option Z;
  getPidCmdline : Z -> string;
  getPidTimesAndPpid : Z -> option (Z * Z);
  getPidRssBytes : positive -> Z -> Z;
  mapUidNames : gset Z -> gmap string string;
  (** [process.getuid()], when there is one *)
  getuid : option Z;
  (** [Date.now()] at the start of the CPU computation, and later in
      [checkThresholds] *)
  dateNow : Z;
  dateNowCheck : Z;
  (** whether [ensureRedisConnection] and the writes of the snapshot
      resolve *)
  redisConnects : bool;
  redisStores : bool;
  (** the value [getAdminSettings()] resolves to (it never rejects) *)
  thresholds : ThresholdSettings;
}.

(** ** Limits and usage from the cgroup files *)

Inductive CgroupVersion := V1 | V2.

Definition detectCgroupVersion (h : Host) : CgroupVersion :=
  match readFile h "/proc/mounts" with
  | Some mounts => if Js.includes "cgroup2" mounts then V2 else V1
  | None => V1
  end.

Definition readNumber (h : Host) (path : string) : Z :=
  match readFile h path with
  | Some value => default 0 (Js.parseInt10 (Js.trim value))
  | None => 0
  end.

(** [quota > 0 && period > 0 ? quota / period : os.cpus().length]; a
    comparison with NaN is false. *)
Definition quotaOverPeriod (h : Host) (quota period : option Z) : Q :=
  match quota, period with
  | Some q, Some p =>
      if (0 <? q) && (0 <? p) then (inject_Z q / inject_Z p)%Q
      else inject_Z (cpus h)
  | _, _ => inject_Z (cpus h)
  end.

(** [parseInt(xs[i], 10)], where a missing element reads as NaN. *)
Definition parseNth (xs : list string) (i : nat) (radix : option Z) : option Z :=
  match xs !! i with
  | Some s => Js.parseInt s radix
  | None => None
  end.

Definition getCpuLimit (h : Host) (version : CgroupVersion) : Q :=
  match version with
  | V2 =>
      let cpuMax := default "" (readFile h "/sys/fs/cgroup/cpu.max") in
      if Js.truthy cpuMax then
        let parts := Js.split " " (Js.trim cpuMax) in
        quotaOverPeriod h (parseNth parts 0 (Some 10)) (parseNth parts 1 (Some 10))
      else inject_Z (cpus h)
  | V1 =>
      let quotaStr := default "0" (readFile h "/sys/fs/cgroup/cpu/cpu.cfs_quota_us") in
      let periodStr := default "100000" (readFile h "/sys/fs/cgroup/cpu/cpu.cfs_period_us") in
      quotaOverPeriod h (Js.parseInt10 (Js.trim quotaStr)) (Js.parseInt10 (Js.trim periodStr))
  end.

Fixpoint dropPrefix (p s : string) : option string :=
  match p, s with
  | EmptyString, _ => Some s
  | String a p', String b s' => if Ascii.eqb a b then dropPrefix p' s' else None
  | String _ _, EmptyString => None
  end.

Fixpoint takeWhile (f : ascii -> bool) (s : string) : string :=
  match s with
  | String c s' => if f c then String c (takeWhile f s') else EmptyString
  | EmptyString => EmptyString
  end.

Fixpoint dropWhile (f : ascii -> bool) (s : string) : string :=
  match s with
  | String c s' => if f c then dropWhile f s' else s
  | EmptyString => EmptyString
  end.

(** The group of [/key\s+(\d+)/.exec(s)]: at the first place where [key],
    some white space and some digits follow one another, those digits. *)
Fixpoint execKeySpaceDigits (key s : string) : option string :=
  let here :=
    match dropPrefix key s with
    | Some rest =>
        let digits := takeWhile Js.isDigit (dropWhile Js.isWhiteSpace rest) in
        if Js.truthy (takeWhile Js.isWhiteSpace rest) && Js.truthy digits
        then Some digits else None
    | None => None
    end in
  match here with
  | Some d => Some d
  | None =>
      match s with
      | EmptyString => None
      | String _ s' => execKeySpaceDigits key s'
      end
  end.

Definition MAX_SAFE_INTEGER : Z := 9007199254740991.

(** The memory part of [collectMetrics]: limit and usage in bytes;
    [None] when the unguarded read of [/proc/meminfo] rejects, which
    ends the cycle in its [catch]. *)
Definition readMemory (h : Host) (version : CgroupVersion) : option (Z * Z) :=
  match version with
  | V2 =>
      let memLimit := readNumber h "/sys/fs/cgroup/memory.max" in
      let memUsage := readNumber h "/sys/fs/cgroup/memory.current" in
      if (memLimit <=? 0) || (memLimit =? MAX_SAFE_INTEGER) then
        match readFile h "/proc/meminfo" with
        | Some meminfo =>
            match execKeySpaceDigits "MemTotal:" meminfo with
            | Some digits => Some (default 0 (Js.parseInt digits None) * 1024, memUsage)
            | None => Some (0, memUsage)
            end
        | None => None
        end
      else Some (memLimit, memUsage)
  | V1 =>
      Some (readNumber h "/sys/fs/cgroup/memory/memory.limit_in_bytes",
            readNumber h "/sys/fs/cgroup/memory/memory.usage_in_bytes")
  end.

(** Cumulative CPU time of the container in nanoseconds; [None] when
    the unguarded read of [cpu.stat] rejects. *)
Definition readUsageNs (h : Host) (version : CgroupVersion) : option number :=
  match version with
  | V2 =>
      match readFile h "/sys/fs/cgroup/cpu.stat" with
      | Some stat =>
          match List.find (Js.startsWith "usage_usec") (Js.split "010" stat) with
          | Some usageLine =>
              let usageUs := Num.ofParsed (parseNth (Js.split " " usageLine) 1 None) in
              Some (Num.mul usageUs (Num.ofZ 1000))
          | None => Some (Num.ofZ 0)
          end
      | None => None
      end
  | V1 => Some (Num.ofZ (readNumber h "/sys/fs/cgroup/cpuacct/cpuacct.usage"))
  end.

(** ** The per-process sampler ([listProcessSamples]) *)

Record ProcTime := { jiffies : Z; ts : Z }.

Record Sample := {
  pid : Z;
  uid : option Z;
  ppid : Z;
  command : string;
  cpu_percent : option Q;
  mem_bytes : Z;
  mem_percent : option Q;
}.

(** The state that outlives a cycle: the module's [let] and [const]
    globals.  [CLK_TCK] and [PAGE_SIZE] start at 100 and 4096 and are
    only ever assigned a parsed number that is greater than zero. *)
Record SamplerState := {
  lastCpuUsageNs : number;
  lastTsContainer : Z;
  prevProcTimes : gmap Z ProcTime;
  CLK_TCK : positive;
  PAGE_SIZE : positive;
}.

Definition initialState : SamplerState :=
  {| lastCpuUsageNs := Num.ofZ 0; lastTsContainer := 0;
     prevProcTimes := ∅; CLK_TCK := 100; PAGE_SIZE := 4096 |}.

Definition Qltb (a b : Q) : bool := negb (Qle_bool b a).

Definition EPSILON : Q := 1 # 1000000.

Definition clamp100 (x : Q) : Q := Qmin 100 (Qmax 0 x).

(** Lines 243 to 251: the CPU share of one process since its previous
    sample, [None] for [undefined]. *)
Definition cpuPct (clk : positive) (cpuLimit : Q) (now j : Z)
    (prev : option ProcTime) : option Q :=
  match prev with
  | None => None
  | Some p =>
      let deltaSec := (inject_Z (now - ts p) / 1000)%Q in
      if Qltb 0 deltaSec then
        let deltaJ := j - jiffies p in
        let cpuTimeSec := (inject_Z deltaJ / inject_Z (Z.pos clk))%Q in
        Some (clamp100 ((cpuTimeSec / deltaSec) * (100 / Qmax cpuLimit EPSILON))%Q)
      else None
  end.

Definition memPct (memLimitBytes rssBytes : Z) : option Q :=
  if 0 <? memLimitBytes
  then Some (inject_Z rssBytes / inject_Z memLimitBytes * 100)%Q
  else None.

Section Sampler.

Context (h : Host) (allowedUids : option (gset Z)).
Context (procMax : Z) (clk pageSize : positive).
Context (now : Z) (cpuLimit : Q) (memLimitBytes : Z).

(** One turn of the loop over the PIDs: [None] is [continue], otherwise
    the updated map and the sample pushed. *)
Definition samplePid (p : Z) (prev : gmap Z ProcTime)
    : option (gmap Z ProcTime * Sample) :=
  let u := getPidUid h p in
  if uidPasses allowedUids u then
    match getPidTimesAndPpid h p with
    | None => None
    | Some (j, pp) =>
        let cmdline := getPidCmdline h p in
        let rssBytes := getPidRssBytes h pageSize p in
        Some (<[ p := {| jiffies := j; ts := now |} ]> prev,
              {| pid := p; uid := u; ppid := pp;
                 command := Js.orElse cmdline "(unknown)";
                 cpu_percent := cpuPct clk cpuLimit now j (prev !! p);
                 mem_bytes := rssBytes;
                 mem_percent := memPct memLimitBytes rssBytes |})
    end
  else None.

(** The loop, with its [break] once [PROC_MAX] samples are collected. *)
Fixpoint sampleLoop (pids : list Z) (prev : gmap Z ProcTime) (samples : list Sample)
    : gmap Z ProcTime * list Sample :=
  match pids with
  | [] => (prev, samples)
  | p :: rest =>
      match samplePid p prev with
      | None => sampleLoop rest prev samples
      | Some (prev', s) =>
          let samples' := (samples ++ [s])%list in
          if procMax <=? Z.of_nat (length samples') then (prev', samples')
          else sampleLoop rest prev' samples'
      end
  end.

End Sampler.

(** The PIDs of the listing: the directories with an all-digit name. *)
Definition isPidName (name : string) : bool :=
  Js.truthy name && Js.isEmpty (dropWhile Js.isDigit name).

Definition listPids (h : Host) : list Z :=
  match readdirProc h with
  | Some entries =>
      (fun e => default 0 (Js.parseInt10 (d_name e))) <$>
      List.filter (fun e => d_isDirectory e && isPidName (d_name e)) entries
  | None => []
  end.

(** "cleanup disappeared PIDs" *)
Definition cleanup (pids : list Z) (prev : gmap Z ProcTime) : gmap Z ProcTime :=
  filter (fun kv => kv.1 ∈ pids) prev.

(** The comparator handed to [sort]:
    [(b.cpu_percent ?? 0) - (a.cpu_percent ?? 0) || b.mem_bytes - a.mem_bytes] *)
Definition compareSamples (a b : Sample) : Q :=
  let d := (default 0 (cpu_percent b) - default 0 (cpu_percent a))%Q in
  if Qeq_bool d 0 then inject_Z (mem_bytes b - mem_bytes a) else d.

(** [a] may stay in front of [b]. *)
Definition inOrder (a b : Sample) : bool := Qle_bool (compareSamples a b) 0.

(** [Array.prototype.sort] is stable; for a comparator that is a total
    preorder its result is the one that stable insertion computes. *)
Fixpoint insertSorted (x : Sample) (l : list Sample) : list Sample :=
  match l with
  | [] => [x]
  | y :: l' => if inOrder x y then x :: y :: l' else y :: insertSorted x l'
  end.

Fixpoint sortSamples (l : list Sample) : list Sample :=
  match l with
  | [] => []
  | x :: l' => insertSorted x (sortSamples l')
  end.

Definition listProcessSamples (h : Host) (e : Env) (st : SamplerState)
    (now : Z) (cpuLimit : Q) (memLimitBytes : Z)
    : gmap Z ProcTime * list Sample :=
  let allowedUids := buildAllowedUidSet e (getuid h) in
  let pids := listPids h in
  let '(prev, samples) :=
    sampleLoop h allowedUids (PROC_MAX e) (CLK_TCK st) (PAGE_SIZE st)
      now cpuLimit memLimitBytes pids (prevProcTimes st) [] in
  (cleanup pids prev, sortSamples samples).

(** ** Threshold alerts ([checkThresholds]) *)

Inductive Resource := Cpu | Memory | Storage.

(** [lastNotificationTime], one optional timestamp per resource *)
Record Cooldown := {
  last_cpu : option Z;
  last_memory : option Z;
  last_storage : option Z;
}.

Definition noNotification : Cooldown :=
  {| last_cpu := None; last_memory := None; last_storage := None |}.

Definition NOTIFICATION_COOLDOWN : Z := 5 * 60 * 1000.

(** A call [sendWebhookNotification(resource, value, threshold)] *)
Record Notification := {
  n_resource : Resource;
  n_value : number;
  n_threshold : Q;
}.

(** One of the three blocks of [checkThresholds]; [last || 0] is
    [default 0 last], a stored 0 being falsy. *)
Definition checkOne (r : Resource) (value : number) (threshold : Q) (now : Z)
    (last : option Z) : option Z * list Notification :=
  if Num.geb value (Finite threshold) then
    let lastNotif := default 0 last in
    if NOTIFICATION_COOLDOWN <=? now - lastNotif then
      (Some now, [ {| n_resource := r; n_value := value; n_threshold := threshold |} ])
    else (last, [])
  else (last, []).

(** [settings] is what [getAdminSettings()] resolved to and [now] the
    [Date.now()] read after it; a notification stands for one awaited
    call of [sendWebhookNotification], which catches its own errors. *)
Definition checkThresholds (settings : ThresholdSettings) (now : Z)
    (cpu memory storage : number) (cd : Cooldown) : Cooldown * list Notification :=
  if negb (th_enabled settings) then (cd, [])
  else
    let '(c, n1) := checkOne Cpu cpu (th_cpu settings) now (last_cpu cd) in
    let '(m, n2) := checkOne Memory memory (th_memory settings) now (last_memory cd) in
    let '(s, n3) := checkOne Storage storage (th_storage settings) now (last_storage cd) in
    ({| last_cpu := c; last_memory := m; last_storage := s |}, (n1 ++ n2 ++ n3)%list).

(** ** One collection cycle ([collectMetrics]) *)

(** [if (!isNaN(n) && n > 0) X = n] *)
Definition assignIfPositive (stdout : option string) (old : positive) : positive :=
  match stdout with
  | Some out =>
      match Js.parseInt10 (Js.trim out) with
      | Some (Z.pos n) => n
      | _ => old
      end
  | None => old
  end.

Definition ensureSysConf (h : Host) (st : SamplerState) : SamplerState :=
  {| lastCpuUsageNs := lastCpuUsageNs st;
     lastTsContainer := lastTsContainer st;
     prevProcTimes := prevProcTimes st;
     CLK_TCK := assignIfPositive (getconf h "CLK_TCK") (CLK_TCK st);
     PAGE_SIZE := assignIfPositive (getconf h "PAGESIZE") (PAGE_SIZE st) |}.

(** Lines 319 to 327: the raw share when there is a previous sample,
    0 otherwise, then the clamp. *)
Definition containerCpuPercent (st : SamplerState) (usageNs : number) (now : Z)
    (cpuLimit : Q) : number :=
  let raw :=
    if Num.truthy (lastCpuUsageNs st) && negb (lastTsContainer st =? 0) then
      let deltaUsage := Num.sub usageNs (lastCpuUsageNs st) in
      let deltaTimeNs := Num.ofZ ((now - lastTsContainer st) * 1000000) in
      Num.div (Num.mul (Num.div deltaUsage deltaTimeNs) (Finite 100))
              (Finite (Qmax cpuLimit EPSILON))
    else Finite 0 in
  Num.min (Finite 100) (Num.max (Finite 0) raw).

(** [limit > 0 ? (used / limit) * 100 : 0] *)
Definition ratioPercent (used limit : Z) : Q :=
  if 0 <? limit then (inject_Z used / inject_Z limit * 100)%Q else 0%Q.

(** The numbers of a cycle before they are formatted. *)
Record Measured := {
  m_now : Z;
  m_cpuLimit : Q;
  m_cpuUsagePercent : number;
  m_memLimit : Z;
  m_memUsage : Z;
  m_memPercent : Q;
  m_storageTotal : Z;
  m_storageUsed : Z;
  m_storagePercent : Q;
  m_processes : list Sample;
}.

(** The body of [collectMetrics] down to the process list.  The state
    is returned as the globals stand when the function leaves the
    block; the measurement is [None] when an exception ended it. *)
Definition measure (h : Host) (e : Env) (st : SamplerState)
    : SamplerState * option Measured :=
  if negb (redisConnects h) then (st, None) else
  let st1 := ensureSysConf h st in
  let version := detectCgroupVersion h in
  match readMemory h version with
  | None => (st1, None)
  | Some (memLimit, memUsage) =>
      let memPercent := ratioPercent memUsage memLimit in
      match readUsageNs h version with
      | None => (st1, None)
      | Some usageNs =>
          let now := dateNow h in
          let cpuLimit := getCpuLimit h version in
          let cpuUsagePercent := containerCpuPercent st1 usageNs now cpuLimit in
          let st2 :=
            {| lastCpuUsageNs := usageNs; lastTsContainer := now;
               prevProcTimes := prevProcTimes st1;
               CLK_TCK := CLK_TCK st1; PAGE_SIZE := PAGE_SIZE st1 |} in
          let storage :=
            match getDf h "/config" with
            | Some s => Some s
            | None => getDf h "/"
            end in
          let storageTotal := default 0 (fst <$> storage) in
          let storageUsed := default 0 (snd <$> storage) in
          let storagePercent := ratioPercent storageUsed storageTotal in
          let '(prev, processes) := listProcessSamples h e st2 now cpuLimit memLimit in
          ({| lastCpuUsageNs := usageNs; lastTsContainer := now;
              prevProcTimes := prev;
              CLK_TCK := CLK_TCK st1; PAGE_SIZE := PAGE_SIZE st1 |},
           Some {| m_now := now; m_cpuLimit := cpuLimit;
                   m_cpuUsagePercent := cpuUsagePercent;
                   m_memLimit := memLimit; m_memUsage := memUsage;
                   m_memPercent := memPercent;
                   m_storageTotal := storageTotal; m_storageUsed := storageUsed;
                   m_storagePercent := storagePercent;
                   m_processes := processes |})
      end
  end.

Record ProcessData := {
  p_pid : Z;
  p_uid : option Z;
  p_ppid : Z;
  p_command : string;
  p_cpu_usage_percent : option string;
  p_memory_usage_bytes : Z;
  p_memory_usage_percent : option string;
}.

(** The object written to the store under [metrics:<timestamp>]. *)
Record Data := {
  timestamp : Z;
  cpu_limit : Q;
  cpu_usage_percent : string;
  memory_limit_bytes : Z;
  memory_usage_bytes : Z;
  memory_usage_percent : string;
  storage_total_bytes : Z;
  storage_used_bytes : Z;
  storage_usage_percent : string;
  uid_name_map : gmap string string;
  processes : list ProcessData;
}.

(** [Number.isFinite(x) ? x.toFixed(2) : "0.00"] *)
Definition formatPercent (x : number) : string :=
  if Num.isFinite x then Num.toFixed2 x else "0.00".

(** [x != null && isFinite(x) ? x.toFixed(2) : null] *)
Definition formatOptional (x : option Q) : option string :=
  (fun q => Num.toFixed2 (Finite q)) <$> x.

Definition processData (s : Sample) : ProcessData :=
  {| p_pid := pid s; p_uid := uid s; p_ppid := ppid s; p_command := command s;
     p_cpu_usage_percent := formatOptional (cpu_percent s);
     p_memory_usage_bytes := mem_bytes s;
     p_memory_usage_percent := formatOptional (mem_percent s) |}.

Definition toData (h : Host) (m : Measured) : Data :=
  {| timestamp := m_now m;
     cpu_limit := m_cpuLimit m;
     cpu_usage_percent := formatPercent (m_cpuUsagePercent m);
     memory_limit_bytes := m_memLimit m;
     memory_usage_bytes := m_memUsage m;
     memory_usage_percent := formatPercent (Finite (m_memPercent m));
     storage_total_bytes := m_storageTotal m;
     storage_used_bytes := m_storageUsed m;
     storage_usage_percent := formatPercent (Finite (m_storagePercent m));
     uid_name_map := mapUidNames h (list_to_set (omap uid (m_processes m)));
     processes := processData <$> m_processes m |}.

Record CronState := {
  sampler : SamplerState;
  lastNotificationTime : Cooldown;
}.

Definition startState : CronState :=
  {| sampler := initialState; lastNotificationTime := noNotification |}.

(** What a cycle leaves behind: the snapshot stored, if one was, and
    the notifications requested. *)
Record Cycle := {
  c_state : CronState;
  c_stored : option Data;
  c_notified : list Notification;
}.

Definition collectMetrics (h : Host) (e : Env) (st : CronState) : Cycle :=
  match measure h e (sampler st) with
  | (s', None) =>
      {| c_state := {| sampler := s'; lastNotificationTime := lastNotificationTime st |};
         c_stored := None; c_notified := [] |}
  | (s', Some m) =>
      if redisStores h then
        let '(cd, ns) :=
          checkThresholds (thresholds h) (dateNowCheck h)
            (m_cpuUsagePercent m) (Finite (m_memPercent m)) (Finite (m_storagePercent m))
            (lastNotificationTime st) in
        {| c_state := {| sampler := s'; lastNotificationTime := cd |};
           c_stored := Some (toData h m); c_notified := ns |}
      else
        {| c_state := {| sampler := s'; lastNotificationTime := lastNotificationTime st |};
           c_stored := None; c_notified := [] |}
  end.

(** ** One webhook execution ([executeWebhook] of lib/webhook.ts) *)

Inductive Method := GET | POST | PUT | PATCH.

Record WebhookConfig := {
  w_id : string;
  w_name : string;
  w_url : string;
  w_method : Method;
  w_headers : gmap string string;
  w_body : string;
  w_enabled : bool;
}.

(** How [await fetch(url, options)] ends: with a response, whatever its
    status, or with an exception (time-out of the abort signal, name
    resolution, refused connection, malformed URL). *)
Inductive FetchResult :=
  | Responded (status : Z)
  | Rejected (message : string).

(** [response.ok] *)
Definition ok (status : Z) : bool := (200 <=? status) && (status <=? 299).

Record WebhookHistoryEntry := {
  e_id : string;
  e_timestamp : Z;
  e_webhookName : string;
  e_webhookUrl : string;
  e_method : Method;
  e_statusCode : option Z;
  e_success : bool;
  e_error : option string;
  e_reason : string;
  e_responseTime : Z;
}.

(** The readings of the clock and of the random source in one call:
    [startTime], [Date.now()] after the fetch, and the entry's id. *)
Record Readings := {
  r_startTime : Z;
  r_endTime : Z;
  r_entryTime : Z;
  r_id : string;
}.

(** The entry [executeWebhook] hands to [addWebhookHistory].  The
    request itself (template, headers, body) only decides what is
    sent; the entry depends on how the fetch ends. *)
Definition executeWebhook (config : WebhookConfig) (reason : string)
    (r : Readings) (result : FetchResult) : WebhookHistoryEntry :=
  match result with
  | Responded status =>
      {| e_id := r_id r; e_timestamp := r_entryTime r;
         e_webhookName := w_name config; e_webhookUrl := w_url config;
         e_method := w_method config;
         e_statusCode := Some status;
         e_success := ok status;
         e_error := None;
         e_reason := reason;
         e_responseTime := r_endTime r - r_startTime r |}
  | Rejected message =>
      {| e_id := r_id r; e_timestamp := r_entryTime r;
         e_webhookName := w_name config; e_webhookUrl := w_url config;
         e_method := w_method config;
         e_statusCode := None;
         e_success := false;
         e_error := Some message;
         e_reason := reason;
         e_responseTime := r_endTime r - r_startTime r |}
  end.

Definition MAX_HISTORY_ENTRIES : nat := 100.

(** [addWebhookHistory]: newest first, at most 100 kept; a failure of
    the store is logged and leaves the history as it was. *)
Definition addWebhookHistory (storeOk : bool) (entry : WebhookHistoryEntry)
    (history : list WebhookHistoryEntry) : list WebhookHistoryEntry :=
  if storeOk then take MAX_HISTORY_ENTRIES (entry :: history) else history.

(** ** The listing the written specification describes

    For comparison with [listProcessSamples]: every surviving process is
    sampled, the whole list is sorted, and only then is it cut to
    [PROC_MAX] entries. *)

Section SpecListing.

Context (h : Host) (allowedUids : option (gset Z)).
Context (clk pageSize : positive).
Context (now : Z) (cpuLimit : Q) (memLimitBytes : Z).

(** The loop of [sampleLoop] without its [break]. *)
Fixpoint sampleAll (pids : list Z) (prev : gmap Z ProcTime) (samples : list Sample)
    : gmap Z ProcTime * list Sample :=
  match pids with
  | [] => (prev, samples)
  | p :: rest =>
      match samplePid h allowedUids clk pageSize now cpuLimit memLimitBytes p prev with
      | None => sampleAll rest prev samples
      | Some (prev', s) => sampleAll rest prev' (samples ++ [s])%list
      end
  end.

End SpecListing.

(** The samples of all surviving processes of a listing. *)
Definition fullSampleList (h : Host) (e : Env) (st : SamplerState)
    (now : Z) (cpuLimit : Q) (memLimitBytes : Z) : list Sample :=
  snd (sampleAll h (buildAllowedUidSet e (getuid h)) (CLK_TCK st) (PAGE_SIZE st)
         now cpuLimit memLimitBytes (listPids h) (prevProcTimes st) []).

(** "Sort by (cpuPercent desc, memoryBytes desc); truncate to PROC_MAX." *)
Definition specProcessList (h : Host) (e : Env) (st : SamplerState)
    (now : Z) (cpuLimit : Q) (memLimitBytes : Z) : list Sample :=
  take (Z.to_nat (PROC_MAX e)) (sortSamples (fullSampleList h e st now cpuLimit memLimitBytes)).

(** ** Notions used in the statements *)

Definition lastOf (r : Resource) (cd : Cooldown) : option Z :=
  match r with
  | Cpu => last_cpu cd
  | Memory => last_memory cd
  | Storage => last_storage cd
  end.

Definition thresholdOf (r : Resource) (s : ThresholdSettings) : Q :=
  match r with
  | Cpu => th_cpu s
  | Memory => th_memory s
  | Storage => th_storage s
  end.

Definition sameResource (a b : Resource) : bool :=
  match a, b with
  | Cpu, Cpu | Memory, Memory | Storage, Storage => true
  | _, _ => false
  end.

(** Whether a notification for [r] is among those requested. *)
Definition notifies (r : Resource) (ns : list Notification) : bool :=
  existsb (fun n => sameResource (n_resource n) r) ns.

(** The condition under which a resource at or above its threshold is
    notified: the cool-down has elapsed since its last notification
    (since the epoch when there was none). *)
Definition due (value : number) (threshold : Q) (now : Z) (last : option Z) : bool :=
  Num.geb value (Finite threshold) && (NOTIFICATION_COOLDOWN <=? now - default 0 last).

Definition cpuKey (s : Sample) : Q := default 0%Q (cpu_percent s).

(** [a] is not behind [b]: more CPU, or as much CPU and at least as
    much memory; a missing CPU share counts as 0. *)
Definition notBehind (a b : Sample) : Prop :=
  (cpuKey b < cpuKey a)%Q \/ ((cpuKey b == cpuKey a)%Q /\ mem_bytes b <= mem_bytes a).

Definition sortedSamples (l : list Sample) : Prop := StronglySorted notBehind l.

(** Wall-clock seconds since the previous sample of the process. *)
Definition deltaSeconds (now : Z) (p : ProcTime) : Q := (inject_Z (now - ts p) / 1000)%Q.

(** The formula as the specification writes it:
    clamp((deltaTicks / CLK_TCK / deltaSeconds) * 100 / max(cpuLimitCores, ε), 0, 100) *)
Definition specCpuPercent (clk : positive) (cpuLimitCores : Q) (deltaTicks : Z)
    (deltaSec : Q) : Q :=
  Qmin 100 (Qmax 0
    ((inject_Z deltaTicks / inject_Z (Z.pos clk) / deltaSec) * 100
     / Qmax cpuLimitCores EPSILON))%Q.

(** ** Hosts, settings and states to run the model on *)

Definition envOf (mode uids : option string) (max : option string) : Env :=
  {| env_PROC_MAX := max; env_PROC_MODE := mode; env_PROC_UIDS := uids |}.

Definition noEnv : Env :=
  {| env_PROC_MAX := None; env_PROC_MODE := None; env_PROC_UIDS := None |}.

Definition oneProcessEnv : Env :=
  {| env_PROC_MAX := Some "1"; env_PROC_MODE := None; env_PROC_UIDS := None |}.

Definition lines (ls : list string) : string :=
  foldr (fun l acc => l +:+ String "010" acc) "" ls.

Definition lookupFile (files : list (string * string)) (path : string) : option string :=
  snd <$> List.find (fun kv => String.eqb (fst kv) path) files.

Definition defaultThresholds : ThresholdSettings :=
  {| th_cpu := 80; th_memory := 80; th_storage := 80; th_enabled := false |}.

Definition sampleThresholds : ThresholdSettings :=
  {| th_cpu := 80; th_memory := 80; th_storage := 80; th_enabled := true |}.

Definition procListing : list Dirent :=
  [ {| d_name := "1"; d_isDirectory := true |};
    {| d_name := "self"; d_isDirectory := true |};
    {| d_name := "42"; d_isDirectory := true |};
    {| d_name := "cpuinfo"; d_isDirectory := false |};
    {| d_name := "77"; d_isDirectory := true |} ].

Definition hostWith (files : list (string * string)) (now : Z) (ticks : Z -> Z)
    (rss : Z -> Z) : Host :=
  {| readFile := lookupFile files;
     cpus := 4;
     getconf := fun name => if String.eqb name "CLK_TCK" then Some (lines ["100"])
                            else Some (lines ["4096"]);
     getDf := fun path => if String.eqb path "/" then Some (1024000, 256000) else None;
     readdirProc := Some procListing;
     getPidUid := fun p => if p =? 1 then Some 0 else Some 1000;
     getPidCmdline := fun p => if p =? 1 then "/sbin/init" else "";
     getPidTimesAndPpid := fun p => Some (ticks p, if p =? 1 then 0 else 1);
     getPidRssBytes := fun _ p => rss p;
     mapUidNames := fun _ => ∅;
     getuid := Some 1000;
     dateNow := now;
     dateNowCheck := now + 3;
     redisConnects := true;
     redisStores := true;
     thresholds := defaultThresholds |}.

(** A machine without cgroup v2 and without any cgroup control file:
    only [/proc] is there. *)
Definition bareHost : Host :=
  hostWith
    [ ("/proc/mounts", lines ["proc /proc proc rw 0 0"; "sysfs /sys sysfs rw 0 0"]);
      ("/proc/meminfo", lines ["MemTotal:       16384 kB"; "MemFree:         1024 kB"]) ]
    1700000000000 (fun p => 10 * p) (fun p => 4096 * p).

(** A cgroup v2 container whose memory limit was lowered to 1 MiB while
    it holds 2.5 MiB. *)
Definition squeezedHost : Host :=
  hostWith
    [ ("/proc/mounts", lines ["cgroup2 /sys/fs/cgroup cgroup2 rw 0 0"]);
      ("/sys/fs/cgroup/cpu.max", lines ["max 100000"]);
      ("/sys/fs/cgroup/cpu.stat", lines ["usage_usec 2000000"; "user_usec 1500000"]);
      ("/sys/fs/cgroup/memory.max", lines ["1048576"]);
      ("/sys/fs/cgroup/memory.current", lines ["2621440"]) ]
    1700000000000 (fun p => 10 * p) (fun p => 4096 * p).

Definition warmState : SamplerState :=
  {| lastCpuUsageNs := Num.ofZ 2000000000;
     lastTsContainer := 1699999995000;
     prevProcTimes := {[ 42 := {| jiffies := 400; ts := 1699999995000 |} ]};
     CLK_TCK := 100; PAGE_SIZE := 4096 |}.

Definition sampleConfig : WebhookConfig :=
  {| w_id := "1"; w_name := "ops"; w_url := "http://hooks.example/alert";
     w_method := POST; w_headers := ∅; w_body := "{{message}}"; w_enabled := true |}.

Definition sampleReadings : Readings :=
  {| r_startTime := 1700000000000; r_endTime := 1700000000120;
     r_entryTime := 1700000000121; r_id := "1700000000121-k3x9q0abc" |}.

(** ** Successive threshold checks *)

(** The arguments of one call of [checkThresholds]: the settings it
    read, its clock reading and the three percentages. *)
Record Check := {
  k_settings : ThresholdSettings;
  k_now : Z;
  k_cpu : number;
  k_memory : number;
  k_storage : number;
}.

(** The calls of [checkThresholds] made one after the other on the
    shared [lastNotificationTime]; each notification is kept with the
    clock reading of its call. *)
Fixpoint runChecks (cs : list Check) (cd : Cooldown) : Cooldown * list (Z * Notification) :=
  match cs with
  | [] => (cd, [])
  | c :: rest =>
      let out := checkThresholds (k_settings c) (k_now c) (k_cpu c) (k_memory c)
                   (k_storage c) cd in
      let later := runChecks rest (fst out) in
      (fst later, ((fun n => (k_now c, n)) <$> snd out) ++ snd later)
  end.

(** The times at which a resource was notified. *)
Definition notificationTimes (r : Resource) (l : list (Z * Notification)) : list Z :=
  fst <$> List.filter (fun tn => sameResource (n_resource (snd tn)) r) l.

(** Neighbours of the list are at least [d] apart. *)
Fixpoint spaced (d : Z) (l : list Z) : Prop :=
  match l with
  | [] => True
  | t1 :: rest =>
      match rest with
      | [] => True
      | t2 :: _ => d <= t2 - t1
      end /\ spaced d rest
  end.

(** ** Notions about the per-process map *)

(** The map holds for the PID of [s] the ticks the host reports for it
    and the time [now]. *)
Definition recorded (h : Host) (now : Z) (prev : gmap Z ProcTime) (s : Sample) : Prop :=
  exists j pp, getPidTimesAndPpid h (pid s) = Some (j, pp) /\
               prev !! pid s = Some {| jiffies := j; ts := now |}.

(** The sample comes from a listed PID that the allow-list lets pass. *)
Definition admitted (h : Host) (allowedUids : option (gset Z)) (pids : list Z)
    (s : Sample) : Prop :=
  pid s ∈ pids /\ uid s = getPidUid h (pid s) /\ uidPasses allowedUids (uid s) = true.

(** The loop passes over the PID: its UID is kept out by the allow-list
    or its [stat] could not be read. *)
Definition skipped (h : Host) (allowedUids : option (gset Z)) (p : Z) : Prop :=
  uidPasses allowedUids (getPidUid h p) = false \/ getPidTimesAndPpid h p = None.

(** The same host with the store out of reach. *)
Definition unreachableStore (h : Host) : Host :=
  {| readFile := readFile h; cpus := cpus h; getconf := getconf h; getDf := getDf h;
     readdirProc := readdirProc h; getPidUid := getPidUid h;
     getPidCmdline := getPidCmdline h; getPidTimesAndPpid := getPidTimesAndPpid h;
     getPidRssBytes := getPidRssBytes h; mapUidNames := mapUidNames h;
     getuid := getuid h; dateNow := dateNow h; dateNowCheck := dateNowCheck h;
     redisConnects := false; redisStores := redisStores h; thresholds := thresholds h |}.

(** A cgroup v1 container with a quota of two cores, seen at a time
    and with a value of its cumulative CPU counter. *)
Definition twoCoreHost (now : Z) (usage : string) : Host :=
  hostWith
    [ ("/proc/mounts", lines ["cgroup /sys/fs/cgroup/cpu cgroup rw 0 0"]);
      ("/sys/fs/cgroup/cpu/cpu.cfs_quota_us", lines ["200000"]);
      ("/sys/fs/cgroup/cpu/cpu.cfs_period_us", lines ["100000"]);
      ("/sys/fs/cgroup/cpuacct/cpuacct.usage", lines [usage]) ]
    now (fun p => 10 * p) (fun p => 4096 * p).

(** ** More of JavaScript's strings *)

Module Text.

(** [s.lastIndexOf(c)] for one character; [None] is -1. *)
Fixpoint lastIndexOf (c : ascii) (s : string) : option nat :=
  match s with
  | EmptyString => None
  | String a s' =>
      match lastIndexOf c s' with
      | Some i => Some (S i)
      | None => if Ascii.eqb a c then Some 0%nat else None
      end
  end.

(** [s.slice(n)] for [n] not below zero: the string without its first
    [n] characters, empty when it has no more than [n]. *)
Fixpoint slice (n : nat) (s : string) : string :=
  match n, s with
  | O, _ => s
  | S n', String _ s' => slice n' s'
  | S _, EmptyString => EmptyString
  end.

(** [s.split(/\s+/)]: the parts between runs of white space; a run at
    either end leaves an empty part there.  [inRun] tells that the
    character before was white space. *)
Fixpoint splitSpaces (inRun : bool) (s : string) : list string :=
  match s with
  | EmptyString => [EmptyString]
  | String c s' =>
      if Js.isWhiteSpace c then
        if inRun then splitSpaces true s' else EmptyString :: splitSpaces true s'
      else
        match splitSpaces false s' with
        | [] => [String c EmptyString]
        | w :: ws => String c w :: ws
        end
  end.

(** [parts.join(sep)] *)
Fixpoint join (sep : string) (parts : list string) : string :=
  match parts with
  | [] => EmptyString
  | [p] => p
  | p :: rest => p +:+ sep +:+ join sep rest
  end.

Definition upperChar (c : ascii) : ascii :=
  let n := nat_of_ascii c in
  if (97 <=? n)%nat && (n <=? 122)%nat then ascii_of_nat (n - 32) else c.

Fixpoint toUpperCase (s : string) : string :=
  match s with
  | EmptyString => EmptyString
  | String c s' => String (upperChar c) (toUpperCase s')
  end.

(** [\w] *)
Definition isWordChar (c : ascii) : bool :=
  let n := nat_of_ascii c in
  ((48 <=? n)%nat && (n <=? 57)%nat) || ((65 <=? n)%nat && (n <=? 90)%nat) ||
  ((97 <=? n)%nat && (n <=? 122)%nat) || (n =? 95)%nat.

(** [parseInt(x, 10) || 0] and [parseInt(x) || 0]: NaN reads as 0. *)
Definition orZero (p : option Z) : Z := default 0 p.

End Text.

(** ** The readers of [/proc] and of [df] *)

(** [`/proc/${pid}/${name}`] *)
Definition procPath (p : Z) (name : string) : string :=
  "/proc/" +:+ pretty p +:+ "/" +:+ name.

Section ProcReaders.

(** [fs.readFile(path)]: the text of the file, [None] when the promise
    rejects. *)
Context (read : string -> option string).

Definition getPidCommFrom (p : Z) : string :=
  match read (procPath p "comm") with
  | Some s => Js.trim s
  | None => ""
  end.

(** The arguments of the process, which the kernel separates by NUL
    characters, joined by single spaces; the short name when the file
    is empty or cannot be read. *)
Definition getPidCmdlineFrom (p : Z) : string :=
  match read (procPath p "cmdline") with
  | Some buf =>
      if Js.isEmpty buf then getPidCommFrom p
      else Text.join " " (List.filter Js.truthy (Js.split "000" buf))
  | None => getPidCommFrom p
  end.

(** The ticks and the parent of a [stat] line: the fields are counted
    from the last closing parenthesis, which ends the command name. *)
Definition parseStat (stat : string) : option (Z * Z) :=
  match Text.lastIndexOf ")" stat with
  | None => None
  | Some rparen =>
      let after := Js.trim (Text.slice (rparen + 2) stat) in
      let parts := Text.splitSpaces false after in
      let ppid := Text.orZero (parseNth parts 1 (Some 10)) in
      let utime := Text.orZero (parseNth parts 11 (Some 10)) in
      let stime := Text.orZero (parseNth parts 12 (Some 10)) in
      Some (utime + stime, ppid)
  end.

Definition getPidTimesAndPpidFrom (p : Z) : option (Z * Z) :=
  match read (procPath p "stat") with
  | Some stat => parseStat stat
  | None => None
  end.

End ProcReaders.

(** [getDf], from the standard output of [df -k path]; [None] for the
    output is a rejected [exec]. *)
Definition parseDf (stdout : option string) : option (Z * Z) :=
  match stdout with
  | None => None
  | Some out =>
      let lines := Js.split "010" (Js.trim out) in
      if (length lines <? 2)%nat then None
      else
        let parts := Text.splitSpaces false (default "" (lines !! 1%nat)) in
        match parseNth parts 1 None, parseNth parts 2 None with
        | Some totalKB, Some usedKB => Some (totalKB * 1024, usedKB * 1024)
        | _, _ => None
        end
  end.

(** A first word followed by more words, each after its own run of
    separating characters. *)
Fixpoint spacedWords (w : string) (rest : list (string * string)) : string :=
  match rest with
  | [] => w
  | (sep, w') :: rest' => w +:+ sep +:+ spacedWords w' rest'
  end.

(** Every character of the string satisfies the test. *)
Fixpoint allChars (f : ascii -> bool) (s : string) : bool :=
  match s with
  | EmptyString => true
  | String c s' => f c && allChars f s'
  end.

(** A word: not empty, free of white space. *)
Definition isWord (w : string) : bool :=
  Js.truthy w && allChars (fun c => negb (Js.isWhiteSpace c)) w.

(** A separator within a line: not empty, white space only, no line
    feed. *)
Definition isGap (sep : string) : bool :=
  Js.truthy sep &&
  allChars (fun c => Js.isWhiteSpace c && negb (Ascii.eqb c "010")) sep.

(** The parts, each followed by the character [c]. *)
Definition terminated (c : ascii) (parts : list string) : string :=
  foldr (fun a acc => a +:+ String c acc) "" parts.

(** The character does not occur in the string. *)
Definition freeOf (c : ascii) (s : string) : bool :=
  allChars (fun a => negb (Ascii.eqb a c)) s.

(** Every further word is a word and comes after a run of white space
    that is not empty. *)
Definition wordsAndGaps (rest : list (string * string)) : Prop :=
  Forall (fun gw => allChars Js.isWhiteSpace (fst gw) = true /\ Js.truthy (fst gw) = true /\
                    isWord (snd gw) = true) rest.

(** ** Names for UIDs ([mapUidNames]) *)

(** What a line of [/etc/passwd] contributes: the number of its third
    field and the name of its first, unless the line is empty, is a
    comment, has fewer than three fields or no number there. *)
Definition passwdEntry (line : string) : option (Z * string) :=
  if Js.isEmpty line || Js.startsWith "#" line then None
  else
    let parts := Js.split ":" line in
    if (length parts <? 3)%nat then None
    else
      match parseNth parts 2 (Some 10) with
      | Some u => Some (u, default "" (parts !! 0%nat))
      | None => None
      end.

(** The first loop: a line whose UID is asked for sets the name of
    that UID, a later line overwriting an earlier one. *)
Definition namesFromPasswd (uids : list Z) (passwd : string) : gmap string string :=
  foldl (fun out line =>
           match passwdEntry line with
           | Some (u, name) =>
               if bool_decide (u ∈ uids) then <[ pretty u := name ]> out else out
           | None => out
           end)
        ∅ (Js.split "010" passwd).

(** The second loop: a UID without a name, or with an empty one, is
    named by its decimal digits. *)
Definition fillMissing (uids : list Z) (out : gmap string string) : gmap string string :=
  foldl (fun out u =>
           if Js.truthy (default "" (out !! pretty u)) then out
           else <[ pretty u := pretty u ]> out)
        out uids.

(** [passwd] is the text of [/etc/passwd], [None] when it cannot be
    read. *)
Definition mapUidNamesFrom (passwd : option string) (uids : list Z) : gmap string string :=
  fillMissing uids
    (match passwd with
     | Some text => namesFromPasswd uids text
     | None => ∅
     end).

(** Labels: the keys are decimal renderings of requested UIDs. *)
Definition labelsOf (uids : list Z) (out : gmap string string) : Prop :=
  forall k, is_Some (out !! k) -> k ∈ (pretty <$> uids).

(** A line of [/etc/passwd] as it is written: an account, with what
    follows the UID, or a line without one. *)
Inductive PasswdLine :=
  | Account (name password : string) (uid : Z) (rest : string)
  | Remark (text : string).

Definition writeLine (l : PasswdLine) : string :=
  match l with
  | Account name password uid rest =>
      name +:+ ":" +:+ password +:+ ":" +:+ pretty uid +:+ ":" +:+ rest
  | Remark text => text
  end.

(** The fields of an account hold no colon where one would split them
    and no line feed, its name does not begin a comment and its UID is
    not negative; a line without an account is empty or a comment. *)
Definition wellFormed (l : PasswdLine) : bool :=
  match l with
  | Account name password uid rest =>
      freeOf ":" name && freeOf "010" name && negb (Js.startsWith "#" name)
      && freeOf ":" password && freeOf "010" password
      && (0 <=? uid) && freeOf "010" rest
  | Remark text => freeOf "010" text && (Js.isEmpty text || Js.startsWith "#" text)
  end.

(** The name the file gives to a UID: that of its last account with
    this UID. *)
Fixpoint nameOf (u : Z) (ls : list PasswdLine) : option string :=
  match ls with
  | [] => None
  | l :: rest =>
      match nameOf u rest with
      | Some name => Some name
      | None =>
          match l with
          | Account name _ uid _ => if uid =? u then Some name else None
          | Remark _ => None
          end
      end
  end.

(** ** The body template of a webhook *)

(** A placeholder [{{key}}] at the head of the text: the key, made of
    one or more word characters, and the text after the closing
    braces. *)
Definition placeholderAt (s : string) : option (string * string) :=
  match dropPrefix "{{" s with
  | Some s' =>
      let key := takeWhile Text.isWordChar s' in
      match dropPrefix "}}" (dropWhile Text.isWordChar s') with
      | Some rest => if Js.truthy key then Some (key, rest) else None
      | None => None
      end
  | None => None
  end.

(** [body.replace(/\{\{(\w+)\}\}/g, (match, key) => ...)]: one pass
    from left to right.  [value key] is [String(payload[key])] when
    [key in payload], and a placeholder without a value stays as it
    is.  [skip] counts the characters still covered by the placeholder
    just replaced. *)
Fixpoint renderFrom (value : string -> option string) (skip : nat) (s : string) : string :=
  match s with
  | EmptyString => EmptyString
  | String c s' =>
      match skip with
      | S k => renderFrom value k s'
      | O =>
          match placeholderAt s with
          | Some (key, _) =>
              default ("{{" +:+ key +:+ "}}") (value key)
              +:+ renderFrom value (String.length key + 3) s'
          | None => String c (renderFrom value 0 s')
          end
      end
  end.

Definition render (value : string -> option string) (body : string) : string :=
  renderFrom value 0 body.

(** The text opens something that could be a placeholder: two braces
    and a word character. *)
Definition opensPlaceholder (s : string) : bool :=
  match dropPrefix "{{" s with
  | Some (String c _) => Text.isWordChar c
  | _ => false
  end.

(** No place of the text opens a placeholder. *)
Fixpoint quiet (s : string) : bool :=
  match s with
  | EmptyString => true
  | String _ s' => negb (opensPlaceholder s) && quiet s'
  end.

(** A key: one or more word characters. *)
Definition isKey (key : string) : bool :=
  Js.truthy key && allChars Text.isWordChar key.

(** ** The request of a webhook *)

Record Request := {
  q_url : string;
  q_method : Method;
  q_headers : gmap string string;
  q_body : option string;
}.

(** [['POST', 'PUT', 'PATCH'].includes(method)] *)
Definition allowsBody (m : Method) : bool :=
  match m with
  | GET => false
  | POST | PUT | PATCH => true
  end.

(** Lines 63 to 93 of lib/webhook.ts: what is handed to [fetch]. *)
Definition buildRequest (config : WebhookConfig) (value : string -> option string)
    : Request :=
  let body := render value (w_body config) in
  let carries := Js.truthy body && allowsBody (w_method config) in
  {| q_url := w_url config;
     q_method := w_method config;
     q_headers :=
       if carries then
         <[ "Content-Type" :=
              Js.orElse (default "" (w_headers config !! "Content-Type")) "application/json" ]>
           (w_headers config)
       else w_headers config;
     q_body := if carries then Some body else None |}.

(** ** Sending a notification ([sendWebhookNotification]) *)

Record AdminSettings := {
  s_thresholds : ThresholdSettings;
  s_webhooks : list WebhookConfig;
}.

Definition DEFAULT_SETTINGS : AdminSettings :=
  {| s_thresholds := {| th_cpu := 80; th_memory := 80; th_storage := 80;
                        th_enabled := false |};
     s_webhooks := [] |}.

(** [getAdminSettings]: [stored] is what [redis.get] resolves to,
    [None] when the store fails; [parse] is [JSON.parse], [None] when
    it throws.  Every failure gives the defaults. *)
Definition getAdminSettings (parse : string -> option AdminSettings)
    (stored : option (option string)) : AdminSettings :=
  match stored with
  | Some (Some data) =>
      if Js.truthy data then default DEFAULT_SETTINGS (parse data) else DEFAULT_SETTINGS
  | _ => DEFAULT_SETTINGS
  end.

Definition resourceName (r : Resource) : string :=
  match r with
  | Cpu => "cpu"
  | Memory => "memory"
  | Storage => "storage"
  end.

(** [x.toFixed(1)] of a rational that is not below zero, and of a
    number. *)
Definition fixed1 (q : Q) : string :=
  let n := Qfloor (q * 10 + (1 # 2))%Q in
  pretty (n / 10) +:+ "." +:+ pretty (n mod 10).

Definition toFixed1 (x : number) : string :=
  match x with
  | Finite q => if Qle_bool 0 q then fixed1 q else "-" +:+ fixed1 (- q)
  | PosInfinity => "Infinity"
  | NegInfinity => "-Infinity"
  | NaN => "NaN"
  end.

(** The reason handed to [executeWebhook]:
    [`${resource.toUpperCase()} threshold exceeded: ${currentValue.toFixed(1)}%`] *)
Definition reasonOf (r : Resource) (currentValue : number) : string :=
  Text.toUpperCase (resourceName r) +:+ " threshold exceeded: "
  +:+ toFixed1 currentValue +:+ "%".

(** One call [executeWebhook(webhook, payload, reason)]; the payload
    only decides what is sent. *)
Record Execution := {
  x_config : WebhookConfig;
  x_reason : string;
}.

(** The executions that one notification starts: [map] starts one for
    each enabled webhook, in the order of the configuration, and
    [Promise.allSettled] waits for them all.  From its first [await]
    on each of them runs on its own. *)
Definition sendWebhookNotification (settings : AdminSettings) (r : Resource)
    (currentValue : number) : list Execution :=
  if negb (th_enabled (s_thresholds settings)) then []
  else
    (fun w => {| x_config := w; x_reason := reasonOf r currentValue |})
    <$> List.filter w_enabled (s_webhooks settings).

(** The entry that each execution hands to [addWebhookHistory] once its
    own request has ended.  [fetch i] and [readings i] say how the
    request of the [i]-th execution ends and what the clock shows
    around it. *)
Definition entriesOf (fetch : nat -> FetchResult) (readings : nat -> Readings)
    (started : list Execution) : list WebhookHistoryEntry :=
  imap (fun i x => executeWebhook (x_config x) (x_reason x) (readings i) (fetch i)) started.

(** Where an execution stands with the history: its [redis.get] is not
    answered yet, or it holds the history it read and has not written
    yet, or it has written. *)
Inductive Task :=
  | Pending (entry : WebhookHistoryEntry)
  | Holding (entry : WebhookHistoryEntry) (read : list WebhookHistoryEntry)
  | Written.

(** What the store does next: it answers the [redis.get] of the [i]-th
    execution, or carries out its [redis.set]. *)
Inductive Event :=
  | Reads (i : nat)
  | Writes (i : nat).

(** Lines 243 to 255 of lib/admin-settings.ts, as a store that can be
    reached sees them: what an execution writes is made from what it
    read, whatever the store holds by then.  An event that the
    execution named is not ready for changes nothing, so that a list of
    events stands for any order in which every execution reads before
    it writes. *)
Definition historyStep (state : list WebhookHistoryEntry * list Task) (ev : Event)
    : list WebhookHistoryEntry * list Task :=
  match ev with
  | Reads i =>
      match snd state !! i with
      | Some (Pending entry) => (fst state, <[ i := Holding entry (fst state) ]> (snd state))
      | _ => state
      end
  | Writes i =>
      match snd state !! i with
      | Some (Holding entry read) =>
          (addWebhookHistory true entry read, <[ i := Written ]> (snd state))
      | _ => state
      end
  end.

(** The history and the executions after the events, from the history
    [stored] and executions that have their entries ready. *)
Definition runHistory (events : list Event) (stored : list WebhookHistoryEntry)
    (entries : list WebhookHistoryEntry) : list WebhookHistoryEntry * list Task :=
  foldl historyStep (stored, Pending <$> entries) events.

(** The executions reach the store one after the other, in the order
    given. *)
Definition oneAfterTheOther (order : list nat) : list Event :=
  order ≫= (fun i => [Reads i; Writes i]).

(** The entries of the executions named, in the order given. *)
Definition pick (entries : list WebhookHistoryEntry) (order : list nat)
    : list WebhookHistoryEntry :=
  omap (fun i => entries !! i) order.

Section HistoryNotions.

Context (stored entries : list WebhookHistoryEntry).

(** An entry that the history held or that the notification made. *)
Definition known (e : WebhookHistoryEntry) : Prop := e ∈ stored \/ e ∈ entries.

(** What holds of the history and the executions whatever the events:
    nothing is made up, and once an execution has written, the history
    begins with an entry of the notification and is cut to length. *)
Definition sound (state : list WebhookHistoryEntry * list Task) : Prop :=
  length (snd state) = length entries /\
  Forall known (fst state) /\
  Forall (fun t => match t with
                   | Pending e => e ∈ entries
                   | Holding e read => e ∈ entries /\ Forall known read
                   | Written => True
                   end) (snd state) /\
  ((fst state = stored /\ Forall (fun t => t <> Written) (snd state)) \/
   ((length (fst state) <= MAX_HISTORY_ENTRIES)%nat /\
    exists e, e ∈ entries /\ head (fst state) = Some e)).

End HistoryNotions.

(** What an entry tells of its webhook. *)
Definition targetOf (e : WebhookHistoryEntry) : string * string * Method :=
  (e_webhookName e, e_webhookUrl e, e_method e).

(** ** The manual test of a webhook (app/api/admin/webhook/test/route.ts) *)

Record TestResult := {
  t_success : bool;
  t_statusCode : option Z;
  t_error : option string;
  t_responseTime : Z;
}.

(** [executeWebhook] of the test route *)
Definition executeTest (r : Readings) (result : FetchResult) : TestResult :=
  match result with
  | Responded status =>
      {| t_success := ok status; t_statusCode := Some status; t_error := None;
         t_responseTime := r_endTime r - r_startTime r |}
  | Rejected message =>
      {| t_success := false; t_statusCode := None; t_error := Some message;
         t_responseTime := r_endTime r - r_startTime r |}
  end.

(** [validateSession]: whether the store holds the session; false when
    the store fails ([sessions] is [None]). *)
Definition validateSession (sessions : option (gset string)) (token : string) : bool :=
  match sessions with
  | Some held => bool_decide (token ∈ held)
  | None => false
  end.

(** What the handler answers and leaves behind. *)
Record TestResponse := {
  a_status : Z;
  a_result : option TestResult;
  a_history : list WebhookHistoryEntry;
}.

(** The [POST] handler.  [authorization] is the header of that name;
    [config] is the parsed body of the request, [None] when
    [req.json()] rejects; [r_id] holds the digits of the clock reading
    that the id of the entry is made of. *)
Definition postTest (authorization : option string) (sessions : option (gset string))
    (config : option WebhookConfig) (r : Readings) (result : FetchResult)
    (storeOk : bool) (history : list WebhookHistoryEntry) : TestResponse :=
  let authHeader := default "" authorization in
  if negb (Js.truthy authHeader) || negb (Js.startsWith "Bearer " authHeader) then
    {| a_status := 401; a_result := None; a_history := history |}
  else
    let token := Text.slice 7 authHeader in
    if negb (validateSession sessions token) then
      {| a_status := 401; a_result := None; a_history := history |}
    else
      match config with
      | None => {| a_status := 500; a_result := None; a_history := history |}
      | Some webhookConfig =>
          let res := executeTest r result in
          let entry :=
            {| e_id := "test-" +:+ r_id r;
               e_timestamp := r_entryTime r;
               e_webhookName := w_name webhookConfig;
               e_webhookUrl := w_url webhookConfig;
               e_method := w_method webhookConfig;
               e_statusCode := t_statusCode res;
               e_success := t_success res;
               e_error := t_error res;
               e_reason := "Manual test from admin panel";
               e_responseTime := t_responseTime res |} in
          {| a_status := 200; a_result := Some res;
             a_history := addWebhookHistory storeOk entry history |}
      end.

(** The double quote, and a payload that only knows its message. *)
Definition dq : string := String "034" "".

Definition messageOnly (key : string) : option string :=
  if String.eqb key "message"
  then Some "CPU usage (85.0%) has exceeded the threshold of 80%"
  else None.

(** The history after the entries [es] were added one after the other,
    every write succeeding. *)
Definition addAll (es : list WebhookHistoryEntry) (history : list WebhookHistoryEntry)
    : list WebhookHistoryEntry :=
  foldl (fun h e => addWebhookHistory true e h) history es.

(** ** The snapshots served (app/api/metrics/route.ts) *)

Definition DEFAULT_LIMIT : Z := 200.

(** [parseInt(param || "") || d]: a missing parameter, one that is not
    a number, and 0 give [d]. *)
Definition parseOr (param : option string) (d : Z) : Z :=
  match Js.parseInt (default "" param) None with
  | Some n => if n =? 0 then d else n
  | None => d
  end.

(** [Math.max(1, Math.min(parseInt(limit || "") || DEFAULT_LIMIT, 2000))] *)
Definition limitOf (param : option string) : Z :=
  Z.max 1 (Z.min (parseOr param DEFAULT_LIMIT) 2000).

Definition sinceOf (param : option string) : Z := parseOr param 0.

(** A stable sort by insertion, for a comparator that says whether its
    first argument may stay in front of the second. *)
Fixpoint insertBy {A : Type} (le : A -> A -> bool) (x : A) (l : list A) : list A :=
  match l with
  | [] => [x]
  | y :: l' => if le x y then x :: y :: l' else y :: insertBy le x l'
  end.

Fixpoint sortBy {A : Type} (le : A -> A -> bool) (l : list A) : list A :=
  match l with
  | [] => []
  | x :: l' => insertBy le x (sortBy le l')
  end.

(** [l.slice(-n)] for [n] not below zero: the last [n] elements, and
    the whole list for 0. *)
Definition sliceLast {A : Type} (n : Z) (l : list A) : list A :=
  if n =? 0 then l else drop (length l - Z.to_nat n) l.

(** A key with the timestamp read from it. *)
Record Keyed := { y_k : string; y_ts : number }.

(** The comparator [(a, b) => a.ts - b.ts]: in order when the
    difference is not above zero; a difference that is not a number
    counts as zero. *)
Definition byTimestamp (a b : Keyed) : bool :=
  match Num.sub (y_ts a) (y_ts b) with
  | Finite d => Qle_bool d 0
  | NegInfinity | NaN => true
  | PosInfinity => false
  end.

Section Selection.

(** [Number(x)], for the part of a key after its first colon;
    [None] is [undefined]. *)
Context (toNumber : option string -> number).

Definition keyedOf (k : string) : Keyed :=
  {| y_k := k; y_ts := toNumber (Js.split ":" k !! 1%nat) |}.

(** [Number.isFinite(x.ts) && x.ts >= since] *)
Definition recentEnough (since : Z) (x : Keyed) : bool :=
  Num.isFinite (y_ts x) && Num.geb (y_ts x) (Num.ofZ since).

(** The keys whose values the handler reads: those with a finite
    timestamp not before [since], in ascending order of timestamp, the
    last [limit] of them. *)
Definition selectKeys (keys : list string) (since limit : Z) : list Keyed :=
  let keyed := sortBy byTimestamp (List.filter (recentEnough since) (keyedOf <$> keys)) in
  sliceLast limit keyed.

End Selection.

(** The timestamp of a key as a rational, 0 when it is not finite. *)
Definition tsOf (x : Keyed) : Q :=
  match y_ts x with
  | Finite q => q
  | _ => 0%Q
  end.

(** ** The listing of PIDs *)

(** A directory of [/proc] named by the decimal digits of [p]. *)
Definition pidEntry (p : Z) : Dirent := {| d_name := pretty p; d_isDirectory := true |}.

(** An entry that the listing passes over: not a directory, or named
    by something else than digits. *)
Definition notAPid (e : Dirent) : bool :=
  negb (d_isDirectory e && isPidName (d_name e)).

(** A listing of [/proc] given by its items: a PID stands for the
    directory named by its digits, anything else stands for itself. *)
Definition listingOf (items : list (Z + Dirent)) : list Dirent :=
  (fun i => match i with inl p => pidEntry p | inr e => e end) <$> items.

Definition pidsOf (items : list (Z + Dirent)) : list Z :=
  omap (fun i => match i with inl p => Some p | inr _ => None end) items.

(** A host that differs only in the listing of [/proc]. *)
Definition withListing (h : Host) (listing : option (list Dirent)) : Host :=
  {| readFile := readFile h; cpus := cpus h; getconf := getconf h; getDf := getDf h;
     readdirProc := listing; getPidUid := getPidUid h;
     getPidCmdline := getPidCmdline h; getPidTimesAndPpid := getPidTimesAndPpid h;
     getPidRssBytes := getPidRssBytes h; mapUidNames := mapUidNames h;
     getuid := getuid h; dateNow := dateNow h; dateNowCheck := dateNowCheck h;
     redisConnects := redisConnects h; redisStores := redisStores h;
     thresholds := thresholds h |}.

(** A stand-in for [Number] that reads decimal digits only. *)
Definition digitsNumber (x : option string) : number :=
  match x with
  | Some s => Num.ofParsed (Js.parseInt10 s)
  | None => NaN
  end.

(** ** The [status] file of a process *)

(** [/key\s+(\d+)/] tried at the head of the text: the digits, and the
    text after them. *)
Definition keySpaceDigitsAt (key s : string) : option (string * string) :=
  match dropPrefix key s with
  | Some rest =>
      let afterGap := dropWhile Js.isWhiteSpace rest in
      let digits := takeWhile Js.isDigit afterGap in
      if Js.truthy (takeWhile Js.isWhiteSpace rest) && Js.truthy digits
      then Some (digits, dropWhile Js.isDigit afterGap)
      else None
  | None => None
  end.

(** The characters after which [^] matches under the [m] flag. *)
Definition isLineEnd (c : ascii) : bool := Ascii.eqb c "010" || Ascii.eqb c "013".

(** The first match of a pattern anchored by [^] under the [m] flag:
    the pattern is tried at the start of the text and after every line
    end.  [atStart] tells that the place is such a start. *)
Fixpoint execAtLineStarts {A : Type} (pattern : string -> option A) (atStart : bool)
    (s : string) : option A :=
  match s with
  | EmptyString => None
  | String c s' =>
      match (if atStart then pattern s else None) with
      | Some r => Some r
      | None => execAtLineStarts pattern (isLineEnd c) s'
      end
  end.

(** [/^VmRSS:\s+(\d+)\s+kB/m] at the head of the text *)
Definition vmRssAt (s : string) : option string :=
  match keySpaceDigitsAt "VmRSS:" s with
  | Some (digits, rest) =>
      if Js.truthy (takeWhile Js.isWhiteSpace rest)
         && Js.startsWith "kB" (dropWhile Js.isWhiteSpace rest)
      then Some digits else None
  | None => None
  end.

Section StatusReaders.

Context (read : string -> option string).

(** [getPidUid]: the first number of the [Uid:] line. *)
Definition getPidUidFrom (p : Z) : option Z :=
  match read (procPath p "status") with
  | Some s =>
      match execAtLineStarts (keySpaceDigitsAt "Uid:") true s with
      | Some (digits, _) => Js.parseInt10 digits
      | None => None
      end
  | None => None
  end.

(** [getPidRssBytes]: the kilobytes of the [VmRSS:] line, or else the
    resident pages of [statm]; 0 when [status] cannot be read. *)
Definition getPidRssBytesFrom (pageSize : positive) (p : Z) : Z :=
  match read (procPath p "status") with
  | None => 0
  | Some s =>
      match execAtLineStarts vmRssAt true s with
      | Some digits => Text.orZero (Js.parseInt10 digits) * 1024
      | None =>
          let statm := default "" (read (procPath p "statm")) in
          if Js.truthy statm then
            match parseNth (Text.splitSpaces false (Js.trim statm)) 1 (Some 10) with
            | Some resident => resident * Z.pos pageSize
            | None => 0
            end
          else 0
      end
  end.

End StatusReaders.

(** A line that holds no line end and does not begin with [key]. *)
Definition otherLine (key : string) (l : string) : bool :=
  allChars (fun c => negb (isLineEnd c)) l && negb (Js.startsWith key l).

(** One or more decimal digits. *)
Definition isDigits (s : string) : bool := Js.truthy s && allChars Js.isDigit s.

(** Not empty, white space only. *)
Definition isSpaceRun (s : string) : bool := Js.truthy s && allChars Js.isWhiteSpace s.

(** ** The extent of the stored snapshots (lib/admin-settings.ts) *)

Record MetricsInfo := {
  i_count : Z;
  i_estimatedSize : Z;
  i_oldestTimestamp : Z;
  i_newestTimestamp : Z;
}.

Definition noMetricsInfo : MetricsInfo :=
  {| i_count := 0; i_estimatedSize := 0; i_oldestTimestamp := 0; i_newestTimestamp := 0 |}.

(** [parseInt(k.split(':')[1])] *)
Definition keyTimestamp (k : string) : option Z :=
  match Js.split ":" k !! 1%nat with
  | Some part => Js.parseInt part None
  | None => None
  end.

(** [keys.map(...).filter(t => !isNaN(t)).sort((a, b) => a - b)] *)
Definition timestampsOf (keys : list string) : list Z :=
  sortBy Z.leb (omap keyTimestamp keys).

(** [getMetricsInfo].  [keys] is the answer of [redis.keys('metrics:*')],
    [None] when the store cannot be reached.  [estimate] stands for the
    size estimate, which reads the values of up to ten keys and rounds
    a floating-point average; it gives [None] when one of these reads
    fails. *)
Definition getMetricsInfo (keys : option (list string))
    (estimate : list string -> option Z) : MetricsInfo :=
  match keys with
  | None => noMetricsInfo
  | Some [] => noMetricsInfo
  | Some ks =>
      match estimate ks with
      | None => noMetricsInfo
      | Some estimatedSize =>
          let timestamps := timestampsOf ks in
          {| i_count := Z.of_nat (length ks);
             i_estimatedSize := estimatedSize;
             i_oldestTimestamp := default 0 (head timestamps);
             i_newestTimestamp := default 0 (last timestamps) |}
      end
  end.

(** * Properties *)

(** ** The UID allow-list *)

Lemma list_to_set_size_0 (l : list Z) :
  size (list_to_set l : gset Z) = 0%nat <-> l = [].
Proof.
  split.
  - intros Hs. apply size_empty_inv in Hs.
    destruct l as [|x l]; [done|].
    exfalso. set_solver.
  - intros ->. done.
Qed.

Lemma buildAllowedUidSet_explicit (e : Env) (getuid : option Z) (uids : string) :
  ENV_PROC_UIDS e = Some uids ->
  Js.truthy uids = true ->
  buildAllowedUidSet e getuid =
    Some (match parseUidList uids with
          | [] => {[ default 0 getuid ]}
          | _ => list_to_set (parseUidList uids)
          end).
Proof.
  intros Hu Ht. unfold buildAllowedUidSet. rewrite Hu. simpl default. rewrite Ht. f_equal.
  case_decide as Hs.
  - apply list_to_set_size_0 in Hs. by rewrite Hs.
  - destruct (parseUidList uids) eqn:E; [|done].
    exfalso. apply Hs. done.
Qed.

Lemma gset_eq_by_elements (a b : gset Z) :
  (forall x, x ∈ a <-> x ∈ b) -> a = b.
Proof. intros H. apply set_eq. exact H. Qed.

(** C9. The allow-list is a function of the mode, the explicit list and
    the caller's UID alone: an explicit list gives the set of the
    numbers it holds, or the caller's UID alone when it holds none;
    mode [user+root] with UID 1000 gives {0, 1000}; the list "5, 7,7"
    gives {5, 7}; mode [all] gives no filter, and every process
    passes. *)
Theorem buildAllowedUidSet_policy :
  (forall e1 e2 getuid,
      env_PROC_MODE e1 = env_PROC_MODE e2 ->
      env_PROC_UIDS e1 = env_PROC_UIDS e2 ->
      buildAllowedUidSet e1 getuid = buildAllowedUidSet e2 getuid) /\
  (forall e getuid uids,
      ENV_PROC_UIDS e = Some uids -> Js.truthy uids = true ->
      buildAllowedUidSet e getuid =
        Some (match parseUidList uids with
              | [] => {[ default 0 getuid ]}
              | _ => list_to_set (parseUidList uids)
              end)) /\
  (forall max,
      buildAllowedUidSet (envOf (Some "user+root") None max) (Some 1000)
      = Some ({[ 0 ]} ∪ {[ 1000 ]})) /\
  (forall max mode getuid,
      buildAllowedUidSet (envOf mode (Some "5, 7,7") max) getuid
      = Some ({[ 5 ]} ∪ {[ 7 ]})) /\
  (forall max getuid,
      buildAllowedUidSet (envOf (Some "all") None max) getuid = None /\
      forall u, uidPasses (buildAllowedUidSet (envOf (Some "all") None max) getuid) u = true).
Proof.
  split; [|split; [|split; [|split]]].
  - intros e1 e2 g Hm Hu. unfold buildAllowedUidSet, ENV_PROC_UIDS, ENV_PROC_MODE.
    by rewrite Hm, Hu.
  - apply buildAllowedUidSet_explicit.
  - intros max. unfold buildAllowedUidSet. simpl.
    f_equal; try (apply gset_eq_by_elements; set_solver).
  - intros max mode g.
    rewrite (buildAllowedUidSet_explicit _ g "5, 7,7") by reflexivity.
    change (parseUidList "5, 7,7") with [5; 7; 7].
    f_equal; try (apply gset_eq_by_elements; set_solver).
  - intros max g. split; [reflexivity|]. intros u. reflexivity.
Qed.

Lemma buildAllowedUidSet_policy_witness :
  buildAllowedUidSet (envOf (Some "user") (Some " 12 ,x, 0x1f") None) (Some 1000)
    = Some (list_to_set [12; 0]) /\
  buildAllowedUidSet (envOf None (Some ", ,") (Some "4")) (Some 1000)
    = buildAllowedUidSet (envOf None (Some ", ,") None) (Some 1000).
Proof.
  split.
  - exact (proj1 (proj2 buildAllowedUidSet_policy)
             (envOf (Some "user") (Some " 12 ,x, 0x1f") None) (Some 1000)
             "12 ,x, 0x1f" eq_refl eq_refl).
  - exact (proj1 buildAllowedUidSet_policy
             (envOf None (Some ", ,") (Some "4")) (envOf None (Some ", ,") None)
             (Some 1000) eq_refl eq_refl).
Defined.

(** ** Webhook executions *)

Lemma ok_range (status : Z) : ok status = true <-> 200 <= status <= 299.
Proof. unfold ok. rewrite andb_true_iff, !Z.leb_le. tauto. Qed.

(** C1, as the specification words it, fails: a response with status
    500 is an HTTP response, and its entry is a failure that carries
    the status code. *)
Lemma executeWebhook_server_error_is_failure :
  let entry := executeWebhook sampleConfig "CPU threshold exceeded: 85.0%"
                 sampleReadings (Responded 500) in
  (e_success entry = false /\ e_statusCode entry = Some 500) /\
  ~ (forall config reason r result,
        e_success (executeWebhook config reason r result) = true
        <-> exists status, result = Responded status).
Proof.
  split; [split; reflexivity|].
  intros H.
  destruct (H sampleConfig "" sampleReadings (Responded 500)) as [_ Hr].
  discriminate Hr. by exists 500.
Qed.

(** C1, amended.  The entry of an execution is a success exactly when
    a response arrived whose status is 200 to 299 ([response.ok]); any
    response is recorded with its status code; a fetch that ends in an
    exception is recorded as a failure with no status code and with the
    exception's message. *)
Theorem executeWebhook_success_iff_ok (config : WebhookConfig) (reason : string)
    (r : Readings) (result : FetchResult) :
  let entry := executeWebhook config reason r result in
  (e_success entry = true <->
     exists status, result = Responded status /\ 200 <= status <= 299) /\
  (forall status, result = Responded status -> e_statusCode entry = Some status) /\
  (forall message, result = Rejected message ->
     e_success entry = false /\ e_statusCode entry = None /\
     e_error entry = Some message).
Proof.
  destruct result as [status|message]; simpl.
  - split; [|split].
    + rewrite ok_range. split.
      * intros Hs. by exists status.
      * intros (s & [= <-] & Hs). exact Hs.
    + by intros s [= <-].
    + intros m [=].
  - split; [|split].
    + split; [discriminate|]. intros (s & [=] & _).
    + intros s [=].
    + by intros m [= <-].
Qed.

Lemma executeWebhook_success_iff_ok_witness :
  e_success (executeWebhook sampleConfig "test" sampleReadings (Responded 204)) = true /\
  e_statusCode (executeWebhook sampleConfig "test" sampleReadings (Responded 404)) = Some 404 /\
  e_statusCode (executeWebhook sampleConfig "test" sampleReadings (Rejected "fetch failed")) = None.
Proof.
  split; [|split].
  - apply (proj1 (executeWebhook_success_iff_ok sampleConfig "test" sampleReadings (Responded 204))).
    exists 204. split; [reflexivity|lia].
  - exact (proj1 (proj2 (executeWebhook_success_iff_ok sampleConfig "test" sampleReadings
                           (Responded 404))) 404 eq_refl).
  - exact (proj1 (proj2 (proj2 (proj2 (executeWebhook_success_iff_ok sampleConfig "test"
             sampleReadings (Rejected "fetch failed"))) "fetch failed" eq_refl))).
Defined.

(** Whatever the outcome, the entry is what the history receives. *)
Lemma addWebhookHistory_head (entry : WebhookHistoryEntry) history :
  head (addWebhookHistory true entry history) = Some entry.
Proof. reflexivity. Qed.

(** ** Threshold alerts *)

Lemma checkOne_due r value threshold now last :
  checkOne r value threshold now last
  = if due value threshold now last
    then (Some now, [ {| n_resource := r; n_value := value; n_threshold := threshold |} ])
    else (last, []).
Proof.
  unfold checkOne, due.
  destruct (Num.geb value (Finite threshold)); simpl; [|done].
  by destruct (NOTIFICATION_COOLDOWN <=? now - default 0 last).
Qed.

Lemma notifies_app r a b : notifies r (a ++ b) = notifies r a || notifies r b.
Proof. apply existsb_app. Qed.

Lemma checkThresholds_each (s : ThresholdSettings) now cpu memory storage cd r :
  th_enabled s = true ->
  let value := match r with Cpu => cpu | Memory => memory | Storage => storage end in
  let out := checkThresholds s now cpu memory storage cd in
  notifies r (snd out) = due value (thresholdOf r s) now (lastOf r cd) /\
  lastOf r (fst out) =
    if due value (thresholdOf r s) now (lastOf r cd) then Some now else lastOf r cd.
Proof.
  intros He. unfold checkThresholds. rewrite He. simpl negb. cbv iota.
  rewrite !checkOne_due.
  destruct r; simpl lastOf; simpl thresholdOf; cbv zeta;
    destruct (due cpu (th_cpu s) now (last_cpu cd)),
             (due memory (th_memory s) now (last_memory cd)),
             (due storage (th_storage s) now (last_storage cd)); simpl; auto.
Qed.

(** C5. With thresholds enabled, each resource is judged on its own: a
    notification is requested exactly when its percentage is at or
    above its threshold and at least five minutes lie between now and
    its last notification; then its timestamp becomes now, and otherwise
    nothing is requested and the timestamp stays.  With threshold 80
    and a clock that starts at [t0]: 85% at [t0] notifies, 90% one
    minute later does not, 90% six minutes after [t0] does. *)
Theorem checkThresholds_cooldown :
  (forall s now cpu memory storage cd r,
      th_enabled s = true ->
      let value := match r with Cpu => cpu | Memory => memory | Storage => storage end in
      let out := checkThresholds s now cpu memory storage cd in
      (notifies r (snd out) = true <->
         Num.geb value (Finite (thresholdOf r s)) = true /\
         NOTIFICATION_COOLDOWN <= now - default 0 (lastOf r cd)) /\
      lastOf r (fst out) = (if notifies r (snd out) then Some now else lastOf r cd)) /\
  (forall s t0 m1 s1 m2 s2 m3 s3,
      th_enabled s = true -> th_cpu s = 80%Q ->
      NOTIFICATION_COOLDOWN <= t0 ->
      let first := checkThresholds s t0 (Finite 85) m1 s1 noNotification in
      let second := checkThresholds s (t0 + 60 * 1000) (Finite 90) m2 s2 (fst first) in
      let third := checkThresholds s (t0 + 6 * 60 * 1000) (Finite 90) m3 s3 (fst second) in
      notifies Cpu (snd first) = true /\
      notifies Cpu (snd second) = false /\
      notifies Cpu (snd third) = true).
Proof.
  split.
  - intros s now cpu memory storage cd r He value out.
    destruct (checkThresholds_each s now cpu memory storage cd r He) as [Hn Hl].
    fold value in Hn, Hl. fold out in Hn, Hl.
    rewrite Hl, Hn. split; [|done].
    unfold due. rewrite andb_true_iff, Z.leb_le. tauto.
  - intros s t0 m1 s1 m2 s2 m3 s3 He Hc Ht first second third.
    destruct (checkThresholds_each s t0 (Finite 85) m1 s1 noNotification Cpu He) as [N1 L1].
    fold first in N1, L1.
    destruct (checkThresholds_each s (t0 + 60 * 1000) (Finite 90) m2 s2 (fst first) Cpu He)
      as [N2 L2].
    fold second in N2, L2.
    destruct (checkThresholds_each s (t0 + 6 * 60 * 1000) (Finite 90) m3 s3 (fst second) Cpu He)
      as [N3 L3].
    fold third in N3, L3.
    simpl thresholdOf in *. rewrite Hc in *.
    assert (D1 : due (Finite 85) 80 t0 (lastOf Cpu noNotification) = true).
    { unfold due. simpl. apply Z.leb_le. unfold NOTIFICATION_COOLDOWN in *. lia. }
    rewrite D1 in N1, L1.
    assert (D2 : due (Finite 90) 80 (t0 + 60 * 1000) (lastOf Cpu (fst first)) = false).
    { unfold due. rewrite L1. simpl. apply Z.leb_gt. unfold NOTIFICATION_COOLDOWN. lia. }
    rewrite D2 in N2, L2.
    assert (D3 : due (Finite 90) 80 (t0 + 6 * 60 * 1000) (lastOf Cpu (fst second)) = true).
    { unfold due. rewrite L2, L1. simpl. apply Z.leb_le. unfold NOTIFICATION_COOLDOWN. lia. }
    rewrite D3 in N3. auto.
Qed.

Lemma checkThresholds_cooldown_witness :
  let t0 := 1700000000000 in
  let first := checkThresholds sampleThresholds t0 (Finite 85) (Finite 10) (Finite 10)
                 noNotification in
  let second := checkThresholds sampleThresholds (t0 + 60 * 1000) (Finite 90) (Finite 10)
                  (Finite 10) (fst first) in
  let third := checkThresholds sampleThresholds (t0 + 6 * 60 * 1000) (Finite 90) (Finite 10)
                 (Finite 10) (fst second) in
  (notifies Cpu (snd first) = true /\
   notifies Cpu (snd second) = false /\
   notifies Cpu (snd third) = true) /\
  lastOf Memory (fst first) = None.
Proof.
  split.
  - apply (proj2 checkThresholds_cooldown sampleThresholds 1700000000000
             (Finite 10) (Finite 10) (Finite 10) (Finite 10) (Finite 10) (Finite 10)).
    + reflexivity.
    + reflexivity.
    + unfold NOTIFICATION_COOLDOWN. lia.
  - exact (proj2 (proj1 checkThresholds_cooldown sampleThresholds 1700000000000
             (Finite 85) (Finite 10) (Finite 10) noNotification Memory eq_refl)).
Defined.

(** ** Resource limits *)

Lemma quotaOverPeriod_fallback (h : Host) (quota period : option Z) :
  (forall q, quota = Some q -> q <= 0) ->
  quotaOverPeriod h quota period = inject_Z (cpus h).
Proof.
  intros Hq. unfold quotaOverPeriod.
  destruct quota as [q|]; [|done]. destruct period as [p|]; [|done].
  specialize (Hq q eq_refl). destruct (0 <? q) eqn:E; [|done].
  apply Z.ltb_lt in E. lia.
Qed.

(** The CPU limit falls back to the number of logical CPUs, in both
    layouts, when the quota is unreadable, not a number, or not above
    zero. *)
Lemma getCpuLimit_v1_fallback (h : Host) :
  (forall s q, readFile h "/sys/fs/cgroup/cpu/cpu.cfs_quota_us" = Some s ->
               Js.parseInt10 (Js.trim s) = Some q -> q <= 0) ->
  getCpuLimit h V1 = inject_Z (cpus h).
Proof.
  intros Hq. unfold getCpuLimit. apply quotaOverPeriod_fallback.
  intros q Hp. destruct (readFile h "/sys/fs/cgroup/cpu/cpu.cfs_quota_us") as [s|] eqn:E.
  - exact (Hq s q eq_refl Hp).
  - vm_compute in Hp. injection Hp as <-. lia.
Qed.

Lemma getCpuLimit_v2_absent (h : Host) :
  readFile h "/sys/fs/cgroup/cpu.max" = None ->
  getCpuLimit h V2 = inject_Z (cpus h).
Proof. intros E. unfold getCpuLimit. by rewrite E. Qed.

Lemma split_first_char (sep c : ascii) (s : string) :
  Ascii.eqb c sep = false ->
  exists t ws, Js.split sep (String c s) = String c t :: ws.
Proof.
  intros E. simpl. rewrite E.
  destruct (Js.split sep s) as [|w ws]; by do 2 eexists.
Qed.

Lemma getCpuLimit_v2_max (h : Host) (rest : string) :
  readFile h "/sys/fs/cgroup/cpu.max" = Some ("max" +:+ rest) ->
  getCpuLimit h V2 = inject_Z (cpus h).
Proof.
  intros E. unfold getCpuLimit. rewrite E. simpl default.
  change (Js.truthy ("max" +:+ rest)) with true. cbv iota.
  apply quotaOverPeriod_fallback. intros q Hq. exfalso.
  change (Js.trim ("max" +:+ rest))
    with (String "m" (Js.trimEnd (String "a" (String "x" rest)))) in Hq.
  destruct (split_first_char " " "m" (Js.trimEnd (String "a" (String "x" rest))) eq_refl)
    as (t & ws & Hs).
  rewrite Hs in Hq. discriminate Hq.
Qed.

(** The memory limit of the v2 layout falls back to the host's total
    memory when [memory.max] is absent or is not a number. *)
Lemma readMemory_v2_fallback (h : Host) (meminfo digits : string) :
  readNumber h "/sys/fs/cgroup/memory.max" <= 0 ->
  readFile h "/proc/meminfo" = Some meminfo ->
  execKeySpaceDigits "MemTotal:" meminfo = Some digits ->
  fst <$> readMemory h V2 = Some (default 0 (Js.parseInt digits None) * 1024).
Proof.
  intros Hl Hm Hd. unfold readMemory.
  apply Z.leb_le in Hl. rewrite Hl. simpl orb. cbv iota. by rewrite Hm, Hd.
Qed.

(** C4, at the input where the code departs from it.  On the bare host
    the layout detected is v1; the CPU limit falls back to the four
    logical CPUs; the memory limit is 0, not the 16384 kB of
    [/proc/meminfo] that the v2 branch would have substituted. *)
Theorem readMemory_v1_has_no_host_fallback :
  detectCgroupVersion bareHost = V1 /\
  getCpuLimit bareHost V1 = inject_Z 4 /\
  readMemory bareHost V1 = Some (0, 0) /\
  (forall h, readMemory h V1
             = Some (readNumber h "/sys/fs/cgroup/memory/memory.limit_in_bytes",
                     readNumber h "/sys/fs/cgroup/memory/memory.usage_in_bytes")) /\
  fst <$> readMemory
            (hostWith [("/proc/meminfo", lines ["MemTotal:       16384 kB"])] 0 id id) V2
    = Some (16384 * 1024).
Proof. repeat split. Qed.

(** ** The order of the process list *)

Lemma inOrder_spec (a b : Sample) : inOrder a b = true <-> notBehind a b.
Proof.
  unfold inOrder, compareSamples, notBehind. fold (cpuKey a) (cpuKey b).
  destruct (Qeq_bool (cpuKey b - cpuKey a) 0) eqn:E.
  - apply Qeq_bool_iff in E. rewrite Qle_bool_iff.
    change 0%Q with (inject_Z 0). rewrite <- Zle_Qle. split.
    + intros Hm. right. split; [lra|lia].
    + intros [Hlt|[_ Hm]]; [lra|lia].
  - apply Qeq_bool_neq in E. rewrite Qle_bool_iff. split.
    + intros Hd. left. apply Qle_lteq in Hd. destruct Hd as [Hd|Hd]; [lra|contradiction].
    + intros [Hlt|[He _]]; [lra|]. exfalso. apply E. lra.
Qed.

Lemma notBehind_total (a b : Sample) : notBehind a b \/ notBehind b a.
Proof.
  unfold notBehind.
  destruct (Qlt_le_dec (cpuKey b) (cpuKey a)) as [H|H]; [tauto|].
  apply Qle_lteq in H. destruct H as [H|H]; [tauto|].
  destruct (Z_le_gt_dec (mem_bytes b) (mem_bytes a)).
  - left. right. split; [by symmetry|lia].
  - right. right. split; [done|lia].
Qed.

Lemma notBehind_trans (a b c : Sample) : notBehind a b -> notBehind b c -> notBehind a c.
Proof.
  unfold notBehind. intros [H1|[H1 M1]] [H2|[H2 M2]].
  - left. lra.
  - left. lra.
  - left. lra.
  - right. split; [lra|lia].
Qed.

Lemma insertSorted_perm (x : Sample) (l : list Sample) : insertSorted x l ≡ₚ x :: l.
Proof.
  induction l as [|y l IH]; simpl; [done|].
  destruct (inOrder x y); [done|]. rewrite IH. apply Permutation_swap.
Qed.

Lemma sortSamples_perm (l : list Sample) : sortSamples l ≡ₚ l.
Proof.
  induction l as [|x l IH]; simpl; [done|].
  by rewrite insertSorted_perm, IH.
Qed.

Lemma insertSorted_sorted (x : Sample) (l : list Sample) :
  sortedSamples l -> sortedSamples (insertSorted x l).
Proof.
  unfold sortedSamples. induction 1 as [|y l Hl IH Hy]; simpl.
  - by repeat constructor.
  - destruct (inOrder x y) eqn:E.
    + apply inOrder_spec in E. constructor; [by constructor|].
      constructor; [done|].
      eapply Forall_impl; [exact Hy|]. intros z Hz. by eapply notBehind_trans.
    + constructor; [done|].
      rewrite insertSorted_perm. constructor; [|done].
      destruct (notBehind_total x y) as [H|H]; [|done].
      apply inOrder_spec in H. congruence.
Qed.

Lemma sortSamples_sorted (l : list Sample) : sortedSamples (sortSamples l).
Proof.
  induction l as [|x l IH]; simpl; [constructor|].
  by apply insertSorted_sorted.
Qed.

Lemma sortSamples_length (l : list Sample) : length (sortSamples l) = length l.
Proof. apply Permutation_length, sortSamples_perm. Qed.

Lemma elem_of_sortSamples (s : Sample) (l : list Sample) : s ∈ sortSamples l <-> s ∈ l.
Proof. by rewrite sortSamples_perm. Qed.

(** ** The sampling loop *)

Section LoopFacts.

Context (h : Host) (allowedUids : option (gset Z)).
Context (procMax : Z) (clk pageSize : positive).
Context (now : Z) (cpuLimit : Q) (memLimitBytes : Z).

Local Abbreviation step := (samplePid h allowedUids clk pageSize now cpuLimit memLimitBytes).
Local Abbreviation loop := (sampleLoop h allowedUids procMax clk pageSize now cpuLimit memLimitBytes).
Local Abbreviation loopAll := (sampleAll h allowedUids clk pageSize now cpuLimit memLimitBytes).

(** What a turn of the loop that pushes a sample is made of. *)
Lemma samplePid_Some (p : Z) (prev prev' : gmap Z ProcTime) (s : Sample) :
  step p prev = Some (prev', s) ->
  exists j pp,
    getPidTimesAndPpid h p = Some (j, pp) /\
    uidPasses allowedUids (getPidUid h p) = true /\
    prev' = <[ p := {| jiffies := j; ts := now |} ]> prev /\
    pid s = p /\ uid s = getPidUid h p /\ ppid s = pp /\
    cpu_percent s = cpuPct clk cpuLimit now j (prev !! p) /\
    mem_bytes s = getPidRssBytes h pageSize p /\
    mem_percent s = memPct memLimitBytes (getPidRssBytes h pageSize p).
Proof.
  unfold samplePid.
  destruct (uidPasses allowedUids (getPidUid h p)); [|done].
  destruct (getPidTimesAndPpid h p) as [[j pp]|]; [|done].
  intros [= <- <-]. exists j, pp. by repeat split.
Qed.

(** An invariant of the map and a property of the samples, kept by
    every turn, hold when the loop ends. *)
Lemma sampleLoop_invariant (I : gmap Z ProcTime -> Prop) (P : Sample -> Prop) :
  (forall p prev prev' s, I prev -> step p prev = Some (prev', s) -> I prev' /\ P s) ->
  forall pids prev acc,
    I prev -> Forall P acc ->
    I (fst (loop pids prev acc)) /\ Forall P (snd (loop pids prev acc)).
Proof.
  intros Hstep. induction pids as [|p pids IH]; intros prev acc HI HP; simpl; [done|].
  destruct (step p prev) as [[prev' s]|] eqn:E; [|by apply IH].
  destruct (Hstep _ _ _ _ HI E) as [HI' Hs].
  assert (Forall P (acc ++ [s])) by (apply Forall_app; split; [done|by constructor]).
  destruct (procMax <=? Z.of_nat (length (acc ++ [s]))); [done|by apply IH].
Qed.

(** The loop without the [break] only appends. *)
Lemma sampleAll_app (pids : list Z) (prev : gmap Z ProcTime) (acc : list Sample) :
  snd (loopAll pids prev acc) = (acc ++ snd (loopAll pids prev []))%list.
Proof.
  revert prev acc. induction pids as [|p pids IH]; intros prev acc; simpl.
  - by rewrite app_nil_r.
  - destruct (step p prev) as [[prev' s]|]; [|apply IH].
    rewrite (IH prev' (acc ++ [s])%list), (IH prev' [s]).
    by rewrite <- app_assoc.
Qed.

(** The loop with the [break] collects the first [procMax] samples of
    the loop without it. *)
Lemma sampleLoop_take (pids : list Z) (prev : gmap Z ProcTime) (acc : list Sample) :
  (length acc < Z.to_nat procMax)%nat ->
  snd (loop pids prev acc) = take (Z.to_nat procMax) (snd (loopAll pids prev acc)).
Proof.
  revert prev acc. induction pids as [|p pids IH]; intros prev acc Hlen; simpl.
  - rewrite take_ge; [done|lia].
  - destruct (step p prev) as [[prev' s]|] eqn:E; [|by apply IH].
    destruct (procMax <=? Z.of_nat (length (acc ++ [s]))) eqn:Hm.
    + apply Z.leb_le in Hm. rewrite sampleAll_app. simpl.
      assert (Hn : Z.to_nat procMax = length (acc ++ [s])).
      { rewrite length_app in *. simpl in *. lia. }
      rewrite Hn. by rewrite take_app_length.
    + apply Z.leb_gt in Hm. apply IH. rewrite length_app in *. simpl in *. lia.
Qed.

(** Every key of the map after the loop was there before or is one of
    the PIDs. *)
Lemma sampleLoop_dom (pids : list Z) (prev : gmap Z ProcTime) (acc : list Sample) (p : Z) :
  is_Some (fst (loop pids prev acc) !! p) -> is_Some (prev !! p) \/ p ∈ pids.
Proof.
  revert prev acc. induction pids as [|q pids IH]; intros prev acc; simpl; [tauto|].
  destruct (step q prev) as [[prev' s]|] eqn:E.
  - apply samplePid_Some in E. destruct E as (j & pp & _ & _ & -> & _).
    assert (Hins : is_Some (<[q:={| jiffies := j; ts := now |}]> prev !! p) ->
                   is_Some (prev !! p) \/ p ∈ q :: pids).
    { destruct (decide (q = p)) as [->|Hne].
      - intros _. right. by left.
      - rewrite lookup_insert_ne by done. tauto. }
    destruct (procMax <=? Z.of_nat (length (acc ++ [s]))); simpl; [done|].
    intros Hp. apply IH in Hp. destruct Hp as [Hp|Hp]; [by apply Hins|].
    right. by right.
  - intros Hp. apply IH in Hp. destruct Hp as [Hp|Hp]; [by left|]. right. by right.
Qed.

End LoopFacts.

Lemma listProcessSamples_fst h e st now cpuLimit memLimitBytes :
  fst (listProcessSamples h e st now cpuLimit memLimitBytes)
  = cleanup (listPids h)
      (fst (sampleLoop h (buildAllowedUidSet e (getuid h)) (PROC_MAX e) (CLK_TCK st)
              (PAGE_SIZE st) now cpuLimit memLimitBytes (listPids h) (prevProcTimes st) [])).
Proof. unfold listProcessSamples. by destruct (sampleLoop _ _ _ _ _ _ _ _ _ _ _). Qed.

Lemma listProcessSamples_snd h e st now cpuLimit memLimitBytes :
  snd (listProcessSamples h e st now cpuLimit memLimitBytes)
  = sortSamples
      (snd (sampleLoop h (buildAllowedUidSet e (getuid h)) (PROC_MAX e) (CLK_TCK st)
              (PAGE_SIZE st) now cpuLimit memLimitBytes (listPids h) (prevProcTimes st) [])).
Proof. unfold listProcessSamples. by destruct (sampleLoop _ _ _ _ _ _ _ _ _ _ _). Qed.

Lemma PROC_MAX_positive (e : Env) : 1 <= PROC_MAX e.
Proof. unfold PROC_MAX. lia. Qed.

(** ** Stale entries of the per-process map *)

Lemma cleanup_lookup (pids : list Z) (prev : gmap Z ProcTime) (p : Z) :
  cleanup pids prev !! p = if decide (p ∈ pids) then prev !! p else None.
Proof.
  unfold cleanup. case_decide as Hp.
  - destruct (prev !! p) as [pt|] eqn:E.
    + apply map_lookup_filter_Some. by split.
    + apply map_lookup_filter_None. left. done.
  - apply map_lookup_filter_None. right. intros pt _. exact Hp.
Qed.

Lemma cleanup_dom (pids : list Z) (prev : gmap Z ProcTime) :
  dom (cleanup pids prev) ⊆ list_to_set pids.
Proof.
  intros p Hp. apply elem_of_dom in Hp. rewrite cleanup_lookup in Hp.
  case_decide; [|by destruct Hp]. by apply elem_of_list_to_set.
Qed.

Lemma size_list_to_set_le (l : list Z) : (size (list_to_set l : gset Z) <= length l)%nat.
Proof.
  induction l as [|x l IH]; simpl; [done|].
  rewrite size_union_alt, size_singleton.
  assert (size ((list_to_set l : gset Z) ∖ {[x]}) <= size (list_to_set l : gset Z))%nat.
  { apply subseteq_size. intros y Hy. apply elem_of_difference in Hy. tauto. }
  lia.
Qed.

(** C8. When an enumeration returns, every key of the per-process map
    is a PID of that cycle's listing: the entries of processes that are
    gone have been deleted, and the map is no larger than the
    listing. *)
Theorem listProcessSamples_drops_exited
    (h : Host) (e : Env) (st : SamplerState) (now : Z) (cpuLimit : Q) (memLimitBytes : Z) :
  let prev' := fst (listProcessSamples h e st now cpuLimit memLimitBytes) in
  dom prev' ⊆ list_to_set (listPids h) /\
  (size prev' <= length (listPids h))%nat /\
  map_Forall (fun p _ => p ∈ listPids h) prev'.
Proof.
  intros prev'. unfold prev'. rewrite listProcessSamples_fst.
  split; [apply cleanup_dom|split].
  - rewrite <- size_dom.
    etransitivity; [apply subseteq_size, cleanup_dom|apply size_list_to_set_le].
  - intros p pt Hp. rewrite cleanup_lookup in Hp. by case_decide.
Qed.

(** ** The cap and the sort *)

(** C2, as the specification words it, fails.  With [PROC_MAX] set to 1
    and three processes listed, the loop keeps the first one listed,
    PID 1; sorting all three and then cutting would keep PID 77, which
    holds the most memory. *)
Lemma listProcessSamples_caps_before_sorting :
  let now := 1700000000000 in
  let full := fullSampleList bareHost oneProcessEnv initialState now 4 0 in
  let out := snd (listProcessSamples bareHost oneProcessEnv initialState now 4 0) in
  PROC_MAX oneProcessEnv < Z.of_nat (length full) /\
  pid <$> out = [1] /\
  pid <$> specProcessList bareHost oneProcessEnv initialState now 4 0 = [77] /\
  out <> specProcessList bareHost oneProcessEnv initialState now 4 0.
Proof.
  repeat split; try reflexivity.
  intros H. apply (f_equal (fmap pid)) in H. vm_compute in H. discriminate H.
Qed.

(** Below the cap nothing is cut: the list is the sorted list of all
    surviving samples. *)
Lemma listProcessSamples_under_cap h e st now cpuLimit memLimitBytes :
  Z.of_nat (length (fullSampleList h e st now cpuLimit memLimitBytes)) <= PROC_MAX e ->
  snd (listProcessSamples h e st now cpuLimit memLimitBytes)
  = sortSamples (fullSampleList h e st now cpuLimit memLimitBytes).
Proof.
  intros Hlen. unfold fullSampleList in *. rewrite listProcessSamples_snd. f_equal.
  rewrite sampleLoop_take by (simpl; pose proof (PROC_MAX_positive e); lia).
  apply take_ge. lia.
Qed.

(** C2, amended.  When more processes survive than [PROC_MAX], the
    list returned is the first [PROC_MAX] samples in the order of the
    listing, sorted by CPU share and then memory, both descending, a
    missing CPU share counting as 0: a sorted rearrangement of that
    prefix, of length [PROC_MAX]. *)
Theorem listProcessSamples_sorts_first_PROC_MAX
    (h : Host) (e : Env) (st : SamplerState) (now : Z) (cpuLimit : Q) (memLimitBytes : Z) :
  let full := fullSampleList h e st now cpuLimit memLimitBytes in
  let out := snd (listProcessSamples h e st now cpuLimit memLimitBytes) in
  PROC_MAX e < Z.of_nat (length full) ->
  out = sortSamples (take (Z.to_nat (PROC_MAX e)) full) /\
  out ≡ₚ take (Z.to_nat (PROC_MAX e)) full /\
  sortedSamples out /\
  Z.of_nat (length out) = PROC_MAX e.
Proof.
  intros full out Hlen.
  assert (Hout : out = sortSamples (take (Z.to_nat (PROC_MAX e)) full)).
  { unfold out, full, fullSampleList. rewrite listProcessSamples_snd. f_equal.
    apply sampleLoop_take. simpl. pose proof (PROC_MAX_positive e). lia. }
  rewrite Hout. split; [done|]. split; [apply sortSamples_perm|].
  split; [apply sortSamples_sorted|].
  rewrite sortSamples_length, length_take. pose proof (PROC_MAX_positive e). lia.
Qed.

Lemma listProcessSamples_sorts_first_PROC_MAX_witness :
  let now := 1700000000000 in
  let out := snd (listProcessSamples bareHost oneProcessEnv initialState now 4 0) in
  out = sortSamples (take 1 (fullSampleList bareHost oneProcessEnv initialState now 4 0)) /\
  Z.of_nat (length out) = 1.
Proof.
  assert (H : PROC_MAX oneProcessEnv
              < Z.of_nat (length (fullSampleList bareHost oneProcessEnv initialState
                                    1700000000000 4 0))) by (vm_compute; reflexivity).
  pose proof (listProcessSamples_sorts_first_PROC_MAX bareHost oneProcessEnv initialState
                1700000000000 4 0 H) as (H1 & _ & _ & H4).
  split; [exact H1|exact H4].
Defined.

(** ** The CPU share of a process *)

Lemma Qltb_lt (a b : Q) : Qltb a b = true <-> (a < b)%Q.
Proof.
  unfold Qltb. rewrite negb_true_iff. split.
  - intros H. apply Qnot_le_lt. intros Hle. apply Qle_bool_iff in Hle. congruence.
  - intros H. destruct (Qle_bool b a) eqn:E; [|done].
    apply Qle_bool_iff in E. lra.
Qed.

Lemma clamp100_range (x : Q) : (0 <= clamp100 x <= 100)%Q.
Proof.
  unfold clamp100. split.
  - apply Q.min_glb; [lra|apply Q.le_max_l].
  - apply Q.le_min_l.
Qed.

Lemma limit_floor_positive (cpuLimit : Q) : (0 < Qmax cpuLimit EPSILON)%Q.
Proof.
  eapply Qlt_le_trans; [|apply Q.le_max_r]. reflexivity.
Qed.

Lemma cpuPct_spec (clk : positive) (cpuLimit : Q) (now j : Z) (prev : option ProcTime) :
  (cpuPct clk cpuLimit now j prev = None <->
     prev = None \/ exists p, prev = Some p /\ (deltaSeconds now p <= 0)%Q) /\
  (forall p, prev = Some p -> (0 < deltaSeconds now p)%Q ->
     exists q, cpuPct clk cpuLimit now j prev = Some q /\
               (0 <= q <= 100)%Q /\
               (q == specCpuPercent clk cpuLimit (j - jiffies p) (deltaSeconds now p))%Q).
Proof.
  destruct prev as [p|]; simpl.
  - fold (deltaSeconds now p).
    destruct (Qltb 0 (deltaSeconds now p)) eqn:E.
    + apply Qltb_lt in E. split.
      * split; [discriminate|]. intros [[=]|(p' & [= <-] & Hd)]. lra.
      * intros p' [= <-] _. eexists. split; [reflexivity|].
        split; [apply clamp100_range|].
        unfold clamp100, specCpuPercent.
        apply Q.min_compat; [reflexivity|]. apply Q.max_compat; [reflexivity|].
        pose proof (limit_floor_positive cpuLimit).
        assert (0 < inject_Z (Z.pos clk))%Q by (unfold Qlt; simpl; lia).
        field. repeat split; lra.
    + assert (Hd : (deltaSeconds now p <= 0)%Q).
      { apply Qnot_lt_le. intros Hlt. apply Qltb_lt in Hlt. congruence. }
      split.
      * split; [|done]. intros _. right. by exists p.
      * intros p' [= <-] Hpos. lra.
  - split; [tauto|]. intros p [=].
Qed.

Section LoopOrigin.

Context (h : Host) (allowedUids : option (gset Z)).
Context (procMax : Z) (clk pageSize : positive).
Context (now : Z) (cpuLimit : Q) (memLimitBytes : Z).

Local Abbreviation step := (samplePid h allowedUids clk pageSize now cpuLimit memLimitBytes).
Local Abbreviation loop := (sampleLoop h allowedUids procMax clk pageSize now cpuLimit memLimitBytes).

(** In a listing without repetition, each sample was computed against
    the entry its PID had when the loop began. *)
Lemma sampleLoop_origin (prev0 : gmap Z ProcTime) (pids : list Z) :
  NoDup pids ->
  forall prev acc,
    (forall p, p ∈ pids -> prev !! p = prev0 !! p) ->
    forall s, s ∈ snd (loop pids prev acc) ->
      s ∈ acc \/
      (pid s ∈ pids /\
       exists j pp, getPidTimesAndPpid h (pid s) = Some (j, pp) /\
                    cpu_percent s = cpuPct clk cpuLimit now j (prev0 !! pid s)).
Proof.
  induction 1 as [|p pids Hnotin Hnd IH]; intros prev acc Hagree s; simpl; [tauto|].
  assert (Hrest : forall prev' : gmap Z ProcTime,
                  (forall q, q ≠ p -> prev' !! q = prev !! q) ->
                  forall q, q ∈ pids -> prev' !! q = prev0 !! q).
  { intros prev' Hsame q Hq. rewrite Hsame by (intros ->; contradiction).
    apply Hagree. by right. }
  destruct (step p prev) as [[prev' s0]|] eqn:E.
  - apply samplePid_Some in E.
    destruct E as (j & pp & Ht & _ & -> & Hpid & _ & _ & Hcpu & _).
    assert (Hs0 : pid s0 ∈ p :: pids /\
                  exists j pp, getPidTimesAndPpid h (pid s0) = Some (j, pp) /\
                    cpu_percent s0 = cpuPct clk cpuLimit now j (prev0 !! pid s0)).
    { rewrite Hpid. split; [by left|]. exists j, pp. split; [done|].
      rewrite Hcpu, Hagree; [done|by left]. }
    assert (Hacc : s ∈ acc ++ [s0] -> s ∈ acc \/
                   (pid s ∈ p :: pids /\
                    exists j pp, getPidTimesAndPpid h (pid s) = Some (j, pp) /\
                      cpu_percent s = cpuPct clk cpuLimit now j (prev0 !! pid s))).
    { intros Hin. apply elem_of_app in Hin. destruct Hin as [Hin|Hin]; [by left|].
      apply list_elem_of_singleton in Hin. subst s. by right. }
    destruct (procMax <=? Z.of_nat (length (acc ++ [s0]))); simpl; [exact Hacc|].
    intros Hin. apply IH in Hin.
    + destruct Hin as [Hin|(Hp & Hrest')]; [by apply Hacc|].
      right. split; [by right|done].
    + apply Hrest. intros q Hq. by rewrite lookup_insert_ne.
  - intros Hin. apply IH in Hin.
    + destruct Hin as [Hin|(Hp & Hrest')]; [by left|].
      right. split; [by right|done].
    + by apply Hrest.
Qed.

End LoopOrigin.

(** ** What the loop records *)

Section LoopSamples.

Context (h : Host) (allowedUids : option (gset Z)).
Context (procMax : Z) (clk pageSize : positive).
Context (now : Z) (cpuLimit : Q) (memLimitBytes : Z).

Local Abbreviation step := (samplePid h allowedUids clk pageSize now cpuLimit memLimitBytes).
Local Abbreviation loop := (sampleLoop h allowedUids procMax clk pageSize now cpuLimit memLimitBytes).

Lemma recorded_insert (prev : gmap Z ProcTime) (s : Sample) (p j pp : Z) :
  getPidTimesAndPpid h p = Some (j, pp) ->
  recorded h now prev s ->
  recorded h now (<[ p := {| jiffies := j; ts := now |} ]> prev) s.
Proof.
  intros Hp (j' & pp' & Hs & Hl). exists j', pp'. split; [done|].
  destruct (decide (p = pid s)) as [->|Hne].
  - rewrite lookup_insert_eq. rewrite Hs in Hp. by injection Hp as -> _.
  - by rewrite lookup_insert_ne.
Qed.

Lemma sampleLoop_recorded (pids : list Z) :
  forall prev acc,
    Forall (recorded h now prev) acc ->
    Forall (recorded h now (fst (loop pids prev acc))) (snd (loop pids prev acc)).
Proof.
  induction pids as [|p pids IH]; intros prev acc Hacc; simpl; [done|].
  destruct (step p prev) as [[prev' s]|] eqn:E; [|by apply IH].
  apply samplePid_Some in E.
  destruct E as (j & pp & Ht & _ & -> & Hpid & _).
  assert (Hacc' : Forall (recorded h now (<[p:={| jiffies := j; ts := now |}]> prev))
                         (acc ++ [s])).
  { apply Forall_app. split.
    - eapply Forall_impl; [exact Hacc|]. intros s0. by apply (recorded_insert _ _ _ _ pp).
    - constructor; [|done]. exists j, pp. rewrite Hpid. split; [done|].
      by rewrite lookup_insert_eq. }
  destruct (procMax <=? Z.of_nat (length (acc ++ [s]))); [done|by apply IH].
Qed.

(** The PID of every sample pushed by the loop is one of its list. *)
Lemma sampleLoop_pids (pids : list Z) :
  forall prev acc s,
    s ∈ snd (loop pids prev acc) -> s ∈ acc \/ pid s ∈ pids.
Proof.
  induction pids as [|p pids IH]; intros prev acc s; simpl; [tauto|].
  destruct (step p prev) as [[prev' s0]|] eqn:E.
  - apply samplePid_Some in E. destruct E as (j & pp & _ & _ & _ & Hpid & _).
    assert (Hacc : s ∈ acc ++ [s0] -> s ∈ acc \/ pid s ∈ p :: pids).
    { intros Hin. apply elem_of_app in Hin. destruct Hin as [Hin|Hin]; [by left|].
      apply list_elem_of_singleton in Hin. subst s. right. rewrite Hpid. by left. }
    destruct (procMax <=? Z.of_nat (length (acc ++ [s0]))); simpl; [exact Hacc|].
    intros Hin. apply IH in Hin. destruct Hin as [Hin|Hin]; [by apply Hacc|].
    right. by right.
  - intros Hin. apply IH in Hin. destruct Hin as [Hin|Hin]; [by left|]. right. by right.
Qed.

Lemma samplePid_skipped (p : Z) (prev : gmap Z ProcTime) :
  skipped h allowedUids p -> step p prev = None.
Proof.
  unfold samplePid. intros [Hu|Ht].
  - by rewrite Hu.
  - rewrite Ht. by destruct (uidPasses allowedUids (getPidUid h p)).
Qed.

(** A PID that the loop passes over keeps the entry it had. *)
Lemma sampleLoop_skipped (pids : list Z) (q : Z) :
  skipped h allowedUids q ->
  forall prev acc, fst (loop pids prev acc) !! q = prev !! q.
Proof.
  intros Hq. induction pids as [|p pids IH]; intros prev acc; simpl; [done|].
  destruct (step p prev) as [[prev' s0]|] eqn:E; [|by apply IH].
  assert (Hne : p ≠ q).
  { intros ->. by rewrite samplePid_skipped in E. }
  apply samplePid_Some in E. destruct E as (j & pp & _ & _ & -> & _).
  destruct (procMax <=? Z.of_nat (length (acc ++ [s0]))); simpl.
  - by rewrite lookup_insert_ne.
  - rewrite IH. by rewrite lookup_insert_ne.
Qed.

End LoopSamples.

Lemma listProcessSamples_recorded
    (h : Host) (e : Env) (st : SamplerState) (now : Z) (cpuLimit : Q) (memLimitBytes : Z) :
  Forall (recorded h now (fst (listProcessSamples h e st now cpuLimit memLimitBytes)))
         (snd (listProcessSamples h e st now cpuLimit memLimitBytes)).
Proof.
  rewrite listProcessSamples_fst, listProcessSamples_snd, sortSamples_perm.
  apply Forall_forall. intros s Hs.
  pose proof (sampleLoop_pids _ _ _ _ _ _ _ _ _ _ _ _ Hs) as Hpid.
  destruct Hpid as [Hpid|Hpid]; [by apply elem_of_nil in Hpid|].
  pose proof (sampleLoop_recorded h (buildAllowedUidSet e (getuid h)) (PROC_MAX e)
                (CLK_TCK st) (PAGE_SIZE st) now cpuLimit memLimitBytes (listPids h)
                (prevProcTimes st) [] (Forall_nil_2 _)) as Hrec.
  rewrite Forall_forall in Hrec. destruct (Hrec s Hs) as (j & pp & Ht & Hl).
  exists j, pp. split; [done|]. rewrite cleanup_lookup. by rewrite decide_True.
Qed.

(** The CPU share of a sample, from the map the enumeration started
    with. *)
Lemma listProcessSamples_cpu_share
    (h : Host) (e : Env) (st : SamplerState) (now : Z) (cpuLimit : Q) (memLimitBytes : Z)
    (s : Sample) :
  NoDup (listPids h) ->
  s ∈ snd (listProcessSamples h e st now cpuLimit memLimitBytes) ->
  exists j pp,
    getPidTimesAndPpid h (pid s) = Some (j, pp) /\
    (cpu_percent s = None <->
       prevProcTimes st !! pid s = None \/
       exists p, prevProcTimes st !! pid s = Some p /\ (deltaSeconds now p <= 0)%Q) /\
    (forall p, prevProcTimes st !! pid s = Some p -> (0 < deltaSeconds now p)%Q ->
       exists q, cpu_percent s = Some q /\
                 (0 <= q <= 100)%Q /\
                 (q == specCpuPercent (CLK_TCK st) cpuLimit (j - jiffies p)
                         (deltaSeconds now p))%Q).
Proof.
  intros Hnd Hin. rewrite listProcessSamples_snd in Hin.
  rewrite elem_of_sortSamples in Hin.
  eapply (sampleLoop_origin _ _ _ _ _ _ _ _ (prevProcTimes st)) in Hin; [|done|done].
  destruct Hin as [Hin|(_ & j & pp & Ht & Hcpu)]; [by apply elem_of_nil in Hin|].
  exists j, pp. split; [done|]. rewrite Hcpu. apply cpuPct_spec.
Qed.

Lemma deltaSeconds_positive (now : Z) (p : ProcTime) :
  (0 < deltaSeconds now p)%Q <-> ts p < now.
Proof.
  unfold deltaSeconds, Qlt, Qdiv, Qmult, Qinv. simpl. lia.
Qed.

(** C7. In a listing without repeated PIDs, the CPU share of a sampled
    process is null exactly when the map held no previous entry for its
    PID or no time has passed since that entry; with a previous entry
    and time passed it is a number between 0 and 100, equal to
    clamp((deltaTicks / CLK_TCK / deltaSeconds) * 100 / max(cpuLimit, ε), 0, 100).
    The enumeration leaves in the map the ticks it read for the process
    and the time of the cycle, so that in any enumeration that starts
    from this map and samples the process again, the share is null
    exactly when the clock has not advanced, and otherwise is the
    number the formula gives for the ticks and the time since this
    cycle. *)
Theorem listProcessSamples_cpu_percent
    (h : Host) (e : Env) (st : SamplerState) (now : Z) (cpuLimit : Q) (memLimitBytes : Z)
    (s : Sample) :
  NoDup (listPids h) ->
  s ∈ snd (listProcessSamples h e st now cpuLimit memLimitBytes) ->
  let prev := prevProcTimes st !! pid s in
  let left := fst (listProcessSamples h e st now cpuLimit memLimitBytes) in
  exists j pp,
    getPidTimesAndPpid h (pid s) = Some (j, pp) /\
    (cpu_percent s = None <->
       prev = None \/ exists p, prev = Some p /\ (deltaSeconds now p <= 0)%Q) /\
    (forall p, prev = Some p -> (0 < deltaSeconds now p)%Q ->
       exists q, cpu_percent s = Some q /\
                 (0 <= q <= 100)%Q /\
                 (q == specCpuPercent (CLK_TCK st) cpuLimit (j - jiffies p)
                         (deltaSeconds now p))%Q) /\
    left !! pid s = Some {| jiffies := j; ts := now |} /\
    (forall (h2 : Host) (e2 : Env) (st2 : SamplerState) (now2 : Z) (cpuLimit2 : Q)
            (memLimitBytes2 : Z) (s2 : Sample),
       prevProcTimes st2 = left ->
       NoDup (listPids h2) ->
       s2 ∈ snd (listProcessSamples h2 e2 st2 now2 cpuLimit2 memLimitBytes2) ->
       pid s2 = pid s ->
       exists j2 pp2,
         getPidTimesAndPpid h2 (pid s) = Some (j2, pp2) /\
         (cpu_percent s2 = None <-> now2 <= now) /\
         (now < now2 ->
            exists q, cpu_percent s2 = Some q /\
                      (0 <= q <= 100)%Q /\
                      (q == specCpuPercent (CLK_TCK st2) cpuLimit2 (j2 - j)
                              (inject_Z (now2 - now) / 1000))%Q)).
Proof.
  intros Hnd Hin prev left.
  destruct (listProcessSamples_cpu_share h e st now cpuLimit memLimitBytes s Hnd Hin)
    as (j & pp & Ht & Hnull & Hshare).
  pose proof (listProcessSamples_recorded h e st now cpuLimit memLimitBytes) as Hrec.
  rewrite Forall_forall in Hrec. destruct (Hrec s Hin) as (j' & pp' & Ht' & Hleft).
  rewrite Ht in Ht'. injection Ht' as <- <-.
  exists j, pp. split; [done|]. split; [done|]. split; [done|]. split; [done|].
  intros h2 e2 st2 now2 cpuLimit2 memLimitBytes2 s2 Hst2 Hnd2 Hin2 Hpid.
  destruct (listProcessSamples_cpu_share h2 e2 st2 now2 cpuLimit2 memLimitBytes2 s2
              Hnd2 Hin2) as (j2 & pp2 & Ht2 & Hnull2 & Hshare2).
  rewrite Hst2, Hpid in Hnull2, Hshare2. fold left in Hleft.
  rewrite Hleft in Hnull2, Hshare2. rewrite Hpid in Ht2.
  pose proof (deltaSeconds_positive now2 {| jiffies := j; ts := now |}) as Hpos.
  simpl in Hpos.
  exists j2, pp2. split; [done|]. split.
  - rewrite Hnull2. split.
    + intros [Hnone|(p & [= <-] & Hle)]; [done|].
      destruct (decide (now2 <= now)) as [Hd|Hd]; [done|].
      assert (Hlt : now < now2) by lia. apply Hpos in Hlt.
      exfalso. by apply (Qlt_not_le _ _ Hlt).
    + intros Hle. right. eexists. split; [done|].
      apply Qnot_lt_le. intros Hlt. apply Hpos in Hlt. lia.
  - intros Hlt. apply Hpos in Hlt. apply (Hshare2 _ eq_refl Hlt).
Qed.

Lemma listProcessSamples_cpu_percent_witness :
  let first := listProcessSamples bareHost noEnv warmState 1700000000000 4 0 in
  let st2 := {| lastCpuUsageNs := Num.ofZ 0; lastTsContainer := 0;
                prevProcTimes := fst first; CLK_TCK := 100; PAGE_SIZE := 4096 |} in
  exists s q s2 q2,
    head (snd first) = Some s /\
    pid s = 42 /\ cpu_percent s = Some q /\ (0 <= q <= 100)%Q /\ (q == 1)%Q /\
    fst first !! 42 = Some {| jiffies := 420; ts := 1700000000000 |} /\
    snd (listProcessSamples bareHost noEnv st2 1700000005000 4 0) !! 1%nat = Some s2 /\
    pid s2 = 42 /\ cpu_percent s2 = Some q2 /\ (0 <= q2 <= 100)%Q /\ (q2 == 0)%Q.
Proof.
  intros first st2.
  destruct (head (snd first)) as [s|] eqn:Hs; [|vm_compute in Hs; discriminate Hs].
  assert (Hpid : pid s = 42) by (vm_compute in Hs; injection Hs as <-; reflexivity).
  destruct (snd (listProcessSamples bareHost noEnv st2 1700000005000 4 0) !! 1%nat)
    as [s2|] eqn:Hs2; [|vm_compute in Hs2; discriminate Hs2].
  assert (Hpid2 : pid s2 = 42) by (vm_compute in Hs2; injection Hs2 as <-; reflexivity).
  assert (Hnd : NoDup (listPids bareHost)).
  { apply (bool_decide_unpack _). vm_compute. exact I. }
  destruct (listProcessSamples_cpu_percent bareHost noEnv warmState 1700000000000 4 0 s
              Hnd (head_Some_elem_of _ _ Hs)) as (j & pp & Ht & _ & Hpos & Hleft & Hnext).
  rewrite Hpid in Ht, Hpos, Hleft. injection Ht as <- <-.
  destruct (Hpos {| jiffies := 400; ts := 1699999995000 |} eq_refl eq_refl)
    as (q & Hq & Hrange & Heq).
  assert (Hlater : 1700000000000 < 1700000005000) by lia.
  destruct (Hnext bareHost noEnv st2 1700000005000 4%Q 0 s2 eq_refl Hnd
              (list_elem_of_lookup_2 _ _ _ Hs2) (eq_trans Hpid2 (eq_sym Hpid)))
    as (j2 & pp2 & Ht2 & _ & Hpos2).
  rewrite Hpid in Ht2. injection Ht2 as <- <-.
  destruct (Hpos2 Hlater) as (q2 & Hq2 & Hrange2 & Heq2).
  exists s, q, s2, q2.
  split; [reflexivity|]. split; [exact Hpid|]. split; [exact Hq|]. split; [exact Hrange|].
  split; [rewrite Heq; reflexivity|]. split; [exact Hleft|]. split; [reflexivity|].
  split; [exact Hpid2|]. split; [exact Hq2|]. split; [exact Hrange2|].
  rewrite Heq2. reflexivity.
Defined.

(** ** Ranges of the percentages *)

Lemma containerCpuPercent_range (st : SamplerState) (usageNs : number) (now : Z)
    (cpuLimit : Q) :
  match containerCpuPercent st usageNs now cpuLimit with
  | Finite q => (0 <= q <= 100)%Q
  | NaN => True
  | PosInfinity | NegInfinity => False
  end.
Proof.
  unfold containerCpuPercent.
  match goal with |- context [Num.max (Finite 0) ?raw] => destruct raw as [r| | |] end; simpl.
  - apply clamp100_range.
  - lra.
  - apply (clamp100_range 0).
  - exact I.
Qed.

Lemma ratioPercent_range (used limit : Z) :
  0 <= used <= limit -> (0 <= ratioPercent used limit <= 100)%Q.
Proof.
  intros [H0 H1]. unfold ratioPercent.
  destruct (0 <? limit) eqn:E; [|lra].
  apply Z.ltb_lt in E.
  assert (Hl : (0 < inject_Z limit)%Q) by (change 0%Q with (inject_Z 0); by rewrite <- Zlt_Qlt).
  assert (Hu : (0 <= inject_Z used)%Q) by (change 0%Q with (inject_Z 0); by rewrite <- Zle_Qle).
  assert (Hul : (inject_Z used <= inject_Z limit)%Q) by (by rewrite <- Zle_Qle).
  assert (Hd0 : (0 <= inject_Z used / inject_Z limit)%Q).
  { apply Qle_shift_div_l; [done|lra]. }
  assert (Hd1 : (inject_Z used / inject_Z limit <= 1)%Q).
  { apply Qle_shift_div_r; [done|lra]. }
  lra.
Qed.

Lemma memPct_range (memLimitBytes rssBytes : Z) (q : Q) :
  memPct memLimitBytes rssBytes = Some q ->
  q = ratioPercent rssBytes memLimitBytes /\ 0 < memLimitBytes.
Proof.
  unfold memPct, ratioPercent. destruct (0 <? memLimitBytes) eqn:E; [|done].
  intros [= <-]. split; [done|by apply Z.ltb_lt].
Qed.

Lemma cpuPct_range (clk : positive) (cpuLimit : Q) (now j : Z) (prev : option ProcTime)
    (q : Q) :
  cpuPct clk cpuLimit now j prev = Some q -> (0 <= q <= 100)%Q.
Proof.
  unfold cpuPct. destruct prev as [p|]; [|done].
  destruct (Qltb _ _); [|done]. intros [= <-]. apply clamp100_range.
Qed.

(** Every sample of a listing has its CPU share within 0 and 100 and
    its memory share equal to the plain ratio. *)
Lemma listProcessSamples_samples h e st now cpuLimit memLimitBytes :
  Forall (fun s =>
            (forall q, cpu_percent s = Some q -> (0 <= q <= 100)%Q) /\
            mem_percent s = memPct memLimitBytes (mem_bytes s))
         (snd (listProcessSamples h e st now cpuLimit memLimitBytes)).
Proof.
  rewrite listProcessSamples_snd.
  rewrite sortSamples_perm.
  apply (sampleLoop_invariant h _ _ _ _ now cpuLimit memLimitBytes (fun _ => True)); try done.
  intros p prev prev' s _ E. split; [done|].
  apply samplePid_Some in E.
  destruct E as (j & pp & _ & _ & _ & _ & _ & _ & Hcpu & Hmem & Hpct).
  split.
  - intros q Hq. rewrite Hcpu in Hq. by eapply cpuPct_range.
  - by rewrite Hpct, Hmem.
Qed.

(** What a completed measurement is made of. *)
Lemma measure_Some (h : Host) (e : Env) (st : SamplerState) (m : Measured) :
  snd (measure h e st) = Some m ->
  exists usageNs,
    let st1 := ensureSysConf h st in
    let st2 := {| lastCpuUsageNs := usageNs; lastTsContainer := dateNow h;
                  prevProcTimes := prevProcTimes st1;
                  CLK_TCK := CLK_TCK st1; PAGE_SIZE := PAGE_SIZE st1 |} in
    redisConnects h = true /\
    readMemory h (detectCgroupVersion h) = Some (m_memLimit m, m_memUsage m) /\
    readUsageNs h (detectCgroupVersion h) = Some usageNs /\
    m_now m = dateNow h /\
    m_cpuLimit m = getCpuLimit h (detectCgroupVersion h) /\
    m_cpuUsagePercent m = containerCpuPercent st1 usageNs (dateNow h) (m_cpuLimit m) /\
    m_memPercent m = ratioPercent (m_memUsage m) (m_memLimit m) /\
    m_storagePercent m = ratioPercent (m_storageUsed m) (m_storageTotal m) /\
    m_processes m = snd (listProcessSamples h e st2 (dateNow h) (m_cpuLimit m) (m_memLimit m)) /\
    prevProcTimes (fst (measure h e st))
      = fst (listProcessSamples h e st2 (dateNow h) (m_cpuLimit m) (m_memLimit m)).
Proof.
  unfold measure.
  destruct (redisConnects h); simpl; [|done].
  destruct (readMemory h (detectCgroupVersion h)) as [[memLimit memUsage]|]; [|done].
  destruct (readUsageNs h (detectCgroupVersion h)) as [usageNs|]; [|done].
  destruct (listProcessSamples h e _ (dateNow h) _ memLimit) as [prev processes] eqn:El.
  simpl. intros [= <-]. exists usageNs. simpl. rewrite El. by repeat split.
Qed.

(** C3, as the specification words it, fails.  In a cgroup v2 container
    holding 2.5 MiB under a limit lowered to 1 MiB, the memory usage
    percentage of the snapshot is 250. *)
Lemma measure_memory_percent_above_100 :
  exists m,
    snd (measure squeezedHost noEnv initialState) = Some m /\
    (m_memPercent m == 250)%Q /\
    ~ (m_memPercent m <= 100)%Q /\
    memory_usage_percent (toData squeezedHost m) = "250.00".
Proof.
  eexists. split; [vm_compute; reflexivity|].
  split; [reflexivity|]. split; [|reflexivity].
  intros H. vm_compute in H. by apply H.
Qed.

(** C3, amended.  In the snapshot of every completed measurement the
    container CPU percentage and the CPU share of every process lie
    between 0 and 100 (a CPU percentage that is not a number is written
    as 0.00).  The memory and storage percentages and the memory share
    of a process are the plain ratio used / limit * 100, with no clamp:
    they lie between 0 and 100 when used is between 0 and the limit. *)
Theorem measure_percent_ranges (h : Host) (e : Env) (st : SamplerState) (m : Measured) :
  snd (measure h e st) = Some m ->
  (exists q, (0 <= q <= 100)%Q /\
             cpu_usage_percent (toData h m) = Num.toFixed2 (Finite q) /\
             (m_cpuUsagePercent m = Finite q \/ (m_cpuUsagePercent m = NaN /\ q = 0%Q))) /\
  (forall s q, s ∈ m_processes m -> cpu_percent s = Some q -> (0 <= q <= 100)%Q) /\
  m_memPercent m = ratioPercent (m_memUsage m) (m_memLimit m) /\
  m_storagePercent m = ratioPercent (m_storageUsed m) (m_storageTotal m) /\
  (forall s q, s ∈ m_processes m -> mem_percent s = Some q ->
               q = ratioPercent (mem_bytes s) (m_memLimit m)) /\
  (forall used limit, 0 <= used <= limit -> (0 <= ratioPercent used limit <= 100)%Q).
Proof.
  intros Hm. apply measure_Some in Hm.
  destruct Hm as (usageNs & _ & _ & _ & _ & _ & Hcpu & Hmem & Hsto & Hprocs & _).
  pose proof (listProcessSamples_samples h e
                {| lastCpuUsageNs := usageNs; lastTsContainer := dateNow h;
                   prevProcTimes := prevProcTimes (ensureSysConf h st);
                   CLK_TCK := CLK_TCK (ensureSysConf h st);
                   PAGE_SIZE := PAGE_SIZE (ensureSysConf h st) |}
                (dateNow h) (m_cpuLimit m) (m_memLimit m)) as Hall.
  rewrite <- Hprocs in Hall. rewrite Forall_forall in Hall.
  split; [|split; [|split; [|split; [|split]]]]; try done.
  - pose proof (containerCpuPercent_range (ensureSysConf h st) usageNs (dateNow h)
                  (m_cpuLimit m)) as Hr.
    rewrite <- Hcpu in Hr. unfold toData. simpl cpu_usage_percent.
    destruct (m_cpuUsagePercent m) as [q| | |]; try done.
    + exists q. split; [done|]. split; [done|by left].
    + exists 0%Q. split; [lra|]. split; [done|by right].
  - intros s q Hs Hq. by apply (Hall s Hs).
  - intros s q Hs Hq. destruct (Hall s Hs) as [_ Hp]. rewrite Hp in Hq.
    by apply memPct_range in Hq as [-> _].
  - apply ratioPercent_range.
Qed.

Lemma measure_percent_ranges_witness :
  exists m q,
    snd (measure squeezedHost noEnv warmState) = Some m /\
    m_cpuUsagePercent m = Finite q /\ (0 <= q <= 100)%Q /\
    (0 <= ratioPercent (m_storageUsed m) (m_storageTotal m) <= 100)%Q.
Proof.
  destruct (snd (measure squeezedHost noEnv warmState)) as [m|] eqn:Hm;
    [|vm_compute in Hm; discriminate Hm].
  destruct (measure_percent_ranges squeezedHost noEnv warmState m Hm)
    as ((q & Hq & _ & Hcpu) & _ & _ & _ & _ & Hratio).
  assert (Hfin : Num.isFinite (m_cpuUsagePercent m) = true).
  { vm_compute in Hm. injection Hm as <-. reflexivity. }
  assert (Hsto : 0 <= m_storageUsed m <= m_storageTotal m).
  { vm_compute in Hm. injection Hm as <-. simpl. lia. }
  destruct Hcpu as [Hcpu|[Hcpu _]]; [|rewrite Hcpu in Hfin; discriminate Hfin].
  exists m, q. split; [done|]. split; [done|]. split; [done|by apply Hratio].
Defined.

(** ** The first cycle *)

Lemma cpuPct_same_instant (clk : positive) (cpuLimit : Q) (now j : Z) (p : ProcTime) :
  ts p = now -> cpuPct clk cpuLimit now j (Some p) = None.
Proof.
  intros Hts. unfold cpuPct. rewrite Hts, Z.sub_diag. reflexivity.
Qed.

(** Starting from an empty map, every sample of the listing has no CPU
    share. *)
Lemma listProcessSamples_first_observation h e st now cpuLimit memLimitBytes :
  prevProcTimes st = ∅ ->
  Forall (fun s => cpu_percent s = None)
         (snd (listProcessSamples h e st now cpuLimit memLimitBytes)).
Proof.
  intros Hempty. rewrite listProcessSamples_snd, sortSamples_perm.
  apply (sampleLoop_invariant h _ _ _ _ now cpuLimit memLimitBytes
           (fun prev => forall p pt, prev !! p = Some pt -> ts pt = now)); try done.
  - intros p prev prev' s HI E. apply samplePid_Some in E.
    destruct E as (j & pp & _ & _ & -> & _ & _ & _ & Hcpu & _). split.
    + intros q pt. destruct (decide (p = q)) as [->|Hne].
      * rewrite lookup_insert_eq. by intros [= <-].
      * rewrite lookup_insert_ne by done. apply HI.
    + rewrite Hcpu. destruct (prev !! p) as [pt|] eqn:Ep; [|done].
      apply cpuPct_same_instant. by eapply HI.
  - rewrite Hempty. intros p pt Hp. by rewrite lookup_empty in Hp.
Qed.

Lemma collectMetrics_stored (h : Host) (e : Env) (st : CronState) (data : Data) :
  c_stored (collectMetrics h e st) = Some data ->
  exists m, snd (measure h e (sampler st)) = Some m /\ data = toData h m.
Proof.
  unfold collectMetrics.
  destruct (measure h e (sampler st)) as [s' [m|]]; [|done].
  destruct (redisStores h); [|done].
  destruct (checkThresholds _ _ _ _ _ _) as [cd ns]. simpl.
  intros [= <-]. by exists m.
Qed.

(** C10. In a cycle that finds no previous container CPU sample in the
    state, and that stores a snapshot, the container CPU percentage of
    the snapshot is the string 0.00, not null; if the per-process map
    is empty as well, the CPU share of every process in the snapshot is
    null. *)
Theorem first_cycle_cpu_usage_is_zero (h : Host) (e : Env) (st : CronState) (data : Data) :
  Num.truthy (lastCpuUsageNs (sampler st)) && negb (lastTsContainer (sampler st) =? 0) = false ->
  c_stored (collectMetrics h e st) = Some data ->
  cpu_usage_percent data = "0.00" /\
  (prevProcTimes (sampler st) = ∅ ->
   Forall (fun p => p_cpu_usage_percent p = None) (processes data)).
Proof.
  intros Hfirst Hstored. apply collectMetrics_stored in Hstored.
  destruct Hstored as (m & Hm & ->). apply measure_Some in Hm.
  destruct Hm as (usageNs & _ & _ & _ & _ & _ & Hcpu & _ & _ & Hprocs & _).
  split.
  - unfold toData. simpl cpu_usage_percent. rewrite Hcpu.
    unfold containerCpuPercent. simpl lastCpuUsageNs. simpl lastTsContainer.
    rewrite Hfirst. reflexivity.
  - intros Hempty. unfold toData. simpl processes. rewrite Hprocs.
    apply Forall_fmap.
    eapply Forall_impl; [by apply listProcessSamples_first_observation|].
    intros s Hs. simpl. by rewrite Hs.
Qed.

Lemma first_cycle_cpu_usage_is_zero_witness :
  exists data,
    c_stored (collectMetrics bareHost noEnv startState) = Some data /\
    cpu_usage_percent data = "0.00" /\
    p_cpu_usage_percent <$> processes data = [None; None; None].
Proof.
  destruct (c_stored (collectMetrics bareHost noEnv startState)) as [data|] eqn:Hd;
    [|vm_compute in Hd; discriminate Hd].
  destruct (first_cycle_cpu_usage_is_zero bareHost noEnv startState data eq_refl Hd)
    as [Hcpu _].
  exists data. split; [done|]. split; [exact Hcpu|].
  vm_compute in Hd. injection Hd as <-. reflexivity.
Defined.

(** * Further properties of the code *)

(** ** The process list of every enumeration *)

(** X1. Whatever the listing, the process list returned has at most
    [PROC_MAX] entries, is in order (CPU share descending, then memory
    descending, a missing share counting as 0) and is a rearrangement
    of the first [PROC_MAX] surviving samples. *)
Theorem listProcessSamples_capped_and_sorted
    (h : Host) (e : Env) (st : SamplerState) (now : Z) (cpuLimit : Q) (memLimitBytes : Z) :
  let out := snd (listProcessSamples h e st now cpuLimit memLimitBytes) in
  Z.of_nat (length out) <= PROC_MAX e /\
  sortedSamples out /\
  out ≡ₚ take (Z.to_nat (PROC_MAX e)) (fullSampleList h e st now cpuLimit memLimitBytes).
Proof.
  intros out. unfold out, fullSampleList. rewrite listProcessSamples_snd.
  rewrite sampleLoop_take by (simpl; pose proof (PROC_MAX_positive e); lia).
  split; [|split].
  - rewrite sortSamples_length, length_take. pose proof (PROC_MAX_positive e). lia.
  - apply sortSamples_sorted.
  - apply sortSamples_perm.
Qed.

(** X2. Every process of the list returned comes from a PID of the
    listing, carries the UID read for that PID, and passes the
    allow-list: with an allow-list in force, no process of another
    user and none whose UID could not be read is ever listed. *)
Theorem listProcessSamples_respects_allow_list
    (h : Host) (e : Env) (st : SamplerState) (now : Z) (cpuLimit : Q) (memLimitBytes : Z) :
  Forall (admitted h (buildAllowedUidSet e (getuid h)) (listPids h))
         (snd (listProcessSamples h e st now cpuLimit memLimitBytes)) /\
  (forall set, buildAllowedUidSet e (getuid h) = Some set ->
     Forall (fun s => exists u, uid s = Some u /\ u ∈ set)
            (snd (listProcessSamples h e st now cpuLimit memLimitBytes))).
Proof.
  assert (Hall : Forall (admitted h (buildAllowedUidSet e (getuid h)) (listPids h))
                   (snd (listProcessSamples h e st now cpuLimit memLimitBytes))).
  { rewrite listProcessSamples_snd, sortSamples_perm.
    apply Forall_forall. intros s Hs. split.
    - apply sampleLoop_pids in Hs. destruct Hs as [Hs|Hs]; [by apply elem_of_nil in Hs|done].
    - revert s Hs. apply Forall_forall.
      apply (sampleLoop_invariant h _ _ _ _ now cpuLimit memLimitBytes (fun _ => True));
        try done.
      intros p prev prev' s _ E. split; [done|].
      apply samplePid_Some in E.
      destruct E as (j & pp & _ & Hpass & _ & Hpid & Huid & _).
      by rewrite Hpid, Huid. }
  split; [exact Hall|].
  intros set Hset. eapply Forall_impl; [exact Hall|].
  intros s (_ & _ & Hpass). rewrite Hset in Hpass. simpl in Hpass.
  destruct (uid s) as [u|]; [|done].
  exists u. split; [done|]. by apply bool_decide_eq_true in Hpass.
Qed.

Lemma listProcessSamples_respects_allow_list_witness :
  Forall (fun s => exists u, uid s = Some u /\ u ∈ ({[ 0 ]} : gset Z))
         (snd (listProcessSamples bareHost (envOf None (Some "0") None) initialState
                 1700000000000 4 0)) /\
  pid <$> snd (listProcessSamples bareHost (envOf None (Some "0") None) initialState
                 1700000000000 4 0) = [1].
Proof.
  split; [|reflexivity].
  apply (proj2 (listProcessSamples_respects_allow_list bareHost (envOf None (Some "0") None)
                  initialState 1700000000000 4 0) {[ 0 ]}).
  reflexivity.
Defined.

(** X3. When an enumeration returns, the map holds for every process
    of the list returned the ticks just read for it and the time of
    this cycle: the entry is overwritten whether or not a CPU share
    could be computed. *)
Theorem listProcessSamples_records_samples
    (h : Host) (e : Env) (st : SamplerState) (now : Z) (cpuLimit : Q) (memLimitBytes : Z) :
  Forall (recorded h now (fst (listProcessSamples h e st now cpuLimit memLimitBytes)))
         (snd (listProcessSamples h e st now cpuLimit memLimitBytes)).
Proof. apply listProcessSamples_recorded. Qed.

(** X4. A listed PID that the loop passes over, because the allow-list
    keeps its UID out or its [stat] cannot be read, keeps the entry it
    had before the enumeration, neither refreshed nor deleted. *)
Theorem listProcessSamples_keeps_skipped_entries
    (h : Host) (e : Env) (st : SamplerState) (now : Z) (cpuLimit : Q) (memLimitBytes : Z)
    (q : Z) :
  q ∈ listPids h ->
  skipped h (buildAllowedUidSet e (getuid h)) q ->
  fst (listProcessSamples h e st now cpuLimit memLimitBytes) !! q = prevProcTimes st !! q.
Proof.
  intros Hq Hs. rewrite listProcessSamples_fst, cleanup_lookup, decide_True by done.
  by apply sampleLoop_skipped.
Qed.

Lemma listProcessSamples_keeps_skipped_entries_witness :
  fst (listProcessSamples bareHost (envOf None (Some "0") None) warmState
         1700000000000 4 0) !! 42
  = Some {| jiffies := 400; ts := 1699999995000 |}.
Proof.
  rewrite (listProcessSamples_keeps_skipped_entries bareHost (envOf None (Some "0") None)
             warmState 1700000000000 4 0 42).
  - reflexivity.
  - apply (bool_decide_unpack _). vm_compute. exact I.
  - left. reflexivity.
Defined.

(** X5. A process sampled in one enumeration and again in a later one,
    by a later clock, has a CPU share in the second: a number between 0
    and 100.  (The listing of the second enumeration holds no PID
    twice.) *)
Theorem cpu_share_from_second_sample
    (h1 h2 : Host) (e1 e2 : Env) (st1 st2 : SamplerState) (now1 now2 : Z)
    (limit1 limit2 : Q) (mem1 mem2 : Z) (s1 s2 : Sample) :
  prevProcTimes st2 = fst (listProcessSamples h1 e1 st1 now1 limit1 mem1) ->
  NoDup (listPids h2) ->
  now1 < now2 ->
  s1 ∈ snd (listProcessSamples h1 e1 st1 now1 limit1 mem1) ->
  s2 ∈ snd (listProcessSamples h2 e2 st2 now2 limit2 mem2) ->
  pid s2 = pid s1 ->
  exists q, cpu_percent s2 = Some q /\ (0 <= q <= 100)%Q.
Proof.
  intros Hst Hnd Hnow Hs1 Hs2 Hpid.
  pose proof (listProcessSamples_recorded h1 e1 st1 now1 limit1 mem1) as Hrec.
  rewrite Forall_forall in Hrec. destruct (Hrec s1 Hs1) as (j1 & pp1 & _ & Hl).
  rewrite listProcessSamples_snd, elem_of_sortSamples in Hs2.
  eapply (sampleLoop_origin _ _ _ _ _ _ _ _ (prevProcTimes st2)) in Hs2; [|done|done].
  destruct Hs2 as [Hs2|(_ & j2 & pp2 & _ & Hcpu)]; [by apply elem_of_nil in Hs2|].
  rewrite Hst, Hpid, Hl in Hcpu.
  destruct (cpuPct_spec (CLK_TCK st2) limit2 now2 j2
              (Some {| jiffies := j1; ts := now1 |})) as [_ Hpos].
  destruct (Hpos _ eq_refl) as (q & Hq & Hr & _).
  { unfold deltaSeconds. simpl.
    apply Qlt_shift_div_l; [reflexivity|]. rewrite Qmult_0_l.
    change 0%Q with (inject_Z 0). rewrite <- Zlt_Qlt. lia. }
  exists q. by rewrite Hcpu.
Qed.

Lemma cpu_share_from_second_sample_witness :
  let r1 := listProcessSamples bareHost noEnv initialState 1700000000000 4 0 in
  let st2 := {| lastCpuUsageNs := Num.ofZ 0; lastTsContainer := 0;
                prevProcTimes := fst r1; CLK_TCK := 100; PAGE_SIZE := 4096 |} in
  exists s2 q,
    head (snd (listProcessSamples bareHost noEnv st2 1700000005000 4 0)) = Some s2 /\
    cpu_percent s2 = Some q /\ (0 <= q <= 100)%Q.
Proof.
  intros r1 st2.
  destruct (head (snd r1)) as [s1|] eqn:H1; [|vm_compute in H1; discriminate H1].
  destruct (head (snd (listProcessSamples bareHost noEnv st2 1700000005000 4 0)))
    as [s2|] eqn:H2; [|vm_compute in H2; discriminate H2].
  assert (Hpid : pid s2 = pid s1).
  { vm_compute in H1. injection H1 as <-. vm_compute in H2. injection H2 as <-. reflexivity. }
  assert (Hnd : NoDup (listPids bareHost)).
  { apply (bool_decide_unpack _). vm_compute. exact I. }
  assert (Hnow : 1700000000000 < 1700000005000) by lia.
  destruct (cpu_share_from_second_sample bareHost bareHost noEnv noEnv initialState st2
              1700000000000 1700000005000 4 4 0 0 s1 s2 eq_refl Hnd Hnow
              (head_Some_elem_of _ _ H1) (head_Some_elem_of _ _ H2) Hpid) as (q & Hq & Hr).
  exists s2, q. split; [reflexivity|]. split; [exact Hq|exact Hr].
Defined.

(** ** Alerts over many cycles *)

Lemma notificationTimes_app r a b :
  notificationTimes r (a ++ b) = notificationTimes r a ++ notificationTimes r b.
Proof. unfold notificationTimes. by rewrite List.filter_app, fmap_app. Qed.

(** What one call contributes for one resource. *)
Lemma checkThresholds_times (s : ThresholdSettings) now cpu memory storage cd r :
  let value := match r with Cpu => cpu | Memory => memory | Storage => storage end in
  let fires := th_enabled s && due value (thresholdOf r s) now (lastOf r cd) in
  let out := checkThresholds s now cpu memory storage cd in
  notificationTimes r ((fun n => (now, n)) <$> snd out) = (if fires then [now] else []) /\
  lastOf r (fst out) = (if fires then Some now else lastOf r cd).
Proof.
  unfold checkThresholds. destruct (th_enabled s); simpl negb; cbv iota; [|done].
  rewrite !checkOne_due.
  destruct r; simpl lastOf; simpl thresholdOf; cbv zeta;
    destruct (due cpu (th_cpu s) now (last_cpu cd)),
             (due memory (th_memory s) now (last_memory cd)),
             (due storage (th_storage s) now (last_storage cd)); simpl; auto.
Qed.

Lemma runChecks_spacing (r : Resource) (cs : list Check) :
  forall cd,
    let times := notificationTimes r (snd (runChecks cs cd)) in
    match times with
    | [] => True
    | t :: _ => NOTIFICATION_COOLDOWN <= t - default 0 (lastOf r cd)
    end /\ spaced NOTIFICATION_COOLDOWN times.
Proof.
  induction cs as [|c cs IH]; intros cd; simpl; [done|].
  rewrite notificationTimes_app.
  destruct (checkThresholds_times (k_settings c) (k_now c) (k_cpu c) (k_memory c)
              (k_storage c) cd r) as [Ht Hl].
  rewrite Ht.
  specialize (IH (fst (checkThresholds (k_settings c) (k_now c) (k_cpu c) (k_memory c)
                         (k_storage c) cd))).
  rewrite Hl in IH. simpl in IH.
  set (value := match r with Cpu => k_cpu c | Memory => k_memory c | Storage => k_storage c end)
    in *.
  destruct (th_enabled (k_settings c)); simpl andb in *; cbv iota in *; [|exact IH].
  destruct (due value (thresholdOf r (k_settings c)) (k_now c) (lastOf r cd)) eqn:Hd;
    [|exact IH].
  simpl. destruct IH as [IH1 IH2]. split; [|split; [|exact IH2]].
  - unfold due in Hd. apply andb_true_iff in Hd. destruct Hd as [_ Hd].
    by apply Z.leb_le in Hd.
  - destruct (notificationTimes r (snd (runChecks cs _))); [done|]. simpl in IH1. exact IH1.
Qed.

(** X6. Over any sequence of threshold checks, whatever the settings,
    the percentages and the clock readings of the calls, two
    successive notifications for one resource lie at least five
    minutes apart, and the first lies at least five minutes after the
    timestamp the resource started with. *)
Theorem runChecks_notifications_spaced (r : Resource) (cs : list Check) (cd : Cooldown) :
  spaced NOTIFICATION_COOLDOWN (notificationTimes r (snd (runChecks cs cd))) /\
  match notificationTimes r (snd (runChecks cs cd)) with
  | [] => True
  | t :: _ => NOTIFICATION_COOLDOWN <= t - default 0 (lastOf r cd)
  end.
Proof.
  destruct (runChecks_spacing r cs cd) as [H1 H2]. by split.
Qed.

(** ** Cycles that fail *)

(** X7. A cycle that stores no snapshot requests no notification and
    leaves the notification timestamps as they were.  When the store
    cannot be reached the whole state is left as it was; when only the
    write of the snapshot fails the sampler has already moved on: its
    container timestamp is the time of this cycle. *)
Theorem collectMetrics_failed_cycle (h : Host) (e : Env) (st : CronState) :
  (c_stored (collectMetrics h e st) = None ->
     c_notified (collectMetrics h e st) = [] /\
     lastNotificationTime (c_state (collectMetrics h e st)) = lastNotificationTime st) /\
  (redisConnects h = false ->
     c_stored (collectMetrics h e st) = None /\ c_state (collectMetrics h e st) = st) /\
  (redisStores h = false ->
     c_stored (collectMetrics h e st) = None /\
     forall m, snd (measure h e (sampler st)) = Some m ->
       lastTsContainer (sampler (c_state (collectMetrics h e st))) = dateNow h).
Proof.
  split; [|split].
  - unfold collectMetrics.
    destruct (measure h e (sampler st)) as [s' [m|]]; [|done].
    destruct (redisStores h); [|done].
    by destruct (checkThresholds _ _ _ _ _ _).
  - intros Hc. unfold collectMetrics, measure. rewrite Hc. simpl.
    split; [done|]. by destruct st.
  - intros Hs. unfold collectMetrics. rewrite Hs.
    destruct (measure h e (sampler st)) as [s' [m|]] eqn:Em; simpl; (split; [done|]).
    + intros m' _. revert Em. unfold measure.
      destruct (redisConnects h); simpl; [|done].
      destruct (readMemory h (detectCgroupVersion h)) as [[memLimit memUsage]|]; [|done].
      destruct (readUsageNs h (detectCgroupVersion h)) as [usageNs|]; [|done].
      destruct (listProcessSamples _ _ _ _ _ _) as [prev ps].
      by intros [= <- _].
    + intros m' [=].
Qed.

Lemma collectMetrics_failed_cycle_witness :
  c_state (collectMetrics (unreachableStore bareHost) noEnv startState) = startState /\
  c_notified (collectMetrics (unreachableStore bareHost) noEnv startState) = [].
Proof.
  pose proof (collectMetrics_failed_cycle (unreachableStore bareHost) noEnv startState)
    as (H1 & H2 & _).
  destruct (H2 eq_refl) as [Hn Hs]. split; [exact Hs|].
  exact (proj1 (H1 Hn)).
Defined.

(** ** The container CPU percentage *)

Lemma Qeq_bool_nonzero (x : Q) : ~ (x == 0)%Q -> Qeq_bool x 0 = false.
Proof.
  intros H. destruct (Qeq_bool x 0) eqn:E; [|reflexivity].
  apply Qeq_bool_iff in E. contradiction.
Qed.

Lemma containerCpuPercent_finite (st : SamplerState) (now : Z) (cpuLimit usage last : Q) :
  lastCpuUsageNs st = Finite last ->
  ~ (last == 0)%Q ->
  lastTsContainer st <> 0 ->
  lastTsContainer st < now ->
  containerCpuPercent st (Finite usage) now cpuLimit
  = Finite (clamp100 ((usage - last) / inject_Z ((now - lastTsContainer st) * 1000000)
                      * 100 / Qmax cpuLimit EPSILON)).
Proof.
  intros Hl Hl0 Ht0 Hnow.
  assert (Hpos : (0 < inject_Z ((now - lastTsContainer st) * 1000000))%Q).
  { change 0%Q with (inject_Z 0). rewrite <- Zlt_Qlt. lia. }
  unfold containerCpuPercent. rewrite Hl. simpl Num.truthy.
  assert (E1 : Qeq_bool last 0 = false) by (by apply Qeq_bool_nonzero).
  assert (E2 : (lastTsContainer st =? 0) = false) by (by apply Z.eqb_neq).
  rewrite E1, E2. simpl andb. cbv iota.
  unfold Num.sub, Num.ofZ, Num.div at 2.
  assert (E3 : Qeq_bool (inject_Z ((now - lastTsContainer st) * 1000000)) 0 = false).
  { apply Qeq_bool_nonzero. lra. }
  rewrite E3. unfold Num.mul, Num.div.
  assert (E4 : Qeq_bool (Qmax cpuLimit EPSILON) 0 = false).
  { apply Qeq_bool_nonzero. pose proof (limit_floor_positive cpuLimit). lra. }
  rewrite E4. reflexivity.
Qed.

(** X8. With a previous sample in the state, a finite usage counter
    and a later clock, the container CPU percentage is the growth of
    the counter over the elapsed nanoseconds, as a percentage of the
    CPU limit (at least one millionth of a core), clamped to 0..100; a
    counter that did not grow gives 0. *)
Theorem containerCpuPercent_delta (st : SamplerState) (now : Z) (cpuLimit usage last : Q) :
  lastCpuUsageNs st = Finite last ->
  ~ (last == 0)%Q ->
  lastTsContainer st <> 0 ->
  lastTsContainer st < now ->
  containerCpuPercent st (Finite usage) now cpuLimit
  = Finite (clamp100 ((usage - last) / inject_Z ((now - lastTsContainer st) * 1000000)
                      * 100 / Qmax cpuLimit EPSILON)) /\
  ((usage <= last)%Q ->
   (clamp100 ((usage - last) / inject_Z ((now - lastTsContainer st) * 1000000)
              * 100 / Qmax cpuLimit EPSILON) == 0)%Q).
Proof.
  intros Hl Hl0 Ht0 Hnow.
  assert (Hpos : (0 < inject_Z ((now - lastTsContainer st) * 1000000))%Q).
  { change 0%Q with (inject_Z 0). rewrite <- Zlt_Qlt. lia. }
  split; [by apply containerCpuPercent_finite|].
  intros Hle. unfold clamp100.
  set (x := ((usage - last) / inject_Z ((now - lastTsContainer st) * 1000000)
             * 100 / Qmax cpuLimit EPSILON)%Q).
  assert (Hx : (x <= 0)%Q).
  { unfold x. pose proof (limit_floor_positive cpuLimit) as Hm.
    apply Qle_shift_div_r; [done|]. rewrite Qmult_0_l.
    assert (Hd : ((usage - last) / inject_Z ((now - lastTsContainer st) * 1000000) <= 0)%Q).
    { apply Qle_shift_div_r; [done|]. lra. }
    lra. }
  rewrite (Q.max_l 0 x) by done. apply Q.min_r. lra.
Qed.

Lemma containerCpuPercent_delta_witness :
  Num.toFixed2 (containerCpuPercent warmState (Finite 2100000000) 1700000000000 2) = "1.00".
Proof.
  rewrite (proj1 (containerCpuPercent_delta warmState 1700000000000 2 2100000000 2000000000
                    eq_refl ltac:(discriminate) ltac:(discriminate) eq_refl)).
  reflexivity.
Defined.

(** X9. Two cycles in the same millisecond divide by zero: a counter
    that grew gives 100, one that fell gives 0, and one that stood
    still gives a value that is not a number, which the snapshot
    writes as 0.00 and which never reaches a threshold. *)
Theorem containerCpuPercent_same_instant (st : SamplerState) (cpuLimit usage last : Q)
    (threshold : Q) :
  lastCpuUsageNs st = Finite last ->
  ~ (last == 0)%Q ->
  lastTsContainer st <> 0 ->
  let pct := containerCpuPercent st (Finite usage) (lastTsContainer st) cpuLimit in
  ((last < usage)%Q -> pct = Finite 100) /\
  ((usage < last)%Q -> pct = Finite 0) /\
  ((usage == last)%Q ->
     pct = NaN /\ formatPercent pct = "0.00" /\ Num.geb pct (Finite threshold) = false).
Proof.
  intros Hl Hl0 Ht0 pct.
  assert (Hpct : pct = Num.min (Finite 100) (Num.max (Finite 0)
            (Num.div (Num.mul (Num.infinityTimes true (usage - last)) (Finite 100))
                     (Finite (Qmax cpuLimit EPSILON))))).
  { unfold pct, containerCpuPercent. rewrite Hl. simpl Num.truthy.
    assert (E1 : Qeq_bool last 0 = false) by (by apply Qeq_bool_nonzero).
    assert (E2 : (lastTsContainer st =? 0) = false) by (by apply Z.eqb_neq).
    rewrite E1, E2, Z.sub_diag. reflexivity. }
  assert (Hm : Qle_bool 0 (Qmax cpuLimit EPSILON) = true).
  { apply Qle_bool_iff. pose proof (limit_floor_positive cpuLimit). lra. }
  rewrite Hpct. unfold Num.infinityTimes. split; [|split].
  - intros H. assert (E : (usage - last ?= 0)%Q = Gt) by (rewrite <- Qgt_alt; lra).
    rewrite E. simpl. by rewrite Hm.
  - intros H. assert (E : (usage - last ?= 0)%Q = Lt) by (rewrite <- Qlt_alt; lra).
    rewrite E. simpl. by rewrite Hm.
  - intros H. assert (E : (usage - last ?= 0)%Q = Eq) by (rewrite <- Qeq_alt; lra).
    rewrite E. by simpl.
Qed.

Lemma containerCpuPercent_same_instant_witness :
  containerCpuPercent warmState (Finite 2100000000) 1699999995000 2 = Finite 100 /\
  formatPercent (containerCpuPercent warmState (Finite 2000000000) 1699999995000 2) = "0.00".
Proof.
  pose proof (containerCpuPercent_same_instant warmState 2 2100000000 2000000000 80
                eq_refl ltac:(discriminate) ltac:(discriminate)) as (H1 & _ & _).
  pose proof (containerCpuPercent_same_instant warmState 2 2000000000 2000000000 80
                eq_refl ltac:(discriminate) ltac:(discriminate)) as (_ & _ & H3).
  split; [apply H1; reflexivity|].
  exact (proj1 (proj2 (H3 ltac:(reflexivity)))).
Defined.

(** ** The CPU limit *)

(** X10. The CPU limit is the quotient of a quota and a period that
    are both greater than zero, or else the number of logical CPUs of
    the host; so it is greater than zero whenever the host reports at
    least one CPU. *)
Theorem getCpuLimit_positive (h : Host) (version : CgroupVersion) :
  (getCpuLimit h version = inject_Z (cpus h) \/
   exists quota period, 0 < quota /\ 0 < period /\
     getCpuLimit h version = (inject_Z quota / inject_Z period)%Q) /\
  (0 < cpus h -> (0 < getCpuLimit h version)%Q).
Proof.
  assert (Hq : forall quota period,
             let r := quotaOverPeriod h quota period in
             r = inject_Z (cpus h) \/
             exists q p, 0 < q /\ 0 < p /\ r = (inject_Z q / inject_Z p)%Q).
  { intros [q|] [p|]; simpl; try by left.
    destruct (0 <? q) eqn:Eq, (0 <? p) eqn:Ep; simpl; try by left.
    right. exists q, p. apply Z.ltb_lt in Eq, Ep. by repeat split. }
  assert (Hcase : getCpuLimit h version = inject_Z (cpus h) \/
                  exists quota period, 0 < quota /\ 0 < period /\
                    getCpuLimit h version = (inject_Z quota / inject_Z period)%Q).
  { unfold getCpuLimit. destruct version.
    - apply Hq.
    - destruct (Js.truthy _); [apply Hq|by left]. }
  split; [exact Hcase|]. intros Hc.
  destruct Hcase as [->|(q & p & Hq0 & Hp0 & ->)].
  - change 0%Q with (inject_Z 0). by rewrite <- Zlt_Qlt.
  - apply Qlt_shift_div_l.
    + change 0%Q with (inject_Z 0). by rewrite <- Zlt_Qlt.
    + rewrite Qmult_0_l. change 0%Q with (inject_Z 0). by rewrite <- Zlt_Qlt.
Qed.

Lemma getCpuLimit_positive_witness :
  (0 < getCpuLimit squeezedHost V2)%Q /\ (0 < getCpuLimit bareHost V1)%Q.
Proof.
  split.
  - apply (proj2 (getCpuLimit_positive squeezedHost V2)). reflexivity.
  - apply (proj2 (getCpuLimit_positive bareHost V1)). reflexivity.
Defined.

(** ** Strings *)

Lemma app_String (c : ascii) (s t : string) : String c s +:+ t = String c (s +:+ t).
Proof. reflexivity. Qed.

Lemma app_empty_l (t : string) : "" +:+ t = t.
Proof. reflexivity. Qed.

Lemma app_empty_r (s : string) : s +:+ "" = s.
Proof. induction s as [|c s IH]; [done|]. by rewrite app_String, IH. Qed.

Lemma app_assoc_string (s t u : string) : (s +:+ t) +:+ u = s +:+ (t +:+ u).
Proof. induction s as [|c s IH]; [done|]. by rewrite !app_String, IH. Qed.

Lemma split_app_sep (sep : ascii) (a b : string) :
  freeOf sep a = true ->
  Js.split sep (a +:+ String sep b) = a :: Js.split sep b.
Proof.
  induction a as [|c a IH]; intros Hfree.
  - rewrite app_empty_l. simpl. by rewrite Ascii.eqb_refl.
  - simpl in Hfree. apply andb_true_iff in Hfree. destruct Hfree as [Hc Ha].
    apply negb_true_iff in Hc. rewrite app_String. simpl. rewrite Hc, (IH Ha). done.
Qed.

Lemma split_free (sep : ascii) (a : string) :
  freeOf sep a = true -> Js.split sep a = [a].
Proof.
  induction a as [|c a IH]; intros Hfree; [done|].
  simpl in Hfree. apply andb_true_iff in Hfree. destruct Hfree as [Hc Ha].
  apply negb_true_iff in Hc. simpl. by rewrite Hc, (IH Ha).
Qed.

Lemma allChars_app (f : ascii -> bool) (s t : string) :
  allChars f (s +:+ t) = allChars f s && allChars f t.
Proof.
  induction s as [|c s IH]; [done|].
  rewrite app_String. simpl. by rewrite IH, andb_assoc.
Qed.

Lemma allChars_impl (f g : ascii -> bool) (s : string) :
  (forall c, f c = true -> g c = true) -> allChars f s = true -> allChars g s = true.
Proof.
  intros Hfg. induction s as [|c s IH]; [done|]. simpl.
  rewrite !andb_true_iff. intros [Hc Hs]. split; [by apply Hfg|by apply IH].
Qed.

(** ** Command lines *)

Lemma split_terminated (c : ascii) (parts : list string) :
  Forall (fun a => freeOf c a = true) parts ->
  Js.split c (terminated c parts) = parts ++ [""].
Proof.
  induction 1 as [|a parts Ha _ IH]; [done|].
  simpl. by rewrite split_app_sep, IH.
Qed.

Lemma filter_truthy_app_empty (l : list string) :
  List.filter Js.truthy (l ++ [""]) = List.filter Js.truthy l.
Proof. rewrite List.filter_app. simpl. by rewrite app_nil_r. Qed.

(** X11. For a [cmdline] file that holds the arguments of the process,
    each followed by a NUL character, the command line is the
    arguments that are not empty, joined by single spaces; the short
    name of [comm] is used only when the file is empty or cannot be
    read. *)
Theorem getPidCmdlineFrom_arguments (read : string -> option string) (p : Z)
    (args : list string) :
  Forall (fun a => freeOf "000" a = true) args ->
  (args <> [] ->
   read (procPath p "cmdline") = Some (terminated "000" args) ->
   getPidCmdlineFrom read p = Text.join " " (List.filter Js.truthy args)) /\
  (read (procPath p "cmdline") = Some "" \/ read (procPath p "cmdline") = None ->
   getPidCmdlineFrom read p = getPidCommFrom read p).
Proof.
  intros Hfree. split.
  - intros Hne Hread. unfold getPidCmdlineFrom. rewrite Hread.
    destruct args as [|a args]; [done|].
    assert (Hnonempty : Js.isEmpty (terminated "000" (a :: args)) = false).
    { simpl. by destruct a. }
    rewrite Hnonempty, split_terminated by done.
    by rewrite filter_truthy_app_empty.
  - intros [H|H]; unfold getPidCmdlineFrom; by rewrite H.
Qed.

Lemma getPidCmdlineFrom_arguments_witness :
  getPidCmdlineFrom
    (fun path => if String.eqb path "/proc/42/cmdline"
                 then Some (terminated "000" ["node"; ""; "server.js"; "--port=3000"])
                 else None) 42
  = "node server.js --port=3000".
Proof.
  rewrite (proj1 (getPidCmdlineFrom_arguments _ 42 ["node"; ""; "server.js"; "--port=3000"]
                    ltac:(repeat constructor))); [reflexivity|discriminate|reflexivity].
Defined.

(** ** Fields separated by white space *)

Lemma splitSpaces_nonempty (b : bool) (s : string) : Text.splitSpaces b s <> [].
Proof.
  revert b. induction s as [|c s IH]; intros b; simpl; [done|].
  destruct (Js.isWhiteSpace c).
  - destruct b; [apply IH|done].
  - by destruct (Text.splitSpaces false s).
Qed.

Lemma splitSpaces_char (b : bool) (c : ascii) (s : string) :
  Js.isWhiteSpace c = false ->
  Text.splitSpaces b (String c s)
  = match Text.splitSpaces false s with
    | [] => [String c ""]
    | w :: ws => String c w :: ws
    end.
Proof. intros Hc. simpl. by rewrite Hc. Qed.

(** A word in front joins the first part of what follows. *)
Lemma splitSpaces_word (b : bool) (w s : string) :
  isWord w = true ->
  exists x xs, Text.splitSpaces false s = x :: xs /\
               Text.splitSpaces b (w +:+ s) = (w +:+ x) :: xs.
Proof.
  unfold isWord. rewrite andb_true_iff. intros [Hne Hw].
  destruct w as [|c w]; [done|]. clear Hne. revert c b Hw.
  induction w as [|c' w IH]; intros c b Hw.
  - simpl in Hw. rewrite andb_true_r in Hw. apply negb_true_iff in Hw.
    rewrite app_String, app_empty_l, splitSpaces_char by done.
    destruct (Text.splitSpaces false s) as [|x xs] eqn:E.
    + by apply splitSpaces_nonempty in E.
    + by exists x, xs.
  - simpl in Hw. apply andb_true_iff in Hw. destruct Hw as [Hc Hw].
    apply negb_true_iff in Hc.
    destruct (IH c' false Hw) as (x & xs & E1 & E2).
    exists x, xs. split; [done|].
    rewrite app_String, splitSpaces_char by done. by rewrite E2.
Qed.

(** A run of white space in front of a word opens a new part. *)
Lemma splitSpaces_gap (sep s : string) (c : ascii) :
  allChars Js.isWhiteSpace sep = true ->
  Js.isWhiteSpace c = false ->
  Text.splitSpaces true (sep +:+ String c s) = Text.splitSpaces false (String c s) /\
  (Js.truthy sep = true ->
   Text.splitSpaces false (sep +:+ String c s) = "" :: Text.splitSpaces false (String c s)).
Proof.
  intros Hsep Hc.
  assert (Htrue : forall sep, allChars Js.isWhiteSpace sep = true ->
            Text.splitSpaces true (sep +:+ String c s) = Text.splitSpaces false (String c s)).
  { clear sep Hsep. induction sep as [|a sep IH]; intros Hsep.
    - rewrite app_empty_l. simpl. by rewrite Hc.
    - simpl in Hsep. apply andb_true_iff in Hsep. destruct Hsep as [Ha Hsep].
      rewrite app_String. simpl. rewrite Ha. by apply IH. }
  split; [by apply Htrue|].
  intros Hne. destruct sep as [|a sep]; [done|].
  simpl in Hsep. apply andb_true_iff in Hsep. destruct Hsep as [Ha Hsep].
  rewrite app_String. simpl Text.splitSpaces at 1. rewrite Ha. f_equal. by apply Htrue.
Qed.

Lemma spacedWords_starts (w : string) (rest : list (string * string)) :
  isWord w = true ->
  exists c s, spacedWords w rest = String c s /\ Js.isWhiteSpace c = false.
Proof.
  unfold isWord. rewrite andb_true_iff. intros [Hne Hw].
  destruct w as [|c w]; [done|]. simpl in Hw. apply andb_true_iff in Hw.
  destruct Hw as [Hc _]. apply negb_true_iff in Hc.
  destruct rest as [|[sep w'] rest]; simpl.
  - by exists c, w.
  - rewrite app_String. by eexists _, _.
Qed.

Lemma splitSpaces_spacedWords (rest : list (string * string)) :
  wordsAndGaps rest ->
  forall w, isWord w = true ->
    Text.splitSpaces false (spacedWords w rest) = w :: (snd <$> rest).
Proof.
  induction 1 as [|[sep w'] rest (Hsep & Hne & Hw') _ IH]; intros w Hw; simpl in *.
  - destruct (splitSpaces_word false w "" Hw) as (x & xs & E1 & E2).
    injection E1 as <- <-. rewrite app_empty_r in E2. by rewrite E2.
  - destruct (splitSpaces_word false w (sep +:+ spacedWords w' rest) Hw)
      as (x & xs & E1 & E2).
    rewrite E2. destruct (spacedWords_starts w' rest Hw') as (c & s & Es & Hc).
    pose proof (IH w' Hw') as Hrest.
    rewrite Es in E1, Hrest.
    rewrite (proj2 (splitSpaces_gap sep s c Hsep Hc) Hne), Hrest in E1.
    injection E1 as <- <-. by rewrite app_empty_r.
Qed.

(** ** Trimming *)

Lemma trimEnd_spaces (t : string) :
  allChars Js.isWhiteSpace t = true -> Js.trimEnd t = "".
Proof.
  induction t as [|c t IH]; [done|]. simpl. rewrite andb_true_iff.
  intros [Hc Ht]. by rewrite (IH Ht), Hc.
Qed.

Lemma trimEnd_char (c : ascii) (s : string) :
  Js.isWhiteSpace c = false -> Js.trimEnd (String c s) = String c (Js.trimEnd s).
Proof. intros Hc. simpl. by rewrite Hc. Qed.

Lemma trimEnd_app_kept (s t : string) :
  Js.isEmpty (Js.trimEnd t) = false -> Js.trimEnd (s +:+ t) = s +:+ Js.trimEnd t.
Proof.
  intros Ht. induction s as [|c s IH]; [done|].
  rewrite !app_String. simpl. rewrite IH.
  destruct (s +:+ Js.trimEnd t) as [|c' r] eqn:E.
  - destruct s; [|done]. rewrite app_empty_l in E. by rewrite E in Ht.
  - simpl. by rewrite andb_false_r.
Qed.

Lemma trimEnd_app_spaces (s t : string) :
  allChars Js.isWhiteSpace t = true -> Js.trimEnd (s +:+ t) = Js.trimEnd s.
Proof.
  intros Ht. induction s as [|c s IH].
  - rewrite app_empty_l. by apply trimEnd_spaces.
  - rewrite app_String. simpl. by rewrite IH.
Qed.

Lemma trimEnd_word (w s : string) :
  isWord w = true -> Js.trimEnd (w +:+ s) = w +:+ Js.trimEnd s.
Proof.
  unfold isWord. rewrite andb_true_iff. intros [_ Hw].
  induction w as [|c w IH]; [done|].
  simpl in Hw. apply andb_true_iff in Hw. destruct Hw as [Hc Hw].
  apply negb_true_iff in Hc.
  rewrite !app_String, trimEnd_char by done. by rewrite (IH Hw).
Qed.

Lemma trimEnd_spacedWords (rest : list (string * string)) :
  wordsAndGaps rest ->
  forall w, isWord w = true -> Js.trimEnd (spacedWords w rest) = spacedWords w rest.
Proof.
  induction 1 as [|[sep w'] rest (Hsep & Hne & Hw') _ IH]; intros w Hw; simpl in *.
  - rewrite <- (app_empty_r w) at 1. rewrite trimEnd_word by done. by rewrite app_empty_r.
  - rewrite trimEnd_word by done. f_equal.
    rewrite trimEnd_app_kept; rewrite (IH w' Hw'); [done|].
    destruct (spacedWords_starts w' rest Hw') as (c & s & -> & _). done.
Qed.

Lemma trimStart_spacedWords (w : string) (rest : list (string * string)) (t : string) :
  isWord w = true -> Js.trimStart (spacedWords w rest +:+ t) = spacedWords w rest +:+ t.
Proof.
  intros Hw. destruct (spacedWords_starts w rest Hw) as (c & s & -> & Hc).
  rewrite app_String. simpl. by rewrite Hc.
Qed.

(** A line of words: trimming it with its line feed leaves the line. *)
Lemma trim_spacedWords_line (w : string) (rest : list (string * string)) :
  isWord w = true -> wordsAndGaps rest ->
  Js.trim (spacedWords w rest +:+ String "010" "") = spacedWords w rest.
Proof.
  intros Hw Hrest. unfold Js.trim. rewrite trimStart_spacedWords by done.
  rewrite trimEnd_app_spaces by done. by apply trimEnd_spacedWords.
Qed.

(** ** The [stat] line *)

Lemma lastIndexOf_free (c : ascii) (s : string) :
  freeOf c s = true -> Text.lastIndexOf c s = None.
Proof.
  unfold freeOf. induction s as [|a s IH]; [done|]. simpl. rewrite andb_true_iff.
  intros [Ha Hs]. apply negb_true_iff in Ha. by rewrite (IH Hs), Ha.
Qed.

Lemma lastIndexOf_last (c : ascii) (pre rest : string) :
  freeOf c rest = true ->
  Text.lastIndexOf c (pre +:+ String c rest) = Some (String.length pre).
Proof.
  intros Hfree. induction pre as [|a pre IH].
  - rewrite app_empty_l. simpl. by rewrite lastIndexOf_free, Ascii.eqb_refl.
  - rewrite app_String. simpl. by rewrite IH.
Qed.

Lemma slice_app (pre s : string) (k : nat) :
  Text.slice (String.length pre + k) (pre +:+ s) = Text.slice k s.
Proof. induction pre as [|a pre IH]; [done|]. rewrite app_String. simpl. exact IH. Qed.

Lemma parseStat_fields (pre : string) (c0 : ascii) (state : string)
    (rest : list (string * string)) :
  isWord state = true ->
  wordsAndGaps rest ->
  freeOf ")" (String c0 (spacedWords state rest)) = true ->
  parseStat (pre +:+ String ")" (String c0 (spacedWords state rest +:+ String "010" "")))
  = Some (Text.orZero (parseNth (state :: (snd <$> rest)) 11 (Some 10))
          + Text.orZero (parseNth (state :: (snd <$> rest)) 12 (Some 10)),
          Text.orZero (parseNth (state :: (snd <$> rest)) 1 (Some 10))).
Proof.
  intros Hstate Hrest Hfree. unfold parseStat.
  rewrite lastIndexOf_last.
  - rewrite slice_app. simpl Text.slice.
    rewrite trim_spacedWords_line, splitSpaces_spacedWords by done. done.
  - unfold freeOf in *. simpl in Hfree. simpl.
    apply andb_true_iff in Hfree. destruct Hfree as [H0 Hf].
    rewrite H0, allChars_app, Hf. reflexivity.
Qed.

(** X12. Whatever stands before the last closing parenthesis of the
    [stat] file of a process, be it a command name with spaces or
    parentheses of its own, the fields are counted after it: the parent
    is the second field and the ticks are the sum of the twelfth and
    the thirteenth, a field that is missing or not a number counting as
    0.  A file without a closing parenthesis, and one that cannot be
    read, give no times at all. *)
Theorem getPidTimesAndPpidFrom_after_last_paren (read : string -> option string) (p : Z)
    (pre : string) (c0 : ascii) (state : string) (rest : list (string * string)) :
  isWord state = true ->
  wordsAndGaps rest ->
  freeOf ")" (String c0 (spacedWords state rest)) = true ->
  let fields := state :: (snd <$> rest) in
  (read (procPath p "stat")
   = Some (pre +:+ String ")" (String c0 (spacedWords state rest +:+ String "010" ""))) ->
   getPidTimesAndPpidFrom read p
   = Some (Text.orZero (parseNth fields 11 (Some 10))
           + Text.orZero (parseNth fields 12 (Some 10)),
           Text.orZero (parseNth fields 1 (Some 10)))) /\
  (forall stat, read (procPath p "stat") = Some stat -> freeOf ")" stat = true ->
     getPidTimesAndPpidFrom read p = None) /\
  (read (procPath p "stat") = None -> getPidTimesAndPpidFrom read p = None).
Proof.
  intros Hstate Hrest Hfree fields. unfold getPidTimesAndPpidFrom. split; [|split].
  - intros ->. by apply parseStat_fields.
  - intros stat -> Hstat. unfold parseStat. by rewrite lastIndexOf_free.
  - by intros ->.
Qed.

Lemma getPidTimesAndPpidFrom_after_last_paren_witness :
  getPidTimesAndPpidFrom
    (fun path =>
       if String.eqb path "/proc/4242/stat"
       then Some ("4242 (tmux: server (1)" +:+ String ")" (String " "
              (spacedWords "S" [(" ", "1"); (" ", "4242"); (" ", "4242"); (" ", "0");
                                (" ", "-1"); (" ", "4194560"); (" ", "1200"); (" ", "0");
                                (" ", "3"); (" ", "0"); (" ", "250"); (" ", "75");
                                (" ", "0"); (" ", "0")]
               +:+ String "010" "")))
       else None) 4242
  = Some (325, 1).
Proof.
  rewrite (proj1 (getPidTimesAndPpidFrom_after_last_paren _ 4242
                    "4242 (tmux: server (1)" " " "S"
                    [(" ", "1"); (" ", "4242"); (" ", "4242"); (" ", "0");
                     (" ", "-1"); (" ", "4194560"); (" ", "1200"); (" ", "0");
                     (" ", "3"); (" ", "0"); (" ", "250"); (" ", "75");
                     (" ", "0"); (" ", "0")]
                    eq_refl ltac:(repeat constructor) eq_refl));
    reflexivity.
Defined.

(** ** The output of [df] *)

Lemma word_free_of_line_feed (w : string) : isWord w = true -> freeOf "010" w = true.
Proof.
  unfold isWord, freeOf. rewrite andb_true_iff. intros [_ Hw].
  eapply allChars_impl; [|exact Hw]. intros c Hc.
  destruct (Ascii.eqb c "010") eqn:E; [|done].
  apply Ascii.eqb_eq in E. subst c. done.
Qed.

Lemma gap_free_of_line_feed (g : string) : isGap g = true -> freeOf "010" g = true.
Proof.
  unfold isGap, freeOf. rewrite andb_true_iff. intros [_ Hg].
  eapply allChars_impl; [|exact Hg]. intros c Hc.
  apply andb_true_iff in Hc. tauto.
Qed.

Lemma gap_is_space_run (g : string) :
  isGap g = true -> allChars Js.isWhiteSpace g = true /\ Js.truthy g = true.
Proof.
  unfold isGap. rewrite andb_true_iff. intros [Hne Hg]. split; [|done].
  eapply allChars_impl; [|exact Hg]. intros c Hc. apply andb_true_iff in Hc. tauto.
Qed.

Lemma gaps_are_space_runs (rest : list (string * string)) :
  Forall (fun gw => isGap (fst gw) = true /\ isWord (snd gw) = true) rest ->
  wordsAndGaps rest.
Proof.
  intros H. eapply Forall_impl; [exact H|]. intros [g w] [Hg Hw]. simpl in *.
  destruct (gap_is_space_run g Hg). by repeat split.
Qed.

Lemma spacedWords_free_of_line_feed (rest : list (string * string)) :
  Forall (fun gw => isGap (fst gw) = true /\ isWord (snd gw) = true) rest ->
  forall w, isWord w = true -> freeOf "010" (spacedWords w rest) = true.
Proof.
  induction 1 as [|[g w'] rest [Hg Hw'] _ IH]; intros w Hw; simpl in *.
  - by apply word_free_of_line_feed.
  - pose proof (word_free_of_line_feed w Hw) as H1.
    pose proof (gap_free_of_line_feed g Hg) as H2.
    pose proof (IH w' Hw') as H3.
    unfold freeOf in *. rewrite !allChars_app. by rewrite H1, H2, H3.
Qed.

Lemma allChars_trimEnd (f : ascii -> bool) (s : string) :
  allChars f s = true -> allChars f (Js.trimEnd s) = true.
Proof.
  induction s as [|c s IH]; [done|]. simpl. rewrite andb_true_iff. intros [Hc Hs].
  destruct (Js.isWhiteSpace c && Js.isEmpty (Js.trimEnd s)); [done|].
  simpl. by rewrite Hc, IH.
Qed.

(** X13. For an output of [df -k] made of a header line and a line of
    columns separated by runs of blanks, [getDf] reads the second and
    third column of that line as kilobytes and returns them as bytes;
    it returns nothing when one of them is not a number, when the
    output has the header alone, and when the command fails. *)
Theorem parseDf_columns (c : ascii) (header device total used : string)
    (gap1 gap2 : string) (more : list (string * string)) :
  Js.isWhiteSpace c = false ->
  freeOf "010" (String c header) = true ->
  isWord device = true -> isWord total = true -> isWord used = true ->
  isGap gap1 = true -> isGap gap2 = true ->
  Forall (fun gw => isGap (fst gw) = true /\ isWord (snd gw) = true) more ->
  parseDf (Some (String c header +:+ String "010"
                   (spacedWords device ((gap1, total) :: (gap2, used) :: more)
                    +:+ String "010" "")))
  = match Js.parseInt total None, Js.parseInt used None with
    | Some totalKB, Some usedKB => Some (totalKB * 1024, usedKB * 1024)
    | _, _ => None
    end /\
  parseDf (Some (String c header +:+ String "010" "")) = None /\
  parseDf None = None.
Proof.
  intros Hc Hheader Hdev Htot Hused Hg1 Hg2 Hmore.
  set (rest := (gap1, total) :: (gap2, used) :: more).
  assert (Hrest : Forall (fun gw => isGap (fst gw) = true /\ isWord (snd gw) = true) rest).
  { unfold rest. by repeat constructor. }
  pose proof (gaps_are_space_runs rest Hrest) as Hwg.
  set (line := spacedWords device rest).
  assert (Hline : Js.trimEnd line = line) by (by apply trimEnd_spacedWords).
  assert (Hstart : exists c' s', line = String c' s').
  { destruct (spacedWords_starts device rest Hdev) as (c' & s' & E & _). by exists c', s'. }
  split; [|split; [|done]].
  - unfold parseDf.
    assert (Htrim : Js.trim (String c header +:+ String "010" (line +:+ String "010" ""))
                    = String c header +:+ String "010" line).
    { unfold Js.trim. rewrite app_String. simpl Js.trimStart. rewrite Hc.
      rewrite <- app_String.
      change (String "010" (line +:+ String "010" ""))
        with (String "010" line +:+ String "010" "").
      rewrite <- app_assoc_string, trimEnd_app_spaces by done.
      rewrite trimEnd_app_kept.
      - f_equal. destruct Hstart as (c' & s' & E).
        simpl. rewrite Hline, E. reflexivity.
      - destruct Hstart as (c' & s' & E). simpl. rewrite Hline, E. reflexivity. }
    rewrite Htrim, split_app_sep by done.
    rewrite split_free by (by apply spacedWords_free_of_line_feed).
    simpl length. simpl Nat.ltb. cbv iota. simpl lookup. simpl default.
    unfold line. rewrite splitSpaces_spacedWords by done. reflexivity.
  - unfold parseDf, Js.trim. rewrite app_String. simpl Js.trimStart. rewrite Hc.
    rewrite <- app_String, trimEnd_app_spaces by done.
    rewrite split_free; [done|]. by apply allChars_trimEnd.
Qed.

Lemma parseDf_columns_witness :
  parseDf (Some ("Filesystem     1K-blocks    Used Available Use% Mounted on" +:+ String "010"
                   (spacedWords "overlay" [("      ", "61255492"); (" ", "9611248");
                                           ("  ", "48500132"); ("  ", "17%"); (" ", "/")]
                    +:+ String "010" "")))
  = Some (61255492 * 1024, 9611248 * 1024).
Proof.
  assert (Hmore : Forall (fun gw => isGap (fst gw) = true /\ isWord (snd gw) = true)
                    [("  ", "48500132"); ("  ", "17%"); (" ", "/")])
    by (repeat constructor).
  exact (proj1 (parseDf_columns "F"
                  "ilesystem     1K-blocks    Used Available Use% Mounted on"
                  "overlay" "61255492" "9611248" "      " " "
                  [("  ", "48500132"); ("  ", "17%"); (" ", "/")]
                  eq_refl eq_refl eq_refl eq_refl eq_refl eq_refl eq_refl Hmore)).
Defined.

(** ** The body template *)

Lemma renderFrom_skip (value : string -> option string) (x s : string) (k : nat) :
  renderFrom value (String.length x + k) (x +:+ s) = renderFrom value k s.
Proof. induction x as [|c x IH]; [done|]. rewrite app_String. simpl. exact IH. Qed.

Lemma takeWhile_app_stop (f : ascii -> bool) (x : string) (c : ascii) (s : string) :
  allChars f x = true -> f c = false ->
  takeWhile f (x +:+ String c s) = x /\ dropWhile f (x +:+ String c s) = String c s.
Proof.
  intros Hx Hc. induction x as [|a x IH].
  - rewrite app_empty_l. simpl. by rewrite Hc.
  - simpl in Hx. apply andb_true_iff in Hx. destruct Hx as [Ha Hx].
    rewrite app_String. simpl. rewrite Ha. destruct (IH Hx) as [-> ->]. done.
Qed.

Lemma placeholderAt_key (key b : string) :
  isKey key = true ->
  placeholderAt ("{{" +:+ key +:+ "}}" +:+ b) = Some (key, b).
Proof.
  unfold isKey. rewrite andb_true_iff. intros [Hne Hkey].
  unfold placeholderAt.
  change (dropPrefix "{{" ("{{" +:+ key +:+ "}}" +:+ b)) with (Some (key +:+ "}}" +:+ b)).
  change ("}}" +:+ b) with (String "}" (String "}" b)).
  destruct (takeWhile_app_stop Text.isWordChar key "}" (String "}" b) Hkey eq_refl)
    as [-> ->].
  simpl. by rewrite Hne.
Qed.

Lemma placeholderAt_opens (s key rest : string) :
  placeholderAt s = Some (key, rest) -> opensPlaceholder s = true.
Proof.
  unfold placeholderAt, opensPlaceholder.
  destruct (dropPrefix "{{" s) as [s'|]; [|done].
  destruct (dropPrefix "}}" (dropWhile Text.isWordChar s')) as [r|]; [|done].
  destruct s' as [|c s']; [done|]. simpl.
  by destruct (Text.isWordChar c).
Qed.

(** The text that may follow: nothing, or two opening braces. *)
Lemma dropPrefix_braces (c1 c2 : ascii) (s : string) :
  dropPrefix "{{" (String c1 (String c2 s))
  = if Ascii.eqb "{" c1 && Ascii.eqb "{" c2 then Some s else None.
Proof. cbn [dropPrefix]. by destruct (Ascii.eqb "{" c1), (Ascii.eqb "{" c2). Qed.

Lemma dropPrefix_braces_short (c1 : ascii) :
  dropPrefix "{{" (String c1 "") = None.
Proof. cbn [dropPrefix]. by destruct (Ascii.eqb "{" c1). Qed.

Lemma opensPlaceholder_within (a rest : string) :
  a <> "" ->
  rest = "" \/ (exists r, rest = String "{" (String "{" r)) ->
  opensPlaceholder (a +:+ rest) = true -> opensPlaceholder a = true.
Proof.
  intros Ha Hrest. unfold opensPlaceholder.
  destruct a as [|c1 [|c2 [|c3 a]]]; [done| | |].
  - rewrite app_String, app_empty_l.
    destruct Hrest as [->|(r & ->)].
    + by rewrite dropPrefix_braces_short.
    + rewrite dropPrefix_braces. destruct (Ascii.eqb "{" c1 && Ascii.eqb "{" "{"); [|done].
      by destruct r.
  - rewrite !app_String, app_empty_l, !dropPrefix_braces.
    destruct (Ascii.eqb "{" c1 && Ascii.eqb "{" c2); [|done].
    by destruct Hrest as [->|(r & ->)].
  - rewrite !app_String, !dropPrefix_braces.
    by destruct (Ascii.eqb "{" c1 && Ascii.eqb "{" c2).
Qed.

Lemma quiet_cons (c : ascii) (s : string) :
  quiet (String c s) = negb (opensPlaceholder (String c s)) && quiet s.
Proof. reflexivity. Qed.

Lemma renderFrom_quiet (value : string -> option string) (a rest : string) :
  quiet a = true ->
  rest = "" \/ (exists r, rest = String "{" (String "{" r)) ->
  renderFrom value 0 (a +:+ rest) = a +:+ renderFrom value 0 rest.
Proof.
  intros Hq Hrest. induction a as [|c a IH]; [done|].
  rewrite quiet_cons in Hq. apply andb_true_iff in Hq. destruct Hq as [Hopen Hq].
  apply negb_true_iff in Hopen.
  rewrite !app_String.
  assert (Hnone : placeholderAt (String c (a +:+ rest)) = None).
  { destruct (placeholderAt (String c (a +:+ rest))) as [[key r]|] eqn:E; [|done].
    apply placeholderAt_opens in E. rewrite <- app_String in E.
    apply opensPlaceholder_within in E; [congruence|done|done]. }
  change (renderFrom value 0 (String c (a +:+ rest)))
    with (match placeholderAt (String c (a +:+ rest)) with
          | Some (key, _) =>
              default ("{{" +:+ key +:+ "}}") (value key)
              +:+ renderFrom value (String.length key + 3) (a +:+ rest)
          | None => String c (renderFrom value 0 (a +:+ rest))
          end).
  rewrite Hnone. by rewrite (IH Hq).
Qed.

(** X15. Rendering a body template copies the text up to a placeholder
    unchanged, puts the value of the placeholder's key in its place,
    or leaves the placeholder as written when the payload has no such
    key, and goes on after it: a value is never searched for
    placeholders again.  A text in which no two opening braces are
    followed by a word character comes out as it went in. *)
Theorem render_placeholder (value : string -> option string) (a key b : string) :
  quiet a = true ->
  isKey key = true ->
  render value (a +:+ "{{" +:+ key +:+ "}}" +:+ b)
  = a +:+ default ("{{" +:+ key +:+ "}}") (value key) +:+ render value b /\
  render value a = a.
Proof.
  intros Hq Hkey. unfold render. split.
  - rewrite renderFrom_quiet by (try done; right; by eexists).
    f_equal.
    change ("{{" +:+ key +:+ "}}" +:+ b)
      with (String "{" (String "{" (key +:+ "}}" +:+ b))).
    change (renderFrom value 0 (String "{" (String "{" (key +:+ "}}" +:+ b))))
      with (match placeholderAt (String "{" (String "{" (key +:+ "}}" +:+ b))) with
            | Some (key', _) =>
                default ("{{" +:+ key' +:+ "}}") (value key')
                +:+ renderFrom value (String.length key' + 3)
                      (String "{" (key +:+ "}}" +:+ b))
            | None => String "{" (renderFrom value 0 (String "{" (key +:+ "}}" +:+ b)))
            end).
    change (String "{" (String "{" (key +:+ "}}" +:+ b)))
      with ("{{" +:+ key +:+ "}}" +:+ b) at 1.
    rewrite placeholderAt_key by done. f_equal.
    replace (String.length key + 3)%nat with (S (String.length key + 2)) by lia.
    change (renderFrom value (S (String.length key + 2)) (String "{" (key +:+ "}}" +:+ b)))
      with (renderFrom value (String.length key + 2) (key +:+ "}}" +:+ b)).
    rewrite renderFrom_skip. reflexivity.
  - rewrite <- (app_empty_r a) at 1. rewrite renderFrom_quiet by (try done; by left).
    by rewrite app_empty_r.
Qed.

Lemma render_placeholder_witness :
  render messageOnly
    (("{" +:+ dq +:+ "text" +:+ dq +:+ ":" +:+ dq) +:+ "{{" +:+ "message" +:+ "}}"
     +:+ (" {{unknown}}" +:+ dq +:+ "}"))
  = "{" +:+ dq +:+ "text" +:+ dq +:+ ":" +:+ dq
    +:+ "CPU usage (85.0%) has exceeded the threshold of 80% {{unknown}}" +:+ dq +:+ "}".
Proof.
  rewrite (proj1 (render_placeholder messageOnly ("{" +:+ dq +:+ "text" +:+ dq +:+ ":" +:+ dq)
                    "message" (" {{unknown}}" +:+ dq +:+ "}") eq_refl eq_refl)).
  reflexivity.
Defined.

(** ** The request *)

(** X16. The request of a webhook carries a body exactly when the
    rendered template is not empty and the method is POST, PUT or
    PATCH, and the body is the rendered template.  Exactly then the
    headers are touched: [Content-Type] is set, to the value configured
    when there is one and it is not empty, and to [application/json]
    when none is configured or the one configured is empty.  Without a
    body the headers are the configured ones, with or without a
    [Content-Type]; so it is for every GET.  Every other header is
    passed on as configured in both cases. *)
Theorem buildRequest_body_and_headers (config : WebhookConfig)
    (value : string -> option string) :
  let req := buildRequest config value in
  let body := render value (w_body config) in
  let configured := w_headers config !! "Content-Type" in
  (forall k, k <> "Content-Type" -> q_headers req !! k = w_headers config !! k) /\
  (is_Some (q_body req) <-> body <> "" /\ w_method config <> GET) /\
  (is_Some (q_body req) ->
     q_body req = Some body /\
     q_headers req
     = <[ "Content-Type" := match configured with
                            | Some (String c ct) => String c ct
                            | Some "" | None => "application/json"
                            end ]> (w_headers config)) /\
  (q_body req = None -> q_headers req = w_headers config) /\
  (w_method config = GET -> q_body req = None).
Proof.
  intros req body configured. unfold req, buildRequest. fold body. simpl.
  assert (Hcarries : Js.truthy body && allowsBody (w_method config) = true
                     <-> body <> "" /\ w_method config <> GET).
  { rewrite andb_true_iff. split.
    - intros [Hb Hm]. split; [by intros E; rewrite E in Hb|by intros E; rewrite E in Hm].
    - intros [Hb Hm]. split; [by destruct body|by destruct (w_method config)]. }
  destruct (Js.truthy body && allowsBody (w_method config)) eqn:E.
  - split; [by intros k Hk; rewrite lookup_insert_ne|].
    split; [split; [intros _; by apply Hcarries|by eexists]|].
    split.
    + intros _. split; [done|]. fold configured. unfold Js.orElse.
      by destruct configured as [[|c ct]|].
    + split; [done|]. intros Hget. apply proj1 in Hcarries.
      destruct (Hcarries eq_refl) as [_ Hm]. done.
  - split; [done|]. split.
    + split; [by intros [? [=]]|]. intros H. apply Hcarries in H. done.
    + split; [by intros [? [=]]|]. done.
Qed.

Lemma buildRequest_body_and_headers_witness :
  q_body (buildRequest {| w_id := "1"; w_name := "ops"; w_url := "http://hooks.example/a";
                          w_method := GET; w_headers := {[ "X-Token" := "s3" ]};
                          w_body := "{{message}}"; w_enabled := true |} messageOnly) = None /\
  q_headers (buildRequest sampleConfig messageOnly) !! "X-Token"
  = w_headers sampleConfig !! "X-Token" /\
  q_headers (buildRequest sampleConfig messageOnly)
  = <[ "Content-Type" := "application/json" ]> (w_headers sampleConfig).
Proof.
  split; [|split].
  - apply (proj2 (proj2 (proj2 (proj2 (buildRequest_body_and_headers
             {| w_id := "1"; w_name := "ops"; w_url := "http://hooks.example/a";
                w_method := GET; w_headers := {[ "X-Token" := "s3" ]};
                w_body := "{{message}}"; w_enabled := true |} messageOnly))))).
    reflexivity.
  - apply (proj1 (buildRequest_body_and_headers sampleConfig messageOnly)). discriminate.
  - apply (proj1 (proj2 (proj2 (buildRequest_body_and_headers sampleConfig messageOnly)))).
    by eexists.
Defined.

(** ** Notifications and their history *)

Lemma historyStep_reads (history : list WebhookHistoryEntry) (tasks : list Task)
    (i : nat) (e : WebhookHistoryEntry) :
  tasks !! i = Some (Pending e) ->
  historyStep (history, tasks) (Reads i) = (history, <[ i := Holding e history ]> tasks).
Proof. intros H. unfold historyStep. cbn [fst snd]. by rewrite H. Qed.

Lemma historyStep_writes (history : list WebhookHistoryEntry) (tasks : list Task)
    (i : nat) (e : WebhookHistoryEntry) (read : list WebhookHistoryEntry) :
  tasks !! i = Some (Holding e read) ->
  historyStep (history, tasks) (Writes i)
  = (addWebhookHistory true e read, <[ i := Written ]> tasks).
Proof. intros H. unfold historyStep. cbn [fst snd]. by rewrite H. Qed.

Section History.

Context (stored entries : list WebhookHistoryEntry).

Local Abbreviation sound := (sound stored entries).

Lemma sound_start : sound (stored, Pending <$> entries).
Proof.
  unfold sound. cbn [fst snd].
  split; [by rewrite length_fmap|]. split; [|split].
  - apply Forall_forall. intros e He. by left.
  - apply Forall_fmap, Forall_forall. by intros e He.
  - left. split; [done|]. apply Forall_fmap, Forall_forall. by intros e He.
Qed.

Lemma sound_step (state : list WebhookHistoryEntry * list Task) (ev : Event) :
  sound state -> sound (historyStep state ev).
Proof.
  destruct state as [history tasks]. intros (Hlen & Hhist & Htasks & Hhead).
  unfold sound in *. cbn [fst snd] in *.
  destruct ev as [i|i]; unfold historyStep; cbn [fst snd].
  - destruct (tasks !! i) as [[e|e read|]|] eqn:E; cbn [fst snd]; try done.
    pose proof (Forall_lookup_1 _ _ _ _ Htasks E) as He. cbn beta iota in He.
    split; [by rewrite length_insert|]. split; [done|]. split.
    + apply Forall_insert; [done|by split].
    + destruct Hhead as [[Hs Hnone]|Hhead]; [|by right].
      left. split; [done|]. by apply Forall_insert.
  - destruct (tasks !! i) as [[e|e read|]|] eqn:E; cbn [fst snd]; try done.
    pose proof (Forall_lookup_1 _ _ _ _ Htasks E) as [He Hread].
    split; [by rewrite length_insert|]. split; [|split].
    + unfold addWebhookHistory. apply Forall_take. constructor; [by right|done].
    + by apply Forall_insert.
    + right. split.
      * unfold addWebhookHistory. rewrite length_take. lia.
      * exists e. split; [done|]. done.
Qed.

Lemma sound_run (events : list Event) : sound (runHistory events stored entries).
Proof.
  unfold runHistory. generalize sound_start.
  generalize (stored, Pending <$> entries).
  induction events as [|ev events IH]; intros state Hs; [done|].
  simpl. by apply IH, sound_step.
Qed.

(** Executions that reach the store one after the other add their
    entries in that order. *)
Lemma serial_run (order : list nat) :
  NoDup order ->
  forall history tasks,
    (forall i, i ∈ order -> exists e, tasks !! i = Some (Pending e) /\ entries !! i = Some e) ->
    fst (foldl historyStep (history, tasks) (oneAfterTheOther order))
    = addAll (pick entries order) history.
Proof.
  induction 1 as [|i order Hi Hnd IH]; intros history tasks Hpending; [done|].
  destruct (Hpending i) as (e & Ht & He); [by left|].
  unfold oneAfterTheOther, pick. cbn [mbind list_bind omap list_omap app foldl].
  rewrite (historyStep_reads _ _ _ e) by done.
  rewrite (historyStep_writes _ _ _ e history)
    by (apply list_lookup_insert_eq; by eapply lookup_lt_Some).
  rewrite He. unfold addAll. cbn [foldl].
  apply (IH (addWebhookHistory true e history)).
  intros j Hj. destruct (Hpending j) as (ej & Htj & Hej); [by right|].
  exists ej. split; [|done].
  assert (Hne : i ≠ j) by (by intros ->).
  by rewrite !list_lookup_insert_ne.
Qed.

End History.

(** X17. A notification starts one execution for each enabled
    webhook, in the order of the configuration, each with the reason of
    the notification, and none when threshold alerts are switched off
    or [getAdminSettings] falls back to the defaults.  Each execution
    hands its entry to the history when its own request has ended, so
    the history follows the order in which the executions reach the
    store, not the configuration: when they reach it one after the
    other the history is what adding their entries in that order
    gives.  When two of them have both read the history before either
    writes, the entry of the one that writes first is lost.  Whatever
    the order of reads and writes, the history holds nothing but what
    it held and entries of this notification, and once every execution
    has written it begins with one of these entries and holds at most
    100. *)
Theorem sendWebhookNotification_history (settings : AdminSettings) (r : Resource)
    (currentValue : number) (fetch : nat -> FetchResult) (readings : nat -> Readings)
    (stored : list WebhookHistoryEntry) :
  let started := sendWebhookNotification settings r currentValue in
  let entries := entriesOf fetch readings started in
  (targetOf <$> entries
   = (fun w => (w_name w, w_url w, w_method w))
     <$> (if th_enabled (s_thresholds settings)
          then List.filter w_enabled (s_webhooks settings) else []) /\
   Forall (fun e => e_reason e = reasonOf r currentValue) entries) /\
  (forall parse held,
     held = None \/ held = Some None \/
     (exists data, held = Some (Some data) /\ parse data = None) ->
     sendWebhookNotification (getAdminSettings parse held) r currentValue = []) /\
  (forall order,
     NoDup order -> Forall (fun i => (i < length entries)%nat) order ->
     fst (runHistory (oneAfterTheOther order) stored entries)
     = addAll (pick entries order) stored) /\
  (forall i j ei ej,
     i <> j -> entries !! i = Some ei -> entries !! j = Some ej ->
     fst (runHistory [Reads i; Reads j; Writes i; Writes j] stored entries)
     = addWebhookHistory true ej stored) /\
  (forall events,
     let final := runHistory events stored entries in
     Forall (fun e => e ∈ stored \/ e ∈ entries) (fst final) /\
     (entries <> [] -> Forall (fun t => t = Written) (snd final) ->
        (length (fst final) <= MAX_HISTORY_ENTRIES)%nat /\
        exists e, e ∈ entries /\ head (fst final) = Some e)).
Proof.
  intros started entries.
  split; [|split; [|split; [|split]]].
  - split.
    + unfold entries, entriesOf. rewrite fmap_imap.
      unfold started, sendWebhookNotification.
      destruct (th_enabled (s_thresholds settings)); [|done]. cbn [negb].
      rewrite imap_fmap, <- (imap_const (fun w => (w_name w, w_url w, w_method w))).
      apply imap_ext. intros i w _. unfold targetOf. simpl. by destruct (fetch i).
    + apply Forall_forall. intros e He. apply list_elem_of_lookup_1 in He.
      destruct He as [i He]. unfold entries, entriesOf in He.
      rewrite list_lookup_imap in He.
      destruct (started !! i) as [x|] eqn:Ex; [|done]. injection He as <-.
      apply list_elem_of_lookup_2 in Ex. unfold started, sendWebhookNotification in Ex.
      destruct (th_enabled (s_thresholds settings)); [|by apply elem_of_nil in Ex].
      apply list_elem_of_fmap in Ex. destruct Ex as (w & -> & _).
      simpl. by destruct (fetch i).
  - intros parse held [->|[->|(data & -> & Hp)]]; [done|done|].
    unfold getAdminSettings. rewrite Hp. by destruct (Js.truthy data).
  - intros order Hnd Horder. unfold runHistory. apply serial_run; [done|].
    intros i Hi. rewrite Forall_forall in Horder. apply Horder in Hi.
    apply lookup_lt_is_Some_2 in Hi. destruct Hi as [e He]. exists e.
    split; [|done]. by rewrite list_lookup_fmap, He.
  - intros i j ei ej Hne Hi Hj. unfold runHistory. cbn [foldl].
    assert (Hli : (i < length (Pending <$> entries))%nat)
      by (rewrite length_fmap; by eapply lookup_lt_Some).
    assert (Hlj : (j < length (Pending <$> entries))%nat)
      by (rewrite length_fmap; by eapply lookup_lt_Some).
    rewrite (historyStep_reads _ _ _ ei) by (by rewrite list_lookup_fmap, Hi).
    rewrite (historyStep_reads _ _ _ ej)
      by (by rewrite list_lookup_insert_ne, list_lookup_fmap, Hj).
    rewrite (historyStep_writes _ _ _ ei stored)
      by (rewrite list_lookup_insert_ne by done; by apply list_lookup_insert_eq).
    rewrite (historyStep_writes _ _ _ ej stored)
      by (rewrite list_lookup_insert_ne by done; apply list_lookup_insert_eq;
          by rewrite length_insert).
    done.
  - intros events final.
    destruct (sound_run stored entries events) as (Hlen & Hhist & _ & Hhead).
    fold final in Hlen, Hhist, Hhead. split; [done|].
    intros Hne Hall. destruct Hhead as [[_ Hnone]|Hhead]; [|done].
    exfalso. destruct (snd final) as [|t tasks] eqn:E.
    + destruct entries; [done|]. simpl in Hlen. lia.
    + apply Forall_cons in Hall, Hnone. destruct Hall as [-> _], Hnone as [Hn _]. done.
Qed.

Lemma sendWebhookNotification_history_witness :
  let settings := {| s_thresholds := sampleThresholds;
                     s_webhooks := [sampleConfig;
                                    {| w_id := "2"; w_name := "off"; w_url := "http://x";
                                       w_method := GET; w_headers := ∅; w_body := "";
                                       w_enabled := false |};
                                    {| w_id := "3"; w_name := "pager";
                                       w_url := "http://pager.example/in";
                                       w_method := POST; w_headers := ∅; w_body := "{}";
                                       w_enabled := true |}] |} in
  let fetch := fun i : nat => match i with O => Responded 200 | _ => Rejected "timeout" end in
  let entries := entriesOf fetch (fun _ => sampleReadings)
                   (sendWebhookNotification settings Cpu (Finite 85)) in
  (fst ∘ fst) <$> (targetOf <$> entries) = ["ops"; "pager"] /\
  e_webhookName <$> fst (runHistory (oneAfterTheOther [1; 0]%nat) [] entries)
  = ["ops"; "pager"] /\
  e_webhookName <$> fst (runHistory [Reads 0; Reads 1; Writes 0; Writes 1] [] entries)
  = ["pager"].
Proof.
  intros settings fetch entries.
  pose proof (sendWebhookNotification_history settings Cpu (Finite 85) fetch
                (fun _ => sampleReadings) [])
    as ((Htargets & _) & _ & Hserial & Hlost & _).
  fold entries in Htargets, Hserial, Hlost.
  split; [|split].
  - rewrite Htargets. reflexivity.
  - rewrite (Hserial [1; 0]%nat).
    + reflexivity.
    + apply (bool_decide_unpack _). vm_compute. exact I.
    + repeat constructor.
  - destruct (entries !! 0%nat) as [e0|] eqn:E0; [|discriminate E0].
    destruct (entries !! 1%nat) as [e1|] eqn:E1; [|discriminate E1].
    rewrite (Hlost 0%nat 1%nat e0 e1 ltac:(done) E0 E1).
    injection E1 as <-. reflexivity.
Defined.

Lemma take_cons_take (n : nat) (e : WebhookHistoryEntry) (l : list WebhookHistoryEntry) :
  take (S n) (e :: take (S n) l) = take (S n) (e :: l).
Proof. simpl. f_equal. rewrite take_take. f_equal. lia. Qed.

(** X18. After any number of entries were added to an empty history,
    every write succeeding, the history holds the 100 entries added
    last, the newest first; adding to any history puts the new entry
    in front, keeps the others in their order and never leaves more
    than 100; a failed write changes nothing. *)
Theorem addWebhookHistory_keeps_latest (es : list WebhookHistoryEntry)
    (entry : WebhookHistoryEntry) (history : list WebhookHistoryEntry) :
  addAll es [] = take MAX_HISTORY_ENTRIES (reverse es) /\
  addWebhookHistory true entry history = entry :: take (MAX_HISTORY_ENTRIES - 1) history /\
  (length (addWebhookHistory true entry history) <= MAX_HISTORY_ENTRIES)%nat /\
  addWebhookHistory false entry history = history.
Proof.
  split; [|split; [|split]].
  - unfold addAll. induction es as [|e es IH] using rev_ind; [done|].
    rewrite foldl_app. cbn [foldl]. rewrite IH, reverse_app.
    change (reverse [e] ++ reverse es) with (e :: reverse es).
    unfold addWebhookHistory, MAX_HISTORY_ENTRIES. apply take_cons_take.
  - done.
  - unfold addWebhookHistory. rewrite length_take. lia.
  - done.
Qed.

(** ** The manual test *)

Lemma startsWith_split (p s : string) :
  Js.startsWith p s = true -> s = p +:+ Text.slice (String.length p) s.
Proof.
  revert s. induction p as [|a p IH]; intros s; [done|].
  destruct s as [|b s]; [done|]. simpl. rewrite andb_true_iff. intros [Hab Hs].
  apply Ascii.eqb_eq in Hab. subst b. rewrite app_String. f_equal. by apply IH.
Qed.

(** X19. The manual test executes and records nothing unless the
    request carries [Bearer] and a token of a session the store holds:
    otherwise the answer is 401 and the history is untouched.  With a
    valid session and a readable body the answer is 200 and one entry
    is put in front of the history, with the reason of a manual test;
    its status code, success flag and error are those the alerting
    path would record for the same outcome of the request.  A body
    that cannot be read gives 500 and records nothing. *)
Theorem postTest_gate (authorization : option string) (sessions : option (gset string))
    (config : option WebhookConfig) (r : Readings) (result : FetchResult)
    (history : list WebhookHistoryEntry) :
  let answer := postTest authorization sessions config r result true history in
  let authorized :=
    exists token held, authorization = Some ("Bearer " +:+ token) /\
                       sessions = Some held /\ token ∈ held in
  (~ authorized -> a_status answer = 401 /\ a_result answer = None /\
                   a_history answer = history) /\
  (authorized -> config = None ->
     a_status answer = 500 /\ a_result answer = None /\ a_history answer = history) /\
  (authorized -> forall w, config = Some w ->
     a_status answer = 200 /\
     exists entry, head (a_history answer) = Some entry /\
       e_reason entry = "Manual test from admin panel" /\
       e_statusCode entry = e_statusCode (executeWebhook w "alert" r result) /\
       e_success entry = e_success (executeWebhook w "alert" r result) /\
       e_error entry = e_error (executeWebhook w "alert" r result) /\
       e_webhookUrl entry = w_url w).
Proof.
  intros answer authorized.
  assert (Hauth : authorized ->
            postTest authorization sessions config r result true history
            = match config with
              | None => {| a_status := 500; a_result := None; a_history := history |}
              | Some w =>
                  {| a_status := 200; a_result := Some (executeTest r result);
                     a_history :=
                       addWebhookHistory true
                         {| e_id := "test-" +:+ r_id r; e_timestamp := r_entryTime r;
                            e_webhookName := w_name w; e_webhookUrl := w_url w;
                            e_method := w_method w;
                            e_statusCode := t_statusCode (executeTest r result);
                            e_success := t_success (executeTest r result);
                            e_error := t_error (executeTest r result);
                            e_reason := "Manual test from admin panel";
                            e_responseTime := t_responseTime (executeTest r result) |}
                         history |}
              end).
  { intros (token & held & -> & -> & Hin). unfold postTest. simpl default.
    change (Js.truthy ("Bearer " +:+ token)) with true.
    change (Js.startsWith "Bearer " ("Bearer " +:+ token)) with true.
    change (Text.slice 7 ("Bearer " +:+ token)) with token.
    simpl. by rewrite bool_decide_eq_true_2. }
  split; [|split].
  - intros Hno. unfold answer, postTest.
    destruct (negb (Js.truthy (default "" authorization))
              || negb (Js.startsWith "Bearer " (default "" authorization))) eqn:E; [done|].
    destruct (negb (validateSession sessions (Text.slice 7 (default "" authorization))))
      eqn:E2; [done|].
    exfalso. apply Hno.
    apply orb_false_iff in E. destruct E as [_ E]. apply negb_false_iff in E.
    apply negb_false_iff in E2.
    destruct authorization as [hdr|]; [|done]. simpl in *.
    destruct sessions as [held|]; [|done]. simpl in E2.
    apply bool_decide_eq_true in E2.
    exists (Text.slice 7 hdr), held. split; [|done].
    f_equal. by apply (startsWith_split "Bearer " hdr).
  - intros Ha ->. unfold answer. by rewrite (Hauth Ha).
  - intros Ha w ->. unfold answer. rewrite (Hauth Ha).
    split; [done|]. eexists. split; [reflexivity|]. simpl.
    by destruct result.
Qed.

Lemma postTest_gate_witness :
  a_status (postTest (Some "Basic dXNlcjpwYXNz") (Some {[ "t0k3n" ]}) (Some sampleConfig)
              sampleReadings (Responded 404) true []) = 401 /\
  a_status (postTest (Some "Bearer t0k3n") (Some {[ "t0k3n" ]}) (Some sampleConfig)
              sampleReadings (Responded 404) true []) = 200.
Proof.
  split.
  - apply (proj1 (postTest_gate (Some "Basic dXNlcjpwYXNz") (Some {[ "t0k3n" ]})
                    (Some sampleConfig) sampleReadings (Responded 404) [])).
    intros (token & held & [=] & _).
  - apply (proj2 (proj2 (postTest_gate (Some "Bearer t0k3n") (Some {[ "t0k3n" ]})
                           (Some sampleConfig) sampleReadings (Responded 404) []))
             (ex_intro _ "t0k3n" (ex_intro _ {[ "t0k3n" ]}
                (conj eq_refl (conj eq_refl (proj2 (elem_of_singleton _ _) eq_refl)))))
             sampleConfig eq_refl).
Defined.

(** ** The snapshots served *)

Lemma sliceLast_length {A : Type} (n : Z) (l : list A) :
  1 <= n -> Z.of_nat (length (sliceLast n l)) <= n.
Proof.
  intros Hn. unfold sliceLast. destruct (n =? 0) eqn:E; [apply Z.eqb_eq in E; lia|].
  rewrite length_drop. lia.
Qed.

(** X20. Whatever the [limit] parameter of the request, the limit the
    handler applies is between 1 and 2000: 200 when the parameter is
    missing, not a number or zero, 1 when it is negative, 2000 when it
    is larger.  The keys whose snapshots it reads are at most that
    many, whatever the [since] parameter and the keys stored, and none
    when no key is stored: the answer may hold no snapshot at all. *)
Theorem limitOf_bounds (param : option string) :
  1 <= limitOf param <= 2000 /\
  (forall n, Js.parseInt (default "" param) None = Some n ->
     limitOf param = if n =? 0 then 200 else if n <? 1 then 1
                     else if 2000 <? n then 2000 else n) /\
  (Js.parseInt (default "" param) None = None -> limitOf param = 200) /\
  (forall toNumber keys since,
     0 <= Z.of_nat (length (selectKeys toNumber keys (sinceOf since) (limitOf param)))
       <= limitOf param) /\
  (forall toNumber since, selectKeys toNumber [] (sinceOf since) (limitOf param) = []).
Proof.
  assert (Hb : 1 <= limitOf param <= 2000) by (unfold limitOf; lia).
  split; [done|]. split; [|split; [|split]].
  - unfold limitOf, parseOr, DEFAULT_LIMIT.
    intros n ->. destruct (n =? 0) eqn:E0; [reflexivity|].
    destruct (n <? 1) eqn:E1; [apply Z.ltb_lt in E1; lia|].
    apply Z.ltb_ge in E1. destruct (2000 <? n) eqn:E2.
    + apply Z.ltb_lt in E2. lia.
    + apply Z.ltb_ge in E2. lia.
  - unfold limitOf, parseOr, DEFAULT_LIMIT. intros ->. reflexivity.
  - intros toNumber keys since. split; [lia|].
    unfold selectKeys. apply sliceLast_length. lia.
  - intros toNumber since. unfold selectKeys, sliceLast. cbn [fmap list_fmap List.filter sortBy].
    destruct (limitOf param =? 0); done.
Qed.

Lemma limitOf_bounds_witness :
  limitOf (Some "50") = 50 /\ limitOf (Some "-3") = 1 /\ limitOf (Some "1e9") = 1 /\
  limitOf (Some "999999") = 2000 /\ limitOf None = 200 /\ limitOf (Some "all") = 200.
Proof.
  pose proof (fun p => proj1 (proj2 (limitOf_bounds p))) as Hn.
  pose proof (fun p => proj1 (proj2 (proj2 (limitOf_bounds p)))) as Hnone.
  exact (conj (Hn (Some "50") 50 eq_refl)
        (conj (Hn (Some "-3") (-3) eq_refl)
        (conj (Hn (Some "1e9") 1 eq_refl)
        (conj (Hn (Some "999999") 999999 eq_refl)
        (conj (Hnone None eq_refl) (Hnone (Some "all") eq_refl)))))).
Defined.

Section SortBy.

Context {A : Type} (le : A -> A -> bool) (P : A -> Prop).
Context (le_total : forall a b, P a -> P b -> le a b = true \/ le b a = true).
Context (le_trans : forall a b c, P a -> P b -> P c ->
                                  le a b = true -> le b c = true -> le a c = true).

Lemma insertBy_perm (x : A) (l : list A) : insertBy le x l ≡ₚ x :: l.
Proof.
  induction l as [|y l IH]; simpl; [done|].
  destruct (le x y); [done|]. rewrite IH. apply Permutation_swap.
Qed.

Lemma sortBy_perm (l : list A) : sortBy le l ≡ₚ l.
Proof.
  induction l as [|x l IH]; simpl; [done|]. by rewrite insertBy_perm, IH.
Qed.

Lemma insertBy_sorted (x : A) (l : list A) :
  P x -> Forall P l ->
  StronglySorted (fun a b => le a b = true) l ->
  StronglySorted (fun a b => le a b = true) (insertBy le x l).
Proof.
  intros Hx HP Hs. induction Hs as [|y l Hl IH Hy]; simpl.
  - by repeat constructor.
  - apply Forall_cons in HP. destruct HP as [Py Pl].
    destruct (le x y) eqn:E.
    + constructor; [by constructor|]. constructor; [done|].
      rewrite Forall_forall in Hy, Pl. apply Forall_forall. intros z Hz.
      apply (le_trans x y z); auto.
    + constructor; [by apply IH|].
      rewrite insertBy_perm. constructor; [|done].
      destruct (le_total x y Hx Py) as [H|H]; [congruence|done].
Qed.

Lemma sortBy_sorted (l : list A) :
  Forall P l -> StronglySorted (fun a b => le a b = true) (sortBy le l).
Proof.
  induction 1 as [|x l Hx Hl IH]; simpl; [constructor|].
  apply insertBy_sorted; [done| |done]. by rewrite sortBy_perm.
Qed.

End SortBy.

Lemma byTimestamp_finite (a b : Keyed) :
  Num.isFinite (y_ts a) = true -> Num.isFinite (y_ts b) = true ->
  byTimestamp a b = true <-> (tsOf a <= tsOf b)%Q.
Proof.
  unfold byTimestamp, tsOf.
  destruct (y_ts a) as [p| | |], (y_ts b) as [q| | |]; try done.
  intros _ _. simpl. rewrite Qle_bool_iff. split; intros H; lra.
Qed.

Lemma sorted_split_drop {A : Type} (R : A -> A -> Prop) (n : nat) (l : list A) :
  StronglySorted R l -> Forall (fun x => Forall (R x) (drop n l)) (take n l).
Proof.
  intros Hs. revert n. induction Hs as [|y l Hl IH Hy]; intros n.
  - destruct n; simpl; constructor.
  - destruct n as [|n]; simpl; [constructor|].
    constructor; [|apply IH].
    apply Forall_forall. intros z Hz. rewrite Forall_forall in Hy. apply Hy.
    by apply (subseteq_drop n l).
Qed.

(** X21. The keys selected for a request are at most [limit] (from 1
    on), all with a finite timestamp not before [since], in ascending
    order of timestamp; and they are the latest of the candidates:
    every candidate left out is no later than every key selected. *)
Theorem selectKeys_latest (toNumber : option string -> number) (keys : list string)
    (since limit : Z) :
  1 <= limit ->
  let selected := selectKeys toNumber keys since limit in
  Z.of_nat (length selected) <= limit /\
  Forall (fun x => Num.isFinite (y_ts x) = true /\ (inject_Z since <= tsOf x)%Q) selected /\
  StronglySorted (fun a b => (tsOf a <= tsOf b)%Q) selected /\
  exists older,
    older ++ selected
    ≡ₚ List.filter (recentEnough since) (keyedOf toNumber <$> keys) /\
    Forall (fun x => Forall (fun y => (tsOf x <= tsOf y)%Q) selected) older.
Proof.
  intros Hlimit selected.
  set (candidates := List.filter (recentEnough since) (keyedOf toNumber <$> keys)).
  set (keyed := sortBy byTimestamp candidates).
  assert (Hsel : selected = drop (length keyed - Z.to_nat limit) keyed).
  { unfold selected, selectKeys, sliceLast. fold candidates. fold keyed.
    destruct (limit =? 0) eqn:E; [apply Z.eqb_eq in E; lia|done]. }
  assert (Hcand : Forall (fun x => Num.isFinite (y_ts x) = true /\
                                   (inject_Z since <= tsOf x)%Q) candidates).
  { apply Forall_forall. intros x Hx. unfold candidates in Hx.
    apply list_elem_of_In, List.filter_In in Hx. destruct Hx as [_ Hx].
    unfold recentEnough in Hx. apply andb_true_iff in Hx. destruct Hx as [Hf Hg].
    split; [done|]. unfold tsOf. destruct (y_ts x) as [q| | |]; try done.
    simpl in Hg. by apply Qle_bool_iff in Hg. }
  assert (Hperm : keyed ≡ₚ candidates) by apply sortBy_perm.
  assert (Hkeyed : Forall (fun x => Num.isFinite (y_ts x) = true /\
                                    (inject_Z since <= tsOf x)%Q) keyed).
  { by rewrite Hperm. }
  assert (Hsorted : StronglySorted (fun a b => (tsOf a <= tsOf b)%Q) keyed).
  { assert (Hs : StronglySorted (fun a b => byTimestamp a b = true) keyed).
    { apply (sortBy_sorted byTimestamp (fun x => Num.isFinite (y_ts x) = true)).
      - intros a b Ha Hb. rewrite !byTimestamp_finite by done.
        destruct (Qlt_le_dec (tsOf b) (tsOf a)); [right; lra|by left].
      - intros a b c Ha Hb Hc. rewrite !byTimestamp_finite by done. lra.
      - eapply Forall_impl; [exact Hcand|]. by intros x [Hf _]. }
    assert (Hboth : Forall (fun x => Num.isFinite (y_ts x) = true) keyed).
    { eapply Forall_impl; [exact Hkeyed|]. by intros x [Hf _]. }
    clear -Hs Hboth. induction Hs as [|y l Hl IH Hy]; [constructor|].
    apply Forall_cons in Hboth. destruct Hboth as [Fy Fl].
    constructor; [by apply IH|].
    rewrite Forall_forall in Hy, Fl. apply Forall_forall. intros z Hz.
    apply byTimestamp_finite; auto. }
  rewrite Hsel. split; [|split; [|split]].
  - rewrite length_drop. lia.
  - apply Forall_drop. exact Hkeyed.
  - clear -Hsorted. revert Hsorted. generalize (length keyed - Z.to_nat limit)%nat.
    intros n Hs. revert n. induction Hs as [|y l Hl IH Hy]; intros n.
    + rewrite drop_nil. constructor.
    + destruct n; simpl; [by constructor|apply IH].
  - exists (take (length keyed - Z.to_nat limit) keyed). split.
    + by rewrite take_drop.
    + by apply sorted_split_drop.
Qed.

Lemma selectKeys_latest_witness :
  y_k <$> selectKeys digitsNumber ["metrics:30"; "metrics:10"; "other"; "metrics:20"] 15 1
  = ["metrics:30"] /\
  Z.of_nat (length (selectKeys digitsNumber
                      ["metrics:30"; "metrics:10"; "other"; "metrics:20"] 15 1)) <= 1.
Proof.
  split; [reflexivity|].
  apply (selectKeys_latest digitsNumber ["metrics:30"; "metrics:10"; "other"; "metrics:20"]
           15 1).
  lia.
Defined.

(** ** Decimal digits *)

Lemma pretty_N_char_digit (d : N) :
  Js.isDigit (pretty_N_char d) = true /\
  Js.isWhiteSpace (pretty_N_char d) = false /\
  (forall rest, Js.stripSign (String (pretty_N_char d) rest)
                = (1, String (pretty_N_char d) rest)).
Proof. unfold pretty_N_char. by repeat case_match. Qed.

Lemma pretty_N_char_value (d : N) :
  (d < 10)%N -> Js.digitValue 10 (pretty_N_char d) = Some (Z.of_N d).
Proof.
  intros Hd.
  assert (d = 0 \/ d = 1 \/ d = 2 \/ d = 3 \/ d = 4 \/ d = 5 \/ d = 6 \/ d = 7 \/ d = 8
          \/ d = 9)%N as H by lia.
  repeat (destruct H as [->|H]; [reflexivity|]). by subst.
Qed.

Lemma pretty_N_go_digits (x : N) :
  forall s, allChars Js.isDigit s = true -> allChars Js.isDigit (pretty_N_go x s) = true.
Proof.
  induction (N.lt_wf_0 x) as [x _ IH]; intros s Hs.
  destruct (decide (x = 0)%N) as [->|Hx]; [by rewrite pretty_N_go_0|].
  rewrite pretty_N_go_step by lia. apply IH; [apply N.div_lt; lia|].
  simpl. rewrite Hs. by rewrite (proj1 (pretty_N_char_digit _)).
Qed.

Lemma pretty_N_go_head (x : N) :
  (0 < x)%N -> forall s, exists d rest, pretty_N_go x s = String (pretty_N_char d) rest.
Proof.
  induction (N.lt_wf_0 x) as [x _ IH]; intros Hx s.
  rewrite pretty_N_go_step by done.
  destruct (decide (x `div` 10 = 0)%N) as [E|E].
  - rewrite E, pretty_N_go_0. by eexists _, _.
  - apply IH; [apply N.div_lt; lia|by apply N.neq_0_lt_0].
Qed.

Lemma pretty_N_go_value (x : N) :
  (0 < x)%N ->
  exists k, forall acc s,
    Js.digitsFrom 10 acc (pretty_N_go x s)
    = Js.digitsFrom 10 (Some (default 0 acc * k + Z.of_N x)) s.
Proof.
  induction (N.lt_wf_0 x) as [x _ IH]; intros Hx.
  assert (Hstep : forall a s,
            Js.digitsFrom 10 a (String (pretty_N_char (x `mod` 10)) s)
            = Js.digitsFrom 10 (Some (10 * default 0 a + Z.of_N (x `mod` 10))) s).
  { intros a s. simpl. rewrite pretty_N_char_value; [done|]. by apply N.mod_lt. }
  destruct (decide (x `div` 10 = 0)%N) as [E|E].
  - exists 10. intros acc s. rewrite pretty_N_go_step, E, pretty_N_go_0, Hstep by done.
    do 2 f_equal. rewrite (N.div_mod x 10) at 2 by done. rewrite E. lia.
  - destruct (IH (x `div` 10)%N) as [k Hk]; [apply N.div_lt; lia|by apply N.neq_0_lt_0|].
    exists (10 * k). intros acc s. rewrite pretty_N_go_step, Hk, Hstep by done.
    do 2 f_equal. simpl default. rewrite (N.div_mod x 10) at 3 by done. lia.
Qed.

(** The digits of a number that is not negative read back as that
    number, and make a name of a PID. *)
Lemma parseInt10_pretty (p : Z) :
  0 <= p -> Js.parseInt10 (pretty p) = Some p /\ isPidName (pretty p) = true.
Proof.
  intros Hp. destruct p as [|x|x]; [done| |lia].
  unfold pretty, pretty_Z, pretty, pretty_positive, pretty, pretty_N.
  rewrite decide_False by done.
  set (n := N.pos x). assert (Hn : (0 < n)%N) by (unfold n; lia). split.
  - unfold Js.parseInt10, Js.parseInt.
    destruct (pretty_N_go_head n Hn "") as (d & rest & Eh).
    destruct (pretty_N_char_digit d) as (_ & Hws & Hsign).
    rewrite Eh. simpl Js.trimStart. rewrite Hws, Hsign. rewrite <- Eh.
    destruct (pretty_N_go_value n Hn) as [k Hk]. rewrite Hk. simpl.
    f_equal; unfold n; lia.
  - unfold isPidName. apply andb_true_iff. split.
    + pose proof (pretty_N_go_head n Hn "") as (d & rest & ->). done.
    + assert (Hd : allChars Js.isDigit (pretty_N_go n "") = true)
        by (by apply pretty_N_go_digits).
      revert Hd. generalize (pretty_N_go n ""). intros s.
      induction s as [|c s IH]; [done|]. simpl. rewrite andb_true_iff.
      intros [-> Hs]. by apply IH.
Qed.

Lemma listPids_cons_pid (h : Host) (p : Z) (es : list Dirent) :
  0 <= p ->
  listPids (withListing h (Some (pidEntry p :: es)))
  = p :: listPids (withListing h (Some es)).
Proof.
  intros Hp. destruct (parseInt10_pretty p Hp) as [Hparse Hname].
  unfold listPids. simpl. rewrite Hname. simpl. by rewrite Hparse.
Qed.

Lemma listPids_cons_other (h : Host) (e : Dirent) (es : list Dirent) :
  notAPid e = true ->
  listPids (withListing h (Some (e :: es))) = listPids (withListing h (Some es)).
Proof.
  unfold notAPid. intros He. apply negb_true_iff in He.
  unfold listPids. simpl. by rewrite He.
Qed.

(** X22. From a listing of [/proc] the PIDs are read off the
    directories named by decimal digits, in the order of the listing;
    files and directories with other names are passed over, and a
    listing that cannot be read gives no PID at all. *)
Theorem listPids_of_listing (h : Host) (items : list (Z + Dirent)) :
  Forall (fun i => match i with
                   | inl p => 0 <= p
                   | inr e => notAPid e = true
                   end) items ->
  listPids (withListing h (Some (listingOf items))) = pidsOf items /\
  listPids (withListing h None) = [].
Proof.
  intros Hitems. split; [|done].
  induction Hitems as [|[p|e] items Hi _ IH]; [done| |].
  - change (listingOf (inl p :: items)) with (pidEntry p :: listingOf items).
    rewrite listPids_cons_pid, IH by done. done.
  - change (listingOf (inr e :: items)) with (e :: listingOf items).
    rewrite listPids_cons_other, IH by done. done.
Qed.

Lemma listPids_of_listing_witness :
  listPids (withListing bareHost
              (Some (listingOf [inl 1; inr {| d_name := "self"; d_isDirectory := true |};
                                inl 4242; inr {| d_name := "7"; d_isDirectory := false |}])))
  = [1; 4242].
Proof.
  apply (listPids_of_listing bareHost
           [inl 1; inr {| d_name := "self"; d_isDirectory := true |};
            inl 4242; inr {| d_name := "7"; d_isDirectory := false |}]).
  repeat constructor; lia.
Defined.

(** ** Names for UIDs *)

Lemma pretty_N_go_nonempty (x : N) (s : string) : s <> "" -> pretty_N_go x s <> "".
Proof.
  revert s. induction (N.lt_wf_0 x) as [x _ IH]; intros s Hs.
  destruct (decide (x = 0)%N) as [->|Hx].
  - by rewrite pretty_N_go_0.
  - rewrite pretty_N_go_step by lia. apply IH; [|done]. apply N.div_lt; lia.
Qed.

Lemma pretty_N_nonempty (x : N) : pretty x <> "".
Proof.
  unfold pretty, pretty_N. case_decide; [done|].
  rewrite pretty_N_go_step by lia. by apply pretty_N_go_nonempty.
Qed.

Lemma pretty_Z_nonempty (z : Z) : pretty z <> "".
Proof.
  destruct z as [|p|p]; [done| |done].
  apply (pretty_N_nonempty (N.pos p)).
Qed.

Lemma truthy_pretty (z : Z) : Js.truthy (pretty z) = true.
Proof. pose proof (pretty_Z_nonempty z). by destruct (pretty z). Qed.

Lemma namesFromPasswd_labels (uids : list Z) (passwd : string) :
  labelsOf uids (namesFromPasswd uids passwd).
Proof.
  unfold namesFromPasswd.
  assert (H : forall ls out, labelsOf uids out ->
            labelsOf uids
              (foldl (fun out line =>
                        match passwdEntry line with
                        | Some (u, name) =>
                            if bool_decide (u ∈ uids) then <[ pretty u := name ]> out else out
                        | None => out
                        end) out ls)).
  { induction ls as [|l ls IH]; intros out Hout; simpl; [done|].
    apply IH. destruct (passwdEntry l) as [[u name]|]; [|done].
    case_bool_decide as Hu; [|done].
    intros k Hk. destruct (decide (pretty u = k)) as [<-|Hne].
    - by apply list_elem_of_fmap_2.
    - rewrite lookup_insert_ne in Hk by done. by apply Hout. }
  apply H. intros k Hk. rewrite lookup_empty in Hk. by destruct Hk.
Qed.

Lemma fillMissing_cons (u : Z) (uids : list Z) (out : gmap string string) :
  fillMissing (u :: uids) out
  = fillMissing uids (if Js.truthy (default "" (out !! pretty u)) then out
                      else <[ pretty u := pretty u ]> out).
Proof. reflexivity. Qed.

Lemma fillMissing_spec (uids : list Z) :
  forall (out : gmap string string) (k : string),
    fillMissing uids out !! k
    = if bool_decide (k ∈ (pretty <$> uids))
      then Some (if Js.truthy (default "" (out !! k)) then default "" (out !! k) else k)
      else out !! k.
Proof.
  induction uids as [|u uids IH]; intros out k.
  - case_bool_decide as H; [by apply elem_of_nil in H|done].
  - rewrite fillMissing_cons, IH, fmap_cons. clear IH.
    destruct (decide (k = pretty u)) as [->|Hne].
    + assert (Hin : pretty u ∈ pretty u :: (pretty <$> uids)) by (by left).
      rewrite (bool_decide_eq_true_2 _ Hin).
      destruct (Js.truthy (default "" (out !! pretty u))) eqn:Et.
      * rewrite Et. destruct (out !! pretty u) as [v|] eqn:Eo; [|done]. simpl in *.
        by case_bool_decide.
      * rewrite lookup_insert_eq. simpl. rewrite truthy_pretty. by case_bool_decide.
    + assert (Hk : (if Js.truthy (default "" (out !! pretty u)) then out
                    else <[pretty u:=pretty u]> out) !! k = out !! k).
      { destruct (Js.truthy _); [done|]. by rewrite lookup_insert_ne. }
      rewrite Hk.
      assert (Hiff : k ∈ (pretty <$> uids) <-> k ∈ pretty u :: (pretty <$> uids)).
      { rewrite elem_of_cons. tauto. }
      by rewrite (bool_decide_ext _ _ Hiff).
Qed.

Lemma pretty_digits (u : Z) : 0 <= u -> allChars Js.isDigit (pretty u) = true.
Proof.
  intros Hu. destruct u as [|x|x]; [done| |lia].
  unfold pretty, pretty_Z, pretty, pretty_positive, pretty, pretty_N.
  rewrite decide_False by done. by apply pretty_N_go_digits.
Qed.

Lemma digits_freeOf (c : ascii) (s : string) :
  Js.isDigit c = false -> allChars Js.isDigit s = true -> freeOf c s = true.
Proof.
  intros Hc. apply allChars_impl. intros a Ha.
  destruct (Ascii.eqb_spec a c) as [->|_]; [congruence|done].
Qed.

Lemma startsWith_hash_app (name tail : string) :
  Js.startsWith "#" (name +:+ String ":" tail) = Js.startsWith "#" name.
Proof.
  destruct name as [|c name]; [by rewrite app_empty_l|].
  rewrite app_String. simpl. by rewrite !andb_true_r.
Qed.

Lemma passwdEntry_account (name password : string) (uid : Z) (rest : string) :
  wellFormed (Account name password uid rest) = true ->
  passwdEntry (writeLine (Account name password uid rest)) = Some (uid, name).
Proof.
  cbn [wellFormed writeLine]. rewrite !andb_true_iff.
  intros ((((((Hn & _) & Hhash) & Hp) & _) & Hu) & _).
  apply Z.leb_le in Hu. apply negb_true_iff in Hhash.
  unfold passwdEntry.
  change (":" +:+ password +:+ ":" +:+ pretty uid +:+ ":" +:+ rest)
    with (String ":" (password +:+ ":" +:+ pretty uid +:+ ":" +:+ rest)).
  rewrite startsWith_hash_app, Hhash.
  assert (Hne : Js.isEmpty
                  (name +:+ String ":" (password +:+ ":" +:+ pretty uid +:+ ":" +:+ rest))
                = false).
  { destruct name; [by rewrite app_empty_l|by rewrite app_String]. }
  rewrite Hne. cbn [orb].
  rewrite (split_app_sep ":" name) by done.
  change (":" +:+ pretty uid +:+ ":" +:+ rest)
    with (String ":" (pretty uid +:+ ":" +:+ rest)).
  rewrite (split_app_sep ":" password) by done.
  change (":" +:+ rest) with (String ":" rest).
  rewrite (split_app_sep ":" (pretty uid))
    by (apply digits_freeOf; [done|by apply pretty_digits]).
  cbn [length Nat.ltb Nat.leb]. unfold parseNth. cbn [lookup list_lookup].
  destruct (parseInt10_pretty uid Hu) as [Hparse _].
  unfold Js.parseInt10 in Hparse. by rewrite Hparse.
Qed.

Lemma passwdEntry_remark (text : string) :
  wellFormed (Remark text) = true -> passwdEntry (writeLine (Remark text)) = None.
Proof.
  cbn [wellFormed writeLine]. rewrite andb_true_iff. intros [_ H].
  unfold passwdEntry. by rewrite H.
Qed.

Lemma writeLine_one_line (l : PasswdLine) :
  wellFormed l = true -> freeOf "010" (writeLine l) = true.
Proof.
  destruct l as [name password uid rest|text]; cbn [wellFormed writeLine];
    rewrite !andb_true_iff.
  - intros ((((((_ & Hn) & _) & _) & Hp) & Hu) & Hr). apply Z.leb_le in Hu.
    assert (Hd : freeOf "010" (pretty uid) = true)
      by (apply digits_freeOf; [done|by apply pretty_digits]).
    unfold freeOf in *. rewrite !allChars_app, Hn, Hp, Hr, Hd. done.
  - by intros [H _].
Qed.

(** What the first loop leaves for a requested UID: the name of the
    last account with this UID. *)
Lemma namesFromPasswd_lookup (uids : list Z) (ls : list PasswdLine) (u : Z) :
  Forall (fun l => wellFormed l = true) ls -> u ∈ uids ->
  namesFromPasswd uids (lines (writeLine <$> ls)) !! pretty u = nameOf u ls.
Proof.
  intros Hls Hu. unfold namesFromPasswd.
  change (lines (writeLine <$> ls)) with (terminated "010" (writeLine <$> ls)).
  rewrite split_terminated
    by (apply Forall_fmap; eapply Forall_impl; [exact Hls|]; apply writeLine_one_line).
  rewrite foldl_app. cbn [foldl]. change (passwdEntry "") with (@None (Z * string)).
  cbv beta iota.
  assert (H : forall out : gmap string string,
            foldl (fun out line =>
                     match passwdEntry line with
                     | Some (u, name) =>
                         if bool_decide (u ∈ uids) then <[ pretty u := name ]> out else out
                     | None => out
                     end) out (writeLine <$> ls) !! pretty u
            = match nameOf u ls with Some name => Some name | None => out !! pretty u end).
  { induction Hls as [|l ls Hl Hls IH]; intros out; [done|].
    rewrite fmap_cons. cbn [foldl nameOf]. rewrite IH.
    destruct (nameOf u ls) as [name|]; [done|].
    destruct l as [name password uid rest|text].
    - rewrite passwdEntry_account by done.
      destruct (Z.eqb_spec uid u) as [->|Hne].
      + rewrite bool_decide_eq_true_2 by done. by rewrite lookup_insert_eq.
      + case_bool_decide; [|done]. rewrite lookup_insert_ne; [done|].
        intros E. by apply pretty_Z_inj in E.
    - by rewrite passwdEntry_remark. }
  rewrite H. by destruct (nameOf u ls).
Qed.

(** X14. The names returned for a set of UIDs have exactly one entry
    for each UID asked for, under its decimal digits, and no other
    entry; no name is empty.  When the file cannot be read every UID is
    labelled with its own digits.  When it can, a UID asked for is
    labelled with the name of the last account whose third field is
    this UID, the first field of that line, whatever comments and empty
    lines stand between the accounts; a UID that no account has, or
    whose account has an empty name, is labelled with its own
    digits. *)
Theorem mapUidNamesFrom_total (passwd : option string) (uids : list Z) :
  let names := mapUidNamesFrom passwd uids in
  (forall k, is_Some (names !! k) <-> k ∈ (pretty <$> uids)) /\
  map_Forall (fun _ name => name <> "") names /\
  (passwd = None -> forall u, u ∈ uids -> names !! pretty u = Some (pretty u)) /\
  (forall ls u,
     passwd = Some (lines (writeLine <$> ls)) ->
     Forall (fun l => wellFormed l = true) ls -> u ∈ uids ->
     names !! pretty u
     = Some (match nameOf u ls with
             | Some name => if Js.truthy name then name else pretty u
             | None => pretty u
             end)).
Proof.
  intros names. unfold names, mapUidNamesFrom.
  set (out := match passwd with Some text => namesFromPasswd uids text | None => ∅ end).
  assert (Hout : labelsOf uids out).
  { unfold out. destruct passwd; [apply namesFromPasswd_labels|].
    intros k Hk. rewrite lookup_empty in Hk. by destruct Hk. }
  split; [|split; [|split]].
  - intros k. rewrite fillMissing_spec. case_bool_decide as Hk.
    + split; [done|]. intros _. by eexists.
    + split; [|done]. intros Hs. exfalso. by apply Hk, Hout.
  - intros k name. rewrite fillMissing_spec. case_bool_decide as Hk.
    + intros [= <-]. destruct (Js.truthy (default "" (out !! k))) eqn:Et.
      * intros E. by rewrite E in Et.
      * apply list_elem_of_fmap in Hk. destruct Hk as (u & -> & _).
        apply pretty_Z_nonempty.
    + intros Hs. exfalso. apply Hk, Hout. by eexists.
  - intros -> u Hu. rewrite fillMissing_spec.
    rewrite bool_decide_eq_true_2 by (by apply list_elem_of_fmap_2).
    unfold out. by rewrite lookup_empty.
  - intros ls u Hp Hls Hu. rewrite fillMissing_spec.
    rewrite bool_decide_eq_true_2 by (by apply list_elem_of_fmap_2).
    unfold out. rewrite Hp, namesFromPasswd_lookup by done.
    by destruct (nameOf u ls) as [name|].
Qed.

Lemma mapUidNamesFrom_total_witness :
  mapUidNamesFrom None [0; 1000] !! "1000" = Some "1000" /\
  mapUidNamesFrom (Some (lines ["root:x:0:0:root:/root:/bin/bash"; "# comment";
                                "app:x:1000:0::/home/app:/bin/sh";
                                ":x:33:33::/var/www:/bin/sh"])) [0; 1000; 33]
    !! "1000" = Some "app".
Proof.
  split.
  - apply (proj1 (proj2 (proj2 (mapUidNamesFrom_total None [0; 1000]))) eq_refl 1000).
    apply (bool_decide_unpack _). vm_compute. exact I.
  - apply (proj2 (proj2 (proj2 (mapUidNamesFrom_total
                                   (Some (lines ["root:x:0:0:root:/root:/bin/bash";
                                                 "# comment";
                                                 "app:x:1000:0::/home/app:/bin/sh";
                                                 ":x:33:33::/var/www:/bin/sh"]))
                                   [0; 1000; 33])))
             [Account "root" "x" 0 "0:root:/root:/bin/bash"; Remark "# comment";
              Account "app" "x" 1000 "0::/home/app:/bin/sh";
              Account "" "x" 33 "33::/var/www:/bin/sh"] 1000).
    + reflexivity.
    + apply (bool_decide_unpack _). vm_compute. exact I.
    + apply (bool_decide_unpack _). vm_compute. exact I.
Defined.

(** ** Two cycles in a row *)

(** The container sample that a completed measurement leaves in the
    state. *)
Lemma measure_leaves_sample (h : Host) (e : Env) (st : SamplerState) (m : Measured)
    (usageNs : number) :
  snd (measure h e st) = Some m ->
  readUsageNs h (detectCgroupVersion h) = Some usageNs ->
  lastCpuUsageNs (fst (measure h e st)) = usageNs /\
  lastTsContainer (fst (measure h e st)) = dateNow h.
Proof.
  unfold measure.
  destruct (redisConnects h); simpl; [|done].
  destruct (readMemory h (detectCgroupVersion h)) as [[memLimit memUsage]|]; [|done].
  destruct (readUsageNs h (detectCgroupVersion h)) as [u|]; [|done].
  destruct (listProcessSamples _ _ _ _ _ _) as [prev ps]. simpl.
  by intros _ [= <-].
Qed.

(** X23. Of two completed measurements made one after the other, the
    second reports as container CPU percentage the growth of the usage
    counter between the two, over the time between their clock
    readings, as a percentage of the second cycle's CPU limit, clamped
    to 0..100 (the first counter and clock reading not being zero). *)
Theorem measure_second_cycle (h1 h2 : Host) (e : Env) (st : SamplerState)
    (m1 m2 : Measured) (usage1 usage2 : Q) :
  snd (measure h1 e st) = Some m1 ->
  readUsageNs h1 (detectCgroupVersion h1) = Some (Finite usage1) ->
  ~ (usage1 == 0)%Q ->
  dateNow h1 <> 0 ->
  snd (measure h2 e (fst (measure h1 e st))) = Some m2 ->
  readUsageNs h2 (detectCgroupVersion h2) = Some (Finite usage2) ->
  dateNow h1 < dateNow h2 ->
  m_cpuUsagePercent m2
  = Finite (clamp100 ((usage2 - usage1)
                      / inject_Z ((dateNow h2 - dateNow h1) * 1000000)
                      * 100 / Qmax (m_cpuLimit m2) EPSILON)).
Proof.
  intros Hm1 Hu1 Hne Ht1 Hm2 Hu2 Hlt.
  destruct (measure_leaves_sample h1 e st m1 _ Hm1 Hu1) as [Hlast Hts].
  apply measure_Some in Hm2.
  destruct Hm2 as (usageNs & _ & _ & Hu2' & _ & _ & Hcpu & _).
  rewrite Hu2 in Hu2'. injection Hu2' as <-.
  rewrite Hcpu.
  rewrite (containerCpuPercent_finite (ensureSysConf h2 (fst (measure h1 e st)))
             (dateNow h2) (m_cpuLimit m2) usage2 usage1); simpl; rewrite ?Hts; try done.
Qed.

Lemma measure_second_cycle_witness :
  exists m1 m2,
    snd (measure (twoCoreHost 1700000000000 "2000000000") noEnv initialState) = Some m1 /\
    snd (measure (twoCoreHost 1700000005000 "2100000000") noEnv
           (fst (measure (twoCoreHost 1700000000000 "2000000000") noEnv initialState)))
    = Some m2 /\
    formatPercent (m_cpuUsagePercent m2) = "1.00".
Proof.
  destruct (snd (measure (twoCoreHost 1700000000000 "2000000000") noEnv initialState))
    as [m1|] eqn:H1; [|vm_compute in H1; discriminate H1].
  destruct (snd (measure (twoCoreHost 1700000005000 "2100000000") noEnv
                   (fst (measure (twoCoreHost 1700000000000 "2000000000") noEnv
                           initialState)))) as [m2|] eqn:H2;
    [|vm_compute in H2; discriminate H2].
  exists m1, m2. split; [reflexivity|]. split; [reflexivity|].
  assert (Hlimit : m_cpuLimit m2 = (inject_Z 200000 / inject_Z 100000)%Q).
  { vm_compute in H2. injection H2 as <-. reflexivity. }
  rewrite (measure_second_cycle _ _ _ _ m1 m2 2000000000 2100000000 H1 eq_refl
             ltac:(discriminate) ltac:(discriminate) H2 eq_refl eq_refl).
  rewrite Hlimit. reflexivity.
Defined.

(** ** The [status] file *)

Lemma dropPrefix_app (key s : string) : dropPrefix key (key +:+ s) = Some s.
Proof.
  induction key as [|a key IH]; [done|].
  rewrite app_String. cbn [dropPrefix]. by rewrite Ascii.eqb_refl.
Qed.

Lemma dropPrefix_other_line (key l rest : string) :
  freeOf "010" key = true ->
  Js.startsWith key l = false ->
  dropPrefix key (l +:+ String "010" rest) = None.
Proof.
  unfold freeOf. revert l. induction key as [|a key IH]; intros l Hkey Hl; [done|].
  simpl in Hkey. apply andb_true_iff in Hkey. destruct Hkey as [Ha Hkey].
  apply negb_true_iff in Ha.
  destruct l as [|b l].
  - rewrite app_empty_l. cbn [dropPrefix]. by rewrite Ha.
  - rewrite app_String. cbn [dropPrefix]. simpl in Hl.
    destruct (Ascii.eqb a b); [|done]. simpl in Hl. by apply IH.
Qed.

(** A line that the pattern does not match at its start is passed
    over: the search goes on at the start of the next line. *)
Lemma execAtLineStarts_line {A : Type} (pattern : string -> option A) (l rest : string) :
  allChars (fun c => negb (isLineEnd c)) l = true ->
  forall b,
    (b = true -> pattern (l +:+ String "010" rest) = None) ->
    execAtLineStarts pattern b (l +:+ String "010" rest)
    = execAtLineStarts pattern true rest.
Proof.
  induction l as [|c l IH]; intros Hl b Hb.
  - rewrite app_empty_l in *. cbn [execAtLineStarts].
    destruct b; [by rewrite Hb|done].
  - simpl in Hl. apply andb_true_iff in Hl. destruct Hl as [Hc Hl].
    apply negb_true_iff in Hc. rewrite app_String in *. cbn [execAtLineStarts].
    assert (Hhere : (if b then pattern (String c (l +:+ String "010" rest)) else None)
                    = None) by (destruct b; [by apply Hb|done]).
    rewrite Hhere, Hc. by apply IH.
Qed.

Lemma execAtLineStarts_lines {A : Type} (pattern : string -> option A) (key : string)
    (pre : list string) (rest : string) :
  (forall l r, Js.startsWith key l = false -> pattern (l +:+ String "010" r) = None) ->
  Forall (fun l => otherLine key l = true) pre ->
  execAtLineStarts pattern true (lines pre +:+ rest)
  = execAtLineStarts pattern true rest.
Proof.
  intros Hpattern. induction 1 as [|l pre Hl _ IH]; [done|].
  unfold otherLine in Hl. apply andb_true_iff in Hl. destruct Hl as [Hplain Hstart].
  apply negb_true_iff in Hstart.
  change (lines (l :: pre)) with (l +:+ String "010" (lines pre)).
  rewrite app_assoc_string, app_String.
  rewrite execAtLineStarts_line; [exact IH|done|].
  intros _. by apply Hpattern.
Qed.

Lemma digit_not_space (c : ascii) : Js.isDigit c = true -> Js.isWhiteSpace c = false.
Proof.
  unfold Js.isDigit, Js.isWhiteSpace. generalize (nat_of_ascii c). intros n.
  rewrite andb_true_iff, !Nat.leb_le. intros [H1 H2].
  apply orb_false_iff. split.
  - apply andb_false_iff. right. apply Nat.leb_gt. lia.
  - apply Nat.eqb_neq. lia.
Qed.

(** The pattern at a line that carries the key, a gap and digits. *)
Lemma keySpaceDigitsAt_line (key gap digits : string) (c : ascii) (tail : string) :
  isSpaceRun gap = true -> isDigits digits = true -> Js.isDigit c = false ->
  keySpaceDigitsAt key (key +:+ gap +:+ digits +:+ String c tail)
  = Some (digits, String c tail).
Proof.
  unfold isSpaceRun, isDigits. rewrite !andb_true_iff.
  intros [Hg1 Hg2] [Hd1 Hd2] Hc.
  unfold keySpaceDigitsAt. rewrite dropPrefix_app.
  destruct digits as [|d ds]; [done|].
  simpl in Hd2. apply andb_true_iff in Hd2. destruct Hd2 as [Hd Hds].
  rewrite app_String.
  destruct (takeWhile_app_stop Js.isWhiteSpace gap d (ds +:+ String c tail) Hg2
              (digit_not_space d Hd)) as [-> ->].
  rewrite Hg1. rewrite <- app_String.
  assert (Hall : allChars Js.isDigit (String d ds) = true) by (simpl; by rewrite Hd, Hds).
  destruct (takeWhile_app_stop Js.isDigit (String d ds) c tail Hall Hc) as [-> ->].
  done.
Qed.

(** X24. The UID of a process is the first number of the first line of
    its [status] file that begins with [Uid:], that is the real UID,
    whatever lines stand before and after; when the file cannot be
    read there is no UID, and under an allow-list the process is
    passed over. *)
Theorem getPidUidFrom_real_uid (read : string -> option string) (p : Z)
    (pre : list string) (gap digits : string) (c : ascii) (tail : string) :
  Forall (fun l => otherLine "Uid:" l = true) pre ->
  isSpaceRun gap = true -> isDigits digits = true -> Js.isDigit c = false ->
  (read (procPath p "status")
   = Some (lines pre +:+ "Uid:" +:+ gap +:+ digits +:+ String c tail) ->
   getPidUidFrom read p = Js.parseInt10 digits) /\
  (read (procPath p "status") = None ->
   getPidUidFrom read p = None /\
   forall set, uidPasses (Some set) (getPidUidFrom read p) = false).
Proof.
  intros Hpre Hgap Hdigits Hc. split.
  - intros Hread. unfold getPidUidFrom. rewrite Hread.
    rewrite (execAtLineStarts_lines _ "Uid:").
    + assert (Hat : keySpaceDigitsAt "Uid:" ("Uid:" +:+ gap +:+ digits +:+ String c tail)
                    = Some (digits, String c tail))
        by (by apply keySpaceDigitsAt_line).
      change ("Uid:" +:+ gap +:+ digits +:+ String c tail)
        with (String "U" ("id:" +:+ gap +:+ digits +:+ String c tail)) in *.
      cbn [execAtLineStarts]. by rewrite Hat.
    + intros l r Hl. unfold keySpaceDigitsAt. by rewrite dropPrefix_other_line.
    + done.
  - intros Hread. unfold getPidUidFrom. by rewrite Hread.
Qed.

Lemma getPidUidFrom_real_uid_witness :
  getPidUidFrom
    (fun path => if String.eqb path "/proc/42/status"
                 then Some (lines ["Name:" +:+ String "009" "Uid: 0"; "Umask:" +:+ String "009" "0022"]
                            +:+ "Uid:" +:+ String "009" "" +:+ "1000"
                            +:+ String "009" (lines ["0" +:+ String "009" "0"; "Gid: 5"]))
                 else None) 42
  = Some 1000.
Proof.
  rewrite (proj1 (getPidUidFrom_real_uid _ 42
                    ["Name:" +:+ String "009" "Uid: 0"; "Umask:" +:+ String "009" "0022"]
                    (String "009" "") "1000" "009"
                    (lines ["0" +:+ String "009" "0"; "Gid: 5"])
                    ltac:(repeat constructor) eq_refl eq_refl eq_refl));
    reflexivity.
Defined.

Lemma space_not_digit (c : ascii) : Js.isWhiteSpace c = true -> Js.isDigit c = false.
Proof.
  intros Hw. destruct (Js.isDigit c) eqn:E; [|done].
  apply digit_not_space in E. congruence.
Qed.

Lemma vmRssAt_line (gap digits gap2 tail : string) :
  isSpaceRun gap = true -> isDigits digits = true -> isSpaceRun gap2 = true ->
  vmRssAt ("VmRSS:" +:+ gap +:+ digits +:+ gap2 +:+ "kB" +:+ tail) = Some digits.
Proof.
  intros Hgap Hdigits Hgap2. unfold vmRssAt.
  pose proof Hgap2 as Hg2. unfold isSpaceRun in Hg2. apply andb_true_iff in Hg2.
  destruct Hg2 as [Hne Hws]. destruct gap2 as [|g gs]; [done|].
  pose proof Hws as Hws'. simpl in Hws'. apply andb_true_iff in Hws'.
  destruct Hws' as [Hg _].
  rewrite (app_String g gs).
  rewrite (keySpaceDigitsAt_line "VmRSS:" gap digits g (gs +:+ "kB" +:+ tail))
    by (try done; by apply space_not_digit).
  rewrite <- (app_String g gs).
  change ("kB" +:+ tail) with (String "k" (String "B" tail)).
  destruct (takeWhile_app_stop Js.isWhiteSpace (String g gs) "k" (String "B" tail) Hws
              eq_refl) as [-> ->].
  reflexivity.
Qed.

(** X25. The resident memory of a process is 1024 times the number of
    the first [VmRSS:] line of its [status] file, when that line gives
    kilobytes; when [status] has no such line, as for a kernel thread,
    it is the second number of [statm] times the page size, and 0 when
    [statm] is missing too; when [status] itself cannot be read it is
    0, whatever [statm] holds. *)
Theorem getPidRssBytesFrom_sources (read : string -> option string) (pageSize : positive)
    (p : Z) (pre : list string) (gap digits gap2 tail : string)
    (total : string) (pages : list (string * string)) :
  Forall (fun l => otherLine "VmRSS:" l = true) pre ->
  isSpaceRun gap = true -> isDigits digits = true -> isSpaceRun gap2 = true ->
  isWord total = true -> wordsAndGaps pages ->
  (read (procPath p "status")
   = Some (lines pre +:+ "VmRSS:" +:+ gap +:+ digits +:+ gap2 +:+ "kB" +:+ tail) ->
   getPidRssBytesFrom read pageSize p = Text.orZero (Js.parseInt10 digits) * 1024) /\
  (read (procPath p "status") = Some (lines pre) ->
   (read (procPath p "statm") = Some (spacedWords total pages +:+ String "010" "") ->
    getPidRssBytesFrom read pageSize p
    = match parseNth (total :: (snd <$> pages)) 1 (Some 10) with
      | Some resident => resident * Z.pos pageSize
      | None => 0
      end) /\
   (read (procPath p "statm") = None -> getPidRssBytesFrom read pageSize p = 0)) /\
  (read (procPath p "status") = None -> getPidRssBytesFrom read pageSize p = 0).
Proof.
  intros Hpre Hgap Hdigits Hgap2 Htotal Hpages.
  assert (Hother : forall l r, Js.startsWith "VmRSS:" l = false ->
                               vmRssAt (l +:+ String "010" r) = None).
  { intros l r Hl. unfold vmRssAt, keySpaceDigitsAt. by rewrite dropPrefix_other_line. }
  split; [|split].
  - intros Hread. unfold getPidRssBytesFrom. rewrite Hread.
    rewrite (execAtLineStarts_lines _ "VmRSS:") by done.
    pose proof (vmRssAt_line gap digits gap2 tail Hgap Hdigits Hgap2) as Hat.
    change ("VmRSS:" +:+ gap +:+ digits +:+ gap2 +:+ "kB" +:+ tail)
      with (String "V" ("mRSS:" +:+ gap +:+ digits +:+ gap2 +:+ "kB" +:+ tail)) in *.
    cbn [execAtLineStarts]. by rewrite Hat.
  - intros Hread.
    assert (Hnone : execAtLineStarts vmRssAt true (lines pre) = None).
    { rewrite <- (app_empty_r (lines pre)).
      by rewrite (execAtLineStarts_lines _ "VmRSS:"). }
    split.
    + intros Hstatm. unfold getPidRssBytesFrom. rewrite Hread, Hnone, Hstatm.
      simpl default.
      assert (Htruthy : Js.truthy (spacedWords total pages +:+ String "010" "") = true).
      { destruct (spacedWords_starts total pages Htotal) as (c & s & -> & _). done. }
      rewrite Htruthy, trim_spacedWords_line, splitSpaces_spacedWords by done. done.
    + intros Hstatm. unfold getPidRssBytesFrom. by rewrite Hread, Hnone, Hstatm.
  - intros Hread. unfold getPidRssBytesFrom. by rewrite Hread.
Qed.

Lemma getPidRssBytesFrom_sources_witness :
  getPidRssBytesFrom
    (fun path => if String.eqb path "/proc/42/status"
                 then Some (lines ["Name:" +:+ String "009" "node"; "VmPeak:   90000 kB"]
                            +:+ "VmRSS:" +:+ String "009" "   " +:+ "51200" +:+ " "
                            +:+ "kB" +:+ String "010" (lines ["Threads: 11"]))
                 else None) 4096 42
  = 51200 * 1024 /\
  getPidRssBytesFrom
    (fun path => if String.eqb path "/proc/2/status"
                 then Some (lines ["Name:" +:+ String "009" "kthreadd"])
                 else if String.eqb path "/proc/2/statm"
                 then Some (spacedWords "0" [(" ", "0"); (" ", "0")] +:+ String "010" "")
                 else None) 4096 2
  = 0.
Proof.
  split.
  - rewrite (proj1 (getPidRssBytesFrom_sources _ 4096 42
                      ["Name:" +:+ String "009" "node"; "VmPeak:   90000 kB"]
                      (String "009" "   ") "51200" " " (String "010" (lines ["Threads: 11"]))
                      "0" [] ltac:(repeat constructor) eq_refl eq_refl eq_refl eq_refl
                      ltac:(constructor)));
      reflexivity.
  - rewrite (proj1 (proj1 (proj2 (getPidRssBytesFrom_sources _ 4096 2
                      ["Name:" +:+ String "009" "kthreadd"]
                      " " "1" " " "" "0" [(" ", "0"); (" ", "0")]
                      ltac:(repeat constructor) eq_refl eq_refl eq_refl eq_refl
                      ltac:(repeat constructor))) eq_refl));
      reflexivity.
Defined.


(** ** The extent of the stored snapshots *)

Lemma sorted_bounds (l : list Z) (t : Z) :
  StronglySorted (fun a b => (a <=? b) = true) l -> t ∈ l ->
  default 0 (head l) <= t <= default 0 (last l).
Proof.
  induction 1 as [|x l Hl IH Hx]; intros Ht; [by apply elem_of_nil in Ht|].
  rewrite Forall_forall in Hx.
  assert (Hlast : forall y, y ∈ l -> x <= default 0 (last (x :: l))).
  { intros y Hy. destruct l as [|z l']; [by apply elem_of_nil in Hy|].
    rewrite last_cons_cons. destruct (last (z :: l')) as [e|] eqn:E.
    - apply last_Some_elem_of in E. apply Hx, Z.leb_le in E. done.
    - by apply last_None in E. }
  apply elem_of_cons in Ht. destruct Ht as [->|Ht]; simpl head; simpl default.
  - split; [lia|]. destruct l as [|z l']; [simpl; lia|].
    apply (Hlast z). left.
  - split; [by apply Z.leb_le, Hx|].
    destruct l as [|z l']; [by apply elem_of_nil in Ht|].
    rewrite last_cons_cons. by apply IH.
Qed.

Lemma timestampsOf_sorted (keys : list string) :
  StronglySorted (fun a b => (a <=? b) = true) (timestampsOf keys).
Proof.
  apply (sortBy_sorted Z.leb (fun _ => True)).
  - intros a b _ _. destruct (Z.leb_spec a b); [by left|right]. apply Z.leb_le. lia.
  - intros a b c _ _ _ Hab Hbc. apply Z.leb_le in Hab, Hbc. apply Z.leb_le. lia.
  - by apply Forall_forall.
Qed.

Lemma elem_of_timestampsOf (keys : list string) (t : Z) :
  t ∈ timestampsOf keys <-> exists k, k ∈ keys /\ keyTimestamp k = Some t.
Proof.
  unfold timestampsOf. rewrite sortBy_perm. apply list_elem_of_omap.
Qed.

(** X26. The report on the stored snapshots counts every key, and its
    oldest and newest timestamps bound the timestamp of every key that
    has one; they are timestamps of keys themselves, and both are 0
    when no key has one.  When the store cannot be reached, or holds no
    key, the report is all zeros. *)
Theorem getMetricsInfo_timestamps (keys : list string) (estimate : list string -> option Z)
    (size : Z) :
  keys <> [] -> estimate keys = Some size ->
  let info := getMetricsInfo (Some keys) estimate in
  i_count info = Z.of_nat (length keys) /\
  (forall k t, k ∈ keys -> keyTimestamp k = Some t ->
     i_oldestTimestamp info <= t <= i_newestTimestamp info /\
     exists k1 k2, k1 ∈ keys /\ k2 ∈ keys /\
       keyTimestamp k1 = Some (i_oldestTimestamp info) /\
       keyTimestamp k2 = Some (i_newestTimestamp info)) /\
  ((forall k, k ∈ keys -> keyTimestamp k = None) ->
     i_oldestTimestamp info = 0 /\ i_newestTimestamp info = 0) /\
  getMetricsInfo None estimate = noMetricsInfo /\
  getMetricsInfo (Some []) estimate = noMetricsInfo.
Proof.
  intros Hkeys Hsize info.
  assert (Hinfo : info = {| i_count := Z.of_nat (length keys);
                            i_estimatedSize := size;
                            i_oldestTimestamp := default 0 (head (timestampsOf keys));
                            i_newestTimestamp := default 0 (last (timestampsOf keys)) |}).
  { unfold info, getMetricsInfo. destruct keys as [|k ks]; [done|]. by rewrite Hsize. }
  rewrite Hinfo. simpl. split; [done|]. split; [|split; [|done]].
  - intros k t Hk Ht.
    assert (Hin : t ∈ timestampsOf keys) by (apply elem_of_timestampsOf; eauto).
    split; [by apply sorted_bounds; [apply timestampsOf_sorted|]|].
    destruct (timestampsOf keys) as [|t0 ts] eqn:E; [by apply elem_of_nil in Hin|].
    assert (Hhead : t0 ∈ timestampsOf keys) by (rewrite E; left).
    destruct (last (t0 :: ts)) as [tl|] eqn:El; [|by apply last_None in El].
    assert (Hlast : tl ∈ timestampsOf keys) by (rewrite E; by apply last_Some_elem_of).
    apply elem_of_timestampsOf in Hhead, Hlast.
    destruct Hhead as (k1 & Hk1 & Ht1), Hlast as (k2 & Hk2 & Ht2).
    exists k1, k2. done.
  - intros Hnone.
    destruct (timestampsOf keys) as [|t0 ts] eqn:E; [done|].
    assert (Hhead : t0 ∈ timestampsOf keys) by (rewrite E; left).
    apply elem_of_timestampsOf in Hhead. destruct Hhead as (k1 & Hk1 & Ht1).
    rewrite (Hnone k1 Hk1) in Ht1. done.
Qed.

Lemma getMetricsInfo_timestamps_witness :
  let info := getMetricsInfo
                (Some ["metrics:1700000010000"; "metrics:latest"; "metrics:1700000000000";
                       "metrics:1700000005000"])
                (fun _ => Some 4096) in
  i_oldestTimestamp info <= 1700000005000 <= i_newestTimestamp info /\
  i_oldestTimestamp info = 1700000000000 /\ i_newestTimestamp info = 1700000010000.
Proof.
  intros info. split; [|split; reflexivity].
  apply (proj1 (proj2 (getMetricsInfo_timestamps
                         ["metrics:1700000010000"; "metrics:latest";
                          "metrics:1700000000000"; "metrics:1700000005000"]
                         (fun _ => Some 4096) 4096 ltac:(done) eq_refl))
           "metrics:1700000005000" 1700000005000).
  - apply (bool_decide_unpack _). vm_compute. exact I.
  - reflexivity.
Defined.
